(** * LibrePCB: net points, net segment splitting and undo command groups

    A shallow embedding of
    - [librepcb/common/geometry/netpoint.cpp] (class [NetPoint]),
    - [projecteditor/boardeditor/boardclipboarddatabuilder.cpp],
    - [projecteditor/boardeditor/schematicnetsegmentsplitter.h],
    - [projecteditor/cmd/cmdremoveboarditems.cpp] and
    - [projecteditor/cmd/cmdpasteboarditems.cpp],
    together with the properties the specification states about them. *)

From Stdlib Require Import ZArith.
From stdpp Require Import base decidable option list gmap strings.

(** ** Primitive types

    [Uuid] and [Point] come from headers outside the files modelled here.  A
    [Uuid] is only ever compared and used as a key, so a number serves; a
    [Point] is a pair of [Length]s (64-bit nanometre counts). *)

Definition Uuid : Type := nat.

Record Point : Type := mkPoint { getX : Z; getY : Z }.

#[global] Instance Point_eq_dec : EqDecision Point.
Proof. solve_decision. Defined.

Definition Point_add (p q : Point) : Point :=
  mkPoint (getX p + getX q)%Z (getY p + getY q)%Z.

(** ** [librepcb::NetPoint] (netpoint.h, netpoint.cpp) *)

Module NetPoint.

(** [enum class Event]. *)
Inductive Event : Type := UuidChanged | PositionChanged.

#[global] Instance Event_eq_dec : EqDecision Event.
Proof. solve_decision. Defined.

(** The object: its two data members, and the notifications its [onEdited]
    signal has delivered so far, oldest first. *)
Record t : Type := mk {
  mUuid : Uuid;
  mPosition : Point;
  onEdited : list Event
}.

#[global] Instance t_eq_dec : EqDecision t.
Proof. solve_decision. Defined.

Definition getUuid (np : t) : Uuid := mUuid np.
Definition getPosition (np : t) : Point := mPosition np.

(** [onEdited.notify(ev)]. *)
Definition notify (ev : Event) (np : t) : t :=
  mk (mUuid np) (mPosition np) (onEdited np ++ [ev]).

(** [NetPoint(const Uuid&, const Point&)]: a new object, nothing notified. *)
Definition create (uuid : Uuid) (position : Point) : t := mk uuid position [].

(** [NetPoint(const NetPoint& other)]. *)
Definition copy (other : t) : t := mk (mUuid other) (mPosition other) [].

(** [NetPoint(const Uuid& uuid, const NetPoint& other)]. *)
Definition copyWithUuid (uuid : Uuid) (other : t) : t :=
  mk uuid (mPosition (copy other)) (onEdited (copy other)).

(** [bool NetPoint::setPosition(const Point& position) noexcept]. *)
Definition setPosition (position : Point) (np : t) : bool * t :=
  if decide (position = mPosition np) then (false, np)
  else (true, notify PositionChanged (mk (mUuid np) position (onEdited np))).

(** [bool NetPoint::operator==(const NetPoint& rhs)]. *)
Definition equal (lhs rhs : t) : bool :=
  if decide (mUuid lhs ≠ mUuid rhs) then false
  else if decide (mPosition lhs ≠ mPosition rhs) then false
  else true.

(** [bool NetPoint::operator!=(const NetPoint& rhs)] (netpoint.h). *)
Definition notEqual (lhs rhs : t) : bool := negb (equal lhs rhs).

(** [NetPoint& NetPoint::operator=(const NetPoint& rhs)]. *)
Definition assign (rhs : t) (lhs : t) : t :=
  let lhs1 :=
    if decide (mUuid lhs ≠ mUuid rhs)
    then notify UuidChanged (mk (mUuid rhs) (mPosition lhs) (onEdited lhs))
    else lhs in
  snd (setPosition (mPosition rhs) lhs1).

End NetPoint.

(** ** The connectivity graph handed to a net segment splitter

    [TraceAnchor] is the discriminated union the removal command dispatches
    on in [convertAnchor] ([tryGetNetPoint], [tryGetVia], [tryGetPad]). *)

Inductive TraceAnchor : Type :=
| netPoint (uuid : Uuid)
| via (uuid : Uuid)
| pad (device : Uuid) (padUuid : Uuid).

#[global] Instance TraceAnchor_eq_dec : EqDecision TraceAnchor.
Proof. solve_decision. Defined.

Definition tryGetNetPoint (a : TraceAnchor) : option Uuid :=
  match a with netPoint u => Some u | _ => None end.

Definition tryGetVia (a : TraceAnchor) : option Uuid :=
  match a with via u => Some u | _ => None end.

Definition tryGetPad (a : TraceAnchor) : option (Uuid * Uuid) :=
  match a with pad d p => Some (d, p) | _ => None end.

(** [librepcb::Via] (its header is outside the files modelled here): the attributes
    the paste command reads. *)
Record Via : Type := mkVia {
  viaUuid : Uuid;
  viaPosition : Point;
  viaShape : nat;
  viaSize : Z;
  viaDrillDiameter : Z
}.

#[global] Instance Via_eq_dec : EqDecision Via.
Proof. solve_decision. Defined.

(** An anchor of the working set: a junction (net point), a via or a pad. *)
Inductive Anchor : Type :=
| JunctionAnchor (np : NetPoint.t)
| ViaAnchor (v : Via)
| PadAnchor (device : Uuid) (padUuid : Uuid) (pos : Point).

#[global] Instance Anchor_eq_dec : EqDecision Anchor.
Proof. solve_decision. Defined.

Definition anchorRef (a : Anchor) : TraceAnchor :=
  match a with
  | JunctionAnchor np => netPoint (NetPoint.getUuid np)
  | ViaAnchor v => via (viaUuid v)
  | PadAnchor d p _ => pad d p
  end.

Definition anchorPos (a : Anchor) : Point :=
  match a with
  | JunctionAnchor np => NetPoint.getPosition np
  | ViaAnchor v => viaPosition v
  | PadAnchor _ _ pos => pos
  end.

Definition isJunction (a : Anchor) : bool :=
  match anchorRef a with netPoint _ => true | _ => false end.

(** The junction with identity [uuid] at [pos]. *)
Definition junctionAt (uuid : Uuid) (pos : Point) : Anchor :=
  JunctionAnchor (NetPoint.create uuid pos).

(** An edge ([Trace] on a board, [NetLine] in a schematic): identity, the
    two endpoints with the positions they had, layer and width. *)
Record Trace : Type := mkTrace {
  traceUuid : Uuid;
  getLayer : string;
  getWidth : Z;
  getStartPoint : TraceAnchor;
  getEndPoint : TraceAnchor;
  startPos : Point;
  endPos : Point
}.

#[global] Instance Trace_eq_dec : EqDecision Trace.
Proof. solve_decision. Defined.

Module Splitter.

(** [struct Segment] of the splitter classes. *)
Record Segment : Type := mkSegment {
  anchors : list Anchor;
  traces : list Trace
}.

#[global] Instance Segment_eq_dec : EqDecision Segment.
Proof. solve_decision. Defined.

(** The splitter object (schematicnetsegmentsplitter.h): the items added so
    far.  Net labels are left out: their assignment is an open point of the
    specification and no property below speaks of them. *)
Record t : Type := mk {
  mAnchors : list Anchor;
  mTraces : list Trace
}.

Definition empty : t := mk [] [].

(** Appending a copy of an anchor to those added so far. *)
Definition addAnchor (a : Anchor) (s : t) : t :=
  mk (mAnchors s ++ [a]) (mTraces s).

(** [addJunction] of the schematic splitter, [addNetPoint] and [addVia] of
    the board splitter. *)
Definition addJunction (junction : NetPoint.t) (s : t) : t :=
  addAnchor (JunctionAnchor junction) s.

Definition addNetPoint (netpoint : NetPoint.t) (s : t) : t :=
  addAnchor (JunctionAnchor netpoint) s.

Definition addVia (v : Via) (s : t) : t := addAnchor (ViaAnchor v) s.

(** [addTrace] of the board splitter, [addNetLine] of the schematic one. *)
Definition addTrace (e : Trace) (s : t) : t :=
  mk (mAnchors s) (mTraces s ++ [e]).

Definition addNetLine (netline : Trace) (s : t) : t := addTrace netline s.

Definition refs (l : list Anchor) : list TraceAnchor := anchorRef <$> l.

Definition touches (r : TraceAnchor) (e : Trace) : Prop :=
  getStartPoint e = r ∨ getEndPoint e = r.

#[global] Instance touches_dec r e : Decision (touches r e).
Proof. unfold touches. apply _. Defined.

Definition otherEnd (r : TraceAnchor) (e : Trace) : TraceAnchor :=
  if decide (getStartPoint e = r) then getEndPoint e else getStartPoint e.

(** The number of edges of [es] that end in [r]. *)
Definition degree (r : TraceAnchor) (es : list Trace) : nat :=
  length (filter (touches r) es).

(** *** Step 2: insert missing anchors *)

Definition refUuids (r : TraceAnchor) : list Uuid :=
  match r with
  | netPoint u => [u]
  | via u => [u]
  | pad d p => [d; p]
  end.

Definition traceUuids (e : Trace) : list Uuid :=
  traceUuid e :: refUuids (getStartPoint e) ++ refUuids (getEndPoint e).

(** Modelled from the spec: identifiers of new elements come from a unique
    id generator outside the files modelled here; here the first number above every
    identifier the input mentions, and its successors. *)
Definition freshUuid (ans : list Anchor) (es : list Trace) : Uuid :=
  S (max_list ((refs ans ≫= refUuids) ++ (es ≫= traceUuids))).

(** Modelled from the spec: [insertMissingAnchor] is only declared in the
    header.  For an endpoint that is not in the anchor set, the new junction
    at the endpoint's former position; nothing for one that is. *)
Definition insertMissingAnchor (ans : list Anchor) (r : TraceAnchor)
    (pos : Point) (fresh : Uuid) : option Anchor :=
  if decide (r ∈ refs ans) then None else Some (junctionAt fresh pos).

Definition substituted (old : TraceAnchor) (new : option Anchor) : TraceAnchor :=
  from_option anchorRef old new.

Definition withEndpoints (e : Trace) (s t : TraceAnchor) : Trace :=
  mkTrace (traceUuid e) (getLayer e) (getWidth e) s t (startPos e) (endPos e).

(** Modelled from the spec: [insertMissingAnchors] is only declared in the
    header.  Every edge is visited once; each endpoint missing from the
    anchor set gets a new junction, which takes its place in the edge.  The
    result is the list of new junctions and the edges after substitution. *)
Fixpoint insertMissingAnchors (ans : list Anchor) (fresh : Uuid)
    (es : list Trace) : list Anchor * list Trace :=
  match es with
  | [] => ([], [])
  | e :: es' =>
      let s := insertMissingAnchor ans (getStartPoint e) (startPos e) fresh in
      let t := insertMissingAnchor ans (getEndPoint e) (endPos e) (S fresh) in
      let e' := withEndpoints e (substituted (getStartPoint e) s)
                                (substituted (getEndPoint e) t) in
      let r := insertMissingAnchors ans (S (S fresh)) es' in
      (option_list s ++ option_list t ++ fst r, e' :: snd r)
  end.

(** *** Steps 1 and 3: traversal into connected components *)

(** Modelled from the spec: the traversal is absent from the sources (the
    header keeps its prototype [findConnectedLinesAndPoints] in a comment).
    Depth-first from the anchors of [work]: an anchor not seen before is
    marked, the available edges ending in it move to the component, and
    their far ends are queued. *)
Fixpoint findConnectedLinesAndPoints (fuel : nat) (work visited : list TraceAnchor)
    (taken available : list Trace)
    : list TraceAnchor * list Trace * list Trace :=
  match fuel with
  | O => (visited, taken, available)
  | S fuel' =>
      match work with
      | [] => (visited, taken, available)
      | r :: work' =>
          if decide (r ∈ visited)
          then findConnectedLinesAndPoints fuel' work' visited taken available
          else
            let incident := filter (touches r) available in
            findConnectedLinesAndPoints fuel'
              ((otherEnd r <$> incident) ++ work') (r :: visited)
              (taken ++ incident)
              (filter (λ e, ¬ touches r e) available)
      end
  end.

(** Enough steps for any traversal over [es] from one anchor. *)
Definition traversalFuel (es : list Trace) : nat := S (2 * length es).

(** Modelled from the spec: the component loop of [split] (step 3).  The
    first anchor still unassigned seeds a traversal; the anchors it reached
    and the edges it took form one candidate segment; the loop goes on with
    what is left. *)
Fixpoint components (fuel : nat) (ans : list Anchor) (es : list Trace)
    : list Segment :=
  match fuel with
  | O => []
  | S fuel' =>
      match ans with
      | [] => []
      | a :: _ =>
          let '(visited, taken, rest) :=
            findConnectedLinesAndPoints (traversalFuel es) [anchorRef a] [] [] es in
          mkSegment (filter (λ x, anchorRef x ∈ visited) ans) taken
          :: components fuel' (filter (λ x, anchorRef x ∉ visited) ans) rest
      end
  end.

(** *** Step 4: drop floating junctions *)

(** A candidate segment without any edge, via or pad. *)
Definition floatingJunctions (s : Segment) : bool :=
  forallb isJunction (anchors s) && bool_decide (traces s = []).

(** Modelled from the spec: [split] is declared in the header, its body is
    absent.  Steps 2, 3 and 4 of the specified algorithm. *)
Definition splitItems (ans : list Anchor) (es : list Trace) : list Segment :=
  let aug := insertMissingAnchors ans (freshUuid ans es) es in
  filter (λ s, floatingJunctions s = false)
         (components (length (ans ++ fst aug)) (ans ++ fst aug) (snd aug)).

Definition split (s : t) : list Segment := splitItems (mAnchors s) (mTraces s).

(** The junctions [split] adds to the anchors it was given. *)
Definition synthesized (ans : list Anchor) (es : list Trace) : list Anchor :=
  fst (insertMissingAnchors ans (freshUuid ans es) es).

(** The anchors one gets to from [r] along edges of [es]. *)
Inductive reachable (es : list Trace) (r : TraceAnchor) : TraceAnchor → Prop :=
| reachable_here : reachable es r r
| reachable_step e x :
    reachable es r x → e ∈ es → touches x e → reachable es r (otherEnd x e).

(** Every edge ends in anchors of the set. *)
Definition Closed (ans : list Anchor) (es : list Trace) : Prop :=
  ∀ e, e ∈ es → getStartPoint e ∈ refs ans ∧ getEndPoint e ∈ refs ans.

(** What a candidate segment looks like: its anchors are among the given
    ones, in their order; its edges are given ones; and either it has no
    edge and its anchors share one reference, or every anchor of it ends
    one of its edges. *)
Definition candidate (ans : list Anchor) (es : list Trace) (s : Segment) : Prop :=
  anchors s `sublist_of` ans ∧ traces s ⊆ es ∧
  ((traces s = [] ∧ ∃ r, ∀ x, x ∈ anchors s → anchorRef x = r) ∨
   (∀ x, x ∈ anchors s → ∃ e, e ∈ traces s ∧ touches (anchorRef x) e)).

(** The candidate segments, before floating junctions are dropped. *)
Definition candidates (ans : list Anchor) (es : list Trace) : list Segment :=
  let aug := insertMissingAnchors ans (freshUuid ans es) es in
  components (length (ans ++ aug.1)) (ans ++ aug.1) aug.2.

(** The partition property as the specification words it: anchor sets
    pairwise disjoint with union, less the inserted junctions, the input
    anchors; edge sets pairwise disjoint with union the input edges. *)
Definition partition_as_stated (ans : list Anchor) (es : list Trace) : Prop :=
  NoDup (splitItems ans es ≫= anchors) ∧
  (∀ a, a ∈ splitItems ans es ≫= anchors ∧ a ∉ synthesized ans es ↔ a ∈ ans) ∧
  NoDup (traceUuid <$> (splitItems ans es ≫= traces)) ∧
  traceUuid <$> (splitItems ans es ≫= traces) ≡ₚ traceUuid <$> es.

(** A junction of the input that no input edge ends in. *)
Definition floating (es : list Trace) (a : Anchor) : Prop :=
  isJunction a = true ∧ degree (anchorRef a) es = 0.

End Splitter.

(** ** Exceptions

    [LogicError(__FILE__, __LINE__)] is what the commands throw themselves;
    anything else a child command may raise is a [RuntimeError]. *)

Inductive Exception : Type :=
| LogicError (file : string) (line : nat)
| RuntimeError (msg : string).

#[global] Instance Exception_eq_dec : EqDecision Exception.
Proof. solve_decision. Defined.

(** ** [UndoCommandGroup]: the command group engine

    The base class and [scopeGuard] live outside the files modelled here.  The
    body of a [performExecute] is a program over the operations a group
    offers to it; the model state is only ever touched by the child
    commands the program executes. *)

Module UndoCommandGroup.

Section Engine.

(** The model the commands edit, and the command objects. *)
Variables Model Cmd : Type.

(** What executing a child command yields: the command object as executed
    and the model after it, or the exception raised and the model left
    behind. *)
Inductive ExecResult : Type :=
| Executed (c : Cmd) (m : Model)
| Failed (e : Exception) (m : Model).

(** [UndoCommand::execute] and [UndoCommand::undo] of the child commands. *)
Variable cmdExecute : Cmd → Model → ExecResult.
Variable cmdUndo : Cmd → Model → Model.

(** [Uuid::createRandom()]: the identifier drawn at the n-th call. *)
Variable createRandom : nat → Uuid.

(** What an observer of the group sees happen. *)
Inductive Event : Type :=
| EvExecute (c : Cmd)
| EvFailed (c : Cmd) (e : Exception)
| EvUndo (c : Cmd)
| EvSplit (sp : Splitter.t).

(** Programs run inside [performExecute]. *)
Inductive GroupProg (A : Type) : Type :=
| Ret (a : A)
| Throw (e : Exception)
| ExecNewChildCmd (c : Cmd) (k : Cmd → GroupProg A)
| GetModel (k : Model → GroupProg A)
| GetChildCount (k : nat → GroupProg A)
| CreateRandomUuid (k : Uuid → GroupProg A)
| CallSplitter (sp : Splitter.t) (k : list Splitter.Segment → GroupProg A).

Arguments Ret {A} a.
Arguments Throw {A} e.
Arguments ExecNewChildCmd {A} c k.
Arguments GetModel {A} k.
Arguments GetChildCount {A} k.
Arguments CreateRandomUuid {A} k.
Arguments CallSplitter {A} sp k.

Fixpoint bind {A B : Type} (p : GroupProg A) (f : A → GroupProg B)
    : GroupProg B :=
  match p with
  | Ret a => f a
  | Throw e => Throw e
  | ExecNewChildCmd c k => ExecNewChildCmd c (λ c', bind (k c') f)
  | GetModel k => GetModel (λ m, bind (k m) f)
  | GetChildCount k => GetChildCount (λ n, bind (k n) f)
  | CreateRandomUuid k => CreateRandomUuid (λ u, bind (k u) f)
  | CallSplitter sp k => CallSplitter sp (λ segs, bind (k segs) f)
  end.

(** [execNewChildCmd(cmd)], keeping the executed command object. *)
Definition execNewChildCmd (c : Cmd) : GroupProg Cmd := ExecNewChildCmd c Ret.

Definition getModel : GroupProg Model := GetModel Ret.
Definition getChildCount : GroupProg nat := GetChildCount Ret.
Definition createRandomUuid : GroupProg Uuid := CreateRandomUuid Ret.
Definition callSplitter (sp : Splitter.t) : GroupProg (list Splitter.Segment) :=
  CallSplitter sp Ret.

(** Dereferencing a pointer; a null one has no defined behaviour in the
    sources, the model stops with a fault there. *)
Definition deref {A : Type} (p : option A) : GroupProg A :=
  match p with
  | Some a => Ret a
  | None => Throw (RuntimeError "null pointer")
  end.

(** [foreach (x, l) body]. *)
Fixpoint foreach {X : Type} (l : list X) (body : X → GroupProg unit)
    : GroupProg unit :=
  match l with
  | [] => Ret tt
  | x :: l' => bind (body x) (λ _, foreach l' body)
  end.

(** A loop that carries local variables [acc] from one round to the next. *)
Fixpoint foreachWith {X S : Type} (l : list X) (acc : S)
    (body : S → X → GroupProg S) : GroupProg S :=
  match l with
  | [] => Ret acc
  | x :: l' => bind (body acc x) (λ acc', foreachWith l' acc' body)
  end.

(** The group while it executes: the model, the children executed so far
    in order, how many identifiers were drawn, and the events so far. *)
Record State : Type := mkState {
  model : Model;
  mChilds : list Cmd;
  drawn : nat;
  log : list Event
}.

(** A new group over model [m]. *)
Definition created (m : Model) (seed : nat) : State := mkState m [] seed [].

Inductive Result (A : Type) : Type :=
| Ok (a : A) (s : State)
| Err (e : Exception) (s : State).

Arguments Ok {A} a s.
Arguments Err {A} e s.

Definition stateOf {A : Type} (r : Result A) : State :=
  match r with Ok _ s => s | Err _ s => s end.

(** Modelled from the spec: [UndoCommandGroup::execNewChildCmd] and
    [getChildCount] are absent from the sources.  A child is executed at
    once; when that succeeds it joins the ordered child list, when it
    raises, the exception goes on to the caller and the child is not
    listed.  The other operations read the group or its surroundings. *)
Fixpoint run {A : Type} (p : GroupProg A) (s : State) : Result A :=
  match p with
  | Ret a => Ok a s
  | Throw e => Err e s
  | ExecNewChildCmd c k =>
      match cmdExecute c (model s) with
      | Executed c' m' =>
          run (k c')
              (mkState m' (mChilds s ++ [c']) (drawn s) (log s ++ [EvExecute c']))
      | Failed e m' =>
          Err e (mkState m' (mChilds s) (drawn s) (log s ++ [EvFailed c e]))
      end
  | GetModel k => run (k (model s)) s
  | GetChildCount k => run (k (length (mChilds s))) s
  | CreateRandomUuid k =>
      run (k (createRandom (drawn s)))
          (mkState (model s) (mChilds s) (S (drawn s)) (log s))
  | CallSplitter sp k =>
      run (k (Splitter.split sp))
          (mkState (model s) (mChilds s) (drawn s) (log s ++ [EvSplit sp]))
  end.

(** Modelled from the spec: [UndoCommandGroup::performUndo] is absent from
    the sources.  [undo] on each child, last executed first. *)
Definition undoChild (s : State) (c : Cmd) : State :=
  mkState (cmdUndo c (model s)) (mChilds s) (drawn s) (log s ++ [EvUndo c]).

Definition performUndo (s : State) : State :=
  foldl undoChild s (reverse (mChilds s)).

(** Modelled from the spec: [scopeGuard] is absent from the sources.  A
    guard that is still armed when its scope is left, by return or by
    exception, runs its action; a dismissed one does nothing. *)
Definition leaveScope (armed : bool) (s : State) : State :=
  if armed then performUndo s else s.

(** The frame both [performExecute] bodies share:
    [auto undoScopeGuard = scopeGuard([&]() { performUndo(); });] [body]
    [undoScopeGuard.dismiss(); return (getChildCount() > 0);] *)
Definition performExecute (body : GroupProg unit) (s : State) : Result bool :=
  let undoScopeGuard := true in
  match run body s with
  | Err e s' => Err e (leaveScope undoScopeGuard s')
  | Ok _ s' =>
      let undoScopeGuard := false in
      Ok (bool_decide (0 < length (mChilds s'))) (leaveScope undoScopeGuard s')
  end.

(** The commands an event list shows executed, and undone, in order. *)
Definition executedIn (l : list Event) : list Cmd :=
  omap (λ ev, match ev with EvExecute c => Some c | _ => None end) l.

Definition undoneIn (l : list Event) : list Cmd :=
  omap (λ ev, match ev with EvUndo c => Some c | _ => None end) l.

Definition splitsIn (l : list Event) : list Splitter.t :=
  omap (λ ev, match ev with EvSplit sp => Some sp | _ => None end) l.

(** [undo] of the commands of [cs], first to last. *)
Definition undoAll (cs : list Cmd) (m : Model) : Model :=
  foldl (λ m c, cmdUndo c m) m cs.

(** What a run adds to a group: children and events. *)
Record Extends (s s' : State) (cs : list Cmd) (evs : list Event) : Prop := {
  extends_childs : mChilds s' = mChilds s ++ cs;
  extends_log : log s' = log s ++ evs;
  extends_executed : executedIn evs = cs;
  extends_undone : undoneIn evs = []
}.

(** A program that hands the splitter nothing but inputs satisfying [Q]. *)
Inductive SplitsOnly {A : Type} (Q : Splitter.t → Prop) : GroupProg A → Prop :=
| SplitsOnly_Ret a : SplitsOnly Q (Ret a)
| SplitsOnly_Throw e : SplitsOnly Q (Throw e)
| SplitsOnly_Exec c k :
    (∀ c', SplitsOnly Q (k c')) → SplitsOnly Q (ExecNewChildCmd c k)
| SplitsOnly_GetModel k :
    (∀ m, SplitsOnly Q (k m)) → SplitsOnly Q (GetModel k)
| SplitsOnly_GetChildCount k :
    (∀ n, SplitsOnly Q (k n)) → SplitsOnly Q (GetChildCount k)
| SplitsOnly_CreateRandomUuid k :
    (∀ u, SplitsOnly Q (k u)) → SplitsOnly Q (CreateRandomUuid k)
| SplitsOnly_CallSplitter sp k :
    Q sp → (∀ segs, SplitsOnly Q (k segs)) → SplitsOnly Q (CallSplitter sp k).

(** The commands a run hands to [execNewChildCmd], in order; when the run
    stops on a child that raised, that child is the last one. *)
Fixpoint requested {A : Type} (p : GroupProg A) (s : State) : list Cmd :=
  match p with
  | Ret _ => []
  | Throw _ => []
  | ExecNewChildCmd c k =>
      c :: match cmdExecute c (model s) with
           | Executed c' m' =>
               requested (k c')
                 (mkState m' (mChilds s ++ [c']) (drawn s) (log s ++ [EvExecute c']))
           | Failed _ _ => []
           end
  | GetModel k => requested (k (model s)) s
  | GetChildCount k => requested (k (length (mChilds s))) s
  | CreateRandomUuid k =>
      requested (k (createRandom (drawn s)))
                (mkState (model s) (mChilds s) (S (drawn s)) (log s))
  | CallSplitter sp k =>
      requested (k (Splitter.split sp))
                (mkState (model s) (mChilds s) (drawn s) (log s ++ [EvSplit sp]))
  end.

(** A program that hands [execNewChildCmd] nothing but commands
    satisfying [Q], whatever the operations answer. *)
Inductive ExecsOnly {A : Type} (Q : Cmd → Prop) : GroupProg A → Prop :=
| ExecsOnly_Ret a : ExecsOnly Q (Ret a)
| ExecsOnly_Throw e : ExecsOnly Q (Throw e)
| ExecsOnly_Exec c k :
    Q c → (∀ c', ExecsOnly Q (k c')) → ExecsOnly Q (ExecNewChildCmd c k)
| ExecsOnly_GetModel k :
    (∀ m, ExecsOnly Q (k m)) → ExecsOnly Q (GetModel k)
| ExecsOnly_GetChildCount k :
    (∀ n, ExecsOnly Q (k n)) → ExecsOnly Q (GetChildCount k)
| ExecsOnly_CreateRandomUuid k :
    (∀ u, ExecsOnly Q (k u)) → ExecsOnly Q (CreateRandomUuid k)
| ExecsOnly_CallSplitter sp k :
    (∀ segs, ExecsOnly Q (k segs)) → ExecsOnly Q (CallSplitter sp k).

End Engine.

Arguments Executed {Model Cmd} c m.
Arguments Failed {Model Cmd} e m.
Arguments EvExecute {Cmd} c.
Arguments EvFailed {Cmd} c e.
Arguments EvUndo {Cmd} c.
Arguments EvSplit {Cmd} sp.
Arguments Ret {Model Cmd A} a.
Arguments Throw {Model Cmd A} e.
Arguments ExecNewChildCmd {Model Cmd A} c k.
Arguments GetModel {Model Cmd A} k.
Arguments GetChildCount {Model Cmd A} k.
Arguments CreateRandomUuid {Model Cmd A} k.
Arguments CallSplitter {Model Cmd A} sp k.
Arguments bind {Model Cmd A B} p f.
Arguments execNewChildCmd {Model Cmd} c.
Arguments getModel {Model Cmd}.
Arguments getChildCount {Model Cmd}.
Arguments createRandomUuid {Model Cmd}.
Arguments callSplitter {Model Cmd} sp.
Arguments deref {Model Cmd A} p.
Arguments foreach {Model Cmd X} l body.
Arguments foreachWith {Model Cmd X S} l acc body.
Arguments mkState {Model Cmd} model mChilds drawn log.
Arguments model {Model Cmd} s.
Arguments mChilds {Model Cmd} s.
Arguments drawn {Model Cmd} s.
Arguments log {Model Cmd} s.
Arguments created {Model Cmd} m seed.
Arguments Ok {Model Cmd A} a s.
Arguments Err {Model Cmd A} e s.
Arguments stateOf {Model Cmd A} r.
Arguments run {Model Cmd} cmdExecute createRandom {A} p s.
Arguments undoChild {Model Cmd} cmdUndo s c.
Arguments performUndo {Model Cmd} cmdUndo s.
Arguments leaveScope {Model Cmd} cmdUndo armed s.
Arguments performExecute {Model Cmd} cmdExecute cmdUndo createRandom body s.
Arguments executedIn {Cmd} l.
Arguments undoneIn {Cmd} l.
Arguments splitsIn {Cmd} l.
Arguments undoAll {Model Cmd} cmdUndo cs m.
Arguments SplitsOnly {Model Cmd A} Q p.
Arguments Extends {Model Cmd} s s' cs evs.
Arguments requested {Model Cmd} cmdExecute createRandom {A} p s.
Arguments ExecsOnly {Model Cmd A} Q p.

End UndoCommandGroup.

Declare Scope group_scope.
Delimit Scope group_scope with group.
Notation "'let!' x ':=' p 'in' q" := (UndoCommandGroup.bind p (λ x, q))
  (at level 10, x name, p at level 100, q at level 200,
   format "'let!'  x  :=  p  'in' '//' q") : group_scope.
Notation "'do!' p 'in' q" := (UndoCommandGroup.bind p (λ _, q))
  (at level 10, p at level 100, q at level 200,
   format "'do!'  p  'in' '//' q") : group_scope.

(** ** Board, circuit and library objects

    The classes below are declared outside the files modelled here; each record
    holds what the three commands and the clipboard builder read from, or
    write to, an object of the class.  A field is named after its getter. *)

Record StrokeText : Type := mkStrokeText {
  strokeTextUuid : Uuid;
  strokeTextPosition : Point;
  strokeTextValue : string
}.

Record Polygon : Type := mkPolygon {
  polygonUuid : Uuid;
  polygonPath : list Point
}.

Record Hole : Type := mkHole {
  holeUuid : Uuid;
  holePosition : Point;
  holeDiameter : Z
}.

#[global] Instance StrokeText_eq_dec : EqDecision StrokeText.
Proof. solve_decision. Defined.
#[global] Instance Polygon_eq_dec : EqDecision Polygon.
Proof. solve_decision. Defined.
#[global] Instance Hole_eq_dec : EqDecision Hole.
Proof. solve_decision. Defined.

(** [Path::translated(offset)]. *)
Definition translated (offset : Point) (path : list Point) : list Point :=
  (λ p, Point_add p offset) <$> path.

(** Library elements: identity, and the files of their directory. *)
Module library.

Record Device : Type := mkDevice {
  deviceUuid : Uuid;
  getPackageUuid : Uuid;
  deviceFiles : list string
}.

Record Package : Type := mkPackage {
  packageUuid : Uuid;
  packageFiles : list string;
  (** The pads of the footprint, each with its place in the footprint. *)
  packagePads : list (Uuid * Point)
}.

#[global] Instance Device_eq_dec : EqDecision Device.
Proof. solve_decision. Defined.
#[global] Instance Package_eq_dec : EqDecision Package.
Proof. solve_decision. Defined.

End library.

Record NetSignal : Type := mkNetSignal {
  netSignalName : string;
  netSignalNetClass : string
}.

#[global] Instance NetSignal_eq_dec : EqDecision NetSignal.
Proof. solve_decision. Defined.

Module BI_StrokeText.
Record t : Type := mk {
  getText : StrokeText;
  (** [getFootprint()]: the component of the device whose footprint owns
      the text, null for a text of the board. *)
  getFootprint : option Uuid;
  isSelected : bool
}.
#[global] Instance t_eq_dec : EqDecision t.
Proof. solve_decision. Defined.
End BI_StrokeText.

Module BI_NetSegment.
Record t : Type := mk {
  getUuid : Uuid;
  getNetSignal : NetSignal;
  getVias : list Via;
  getNetPoints : list NetPoint.t;
  getNetLines : list Trace;
  isSelected : bool
}.
#[global] Instance t_eq_dec : EqDecision t.
Proof. solve_decision. Defined.
End BI_NetSegment.

(** A via, and a net line, of a net segment: the item and the segment that
    owns it. *)
Module BI_Via.
Record t : Type := mk {
  getVia : Via;
  getNetSegment : BI_NetSegment.t
}.
#[global] Instance t_eq_dec : EqDecision t.
Proof. solve_decision. Defined.
Definition getUuid (v : t) : Uuid := viaUuid (getVia v).
End BI_Via.

Module BI_NetLine.
Record t : Type := mk {
  getTrace : Trace;
  getNetSegment : BI_NetSegment.t
}.
#[global] Instance t_eq_dec : EqDecision t.
Proof. solve_decision. Defined.
Definition getUuid (l : t) : Uuid := traceUuid (getTrace l).
End BI_NetLine.

Module BI_FootprintPad.
Record t : Type := mk {
  getLibPadUuid : Uuid;
  getPosition : Point;
  getNetLines : list BI_NetLine.t
}.
#[global] Instance t_eq_dec : EqDecision t.
Proof. solve_decision. Defined.
End BI_FootprintPad.

Module BI_Device.
Record t : Type := mk {
  getComponentInstanceUuid : Uuid;
  getLibDevice : library.Device;
  getLibPackage : library.Package;
  getLibFootprintUuid : Uuid;
  getPosition : Point;
  getRotation : Z;
  getIsMirrored : bool;
  (** [getFootprint().getStrokeTexts()] and [getFootprint().getPads()]. *)
  getStrokeTexts : list BI_StrokeText.t;
  getPads : list BI_FootprintPad.t;
  isSelected : bool
}.
#[global] Instance t_eq_dec : EqDecision t.
Proof. solve_decision. Defined.

(** [BI_Device(board, component, libDevice, libFootprint, position,
    rotation, mirrored)]: the new device has the pads of its package, no net
    line on them, and no stroke text of its own yet.  Pads are placed by
    translation only. *)
Definition create (component : Uuid) (libDevice : library.Device)
    (libPackage : library.Package) (libFootprint : Uuid) (position : Point)
    (rotation : Z) (mirrored : bool) : t :=
  mk component libDevice libPackage libFootprint position rotation mirrored []
     ((λ up, BI_FootprintPad.mk up.1 (Point_add position up.2) [])
        <$> library.packagePads libPackage)
     false.

Definition setStrokeTexts (texts : list BI_StrokeText.t) (d : t) : t :=
  mk (getComponentInstanceUuid d) (getLibDevice d) (getLibPackage d)
     (getLibFootprintUuid d) (getPosition d) (getRotation d) (getIsMirrored d)
     texts (getPads d) (isSelected d).

Definition setSelected (selected : bool) (d : t) : t :=
  mk (getComponentInstanceUuid d) (getLibDevice d) (getLibPackage d)
     (getLibFootprintUuid d) (getPosition d) (getRotation d) (getIsMirrored d)
     (getStrokeTexts d) (getPads d) selected.

(** [getFootprint().getPad(uuid)]. *)
Definition getPad (uuid : Uuid) (d : t) : option BI_FootprintPad.t :=
  list_find (λ p, BI_FootprintPad.getLibPadUuid p = uuid) (getPads d)
    ≫= λ ip, Some ip.2.
End BI_Device.

Module BI_Plane.
Record t : Type := mk {
  getUuid : Uuid;
  getLayerName : string;
  getNetSignal : NetSignal;
  getOutline : list Point;
  getMinWidth : Z;
  getMinClearance : Z;
  getKeepOrphans : bool;
  getPriority : Z;
  getConnectStyle : nat;
  isSelected : bool
}.
#[global] Instance t_eq_dec : EqDecision t.
Proof. solve_decision. Defined.
End BI_Plane.

Module BI_Polygon.
Record t : Type := mk { getPolygon : Polygon; isSelected : bool }.
#[global] Instance t_eq_dec : EqDecision t.
Proof. solve_decision. Defined.
End BI_Polygon.

Module BI_Hole.
Record t : Type := mk { getHole : Hole; isSelected : bool }.
#[global] Instance t_eq_dec : EqDecision t.
Proof. solve_decision. Defined.
End BI_Hole.

Module Circuit.
Record t : Type := mk {
  componentInstances : gset Uuid;
  netClasses : gset string;
  (** Net signals by name, each with the name of its net class. *)
  netSignals : gmap string string
}.

Definition getComponentInstanceByUuid (uuid : Uuid) (c : t) : option Uuid :=
  if decide (uuid ∈ componentInstances c) then Some uuid else None.

Definition getNetSignalByName (name : string) (c : t) : option NetSignal :=
  mkNetSignal name <$> netSignals c !! name.

Definition getNetClassByName (name : string) (c : t) : option string :=
  if decide (name ∈ netClasses c) then Some name else None.
End Circuit.

Module ProjectLibrary.
Record t : Type := mk {
  devices : gmap Uuid library.Device;
  packages : gmap Uuid library.Package
}.
Definition getDevice (uuid : Uuid) (l : t) : option library.Device :=
  devices l !! uuid.
Definition getPackage (uuid : Uuid) (l : t) : option library.Package :=
  packages l !! uuid.
End ProjectLibrary.

Module Board.
Record t : Type := mk {
  getUuid : Uuid;
  (** Device instances by component. *)
  deviceInstances : gmap Uuid BI_Device.t;
  netSegments : gmap Uuid BI_NetSegment.t;
  planes : gmap Uuid BI_Plane.t;
  polygons : gmap Uuid BI_Polygon.t;
  strokeTexts : gmap Uuid BI_StrokeText.t;
  holes : gmap Uuid BI_Hole.t;
  (** [getLayerStack()]: the names of the layers. *)
  layers : list string
}.

Definition getDeviceInstanceByComponentUuid (uuid : Uuid) (b : t)
    : option BI_Device.t :=
  deviceInstances b !! uuid.

(** [getLayerStack().getLayer(name)]. *)
Definition getLayer (name : string) (b : t) : option string :=
  if decide (name ∈ layers b) then Some name else None.
End Board.

Module Project.
Record t : Type := mk {
  getCircuit : Circuit.t;
  getLibrary : ProjectLibrary.t;
  getBoard : Board.t
}.
End Project.

(** [BI_NetLineAnchor*]: a live net point, via or pad a net line can end
    in, with where it is. *)
Record BI_NetLineAnchor : Type := mkNetLineAnchor {
  toTraceAnchor : TraceAnchor;
  getAnchorPosition : Point
}.

(** ** The child commands

    Their classes are outside the files modelled here.  A command object
    carries its constructor arguments and, once executed, what it needs
    to undo or to answer its getters. *)

(** [CmdBoardNetSegmentAddElements]: the elements collected for a net
    segment before the command is executed. *)
Module CmdBoardNetSegmentAddElements.

Record t : Type := mk {
  mNetSegment : BI_NetSegment.t;
  mVias : list Via;
  mNetPoints : list NetPoint.t;
  mNetLines : list Trace
}.

Definition create (seg : BI_NetSegment.t) : t := mk seg [] [] [].

(** [addVia(via)]: the new via of the segment. *)
Definition addVia (v : Via) (c : t) : t * BI_NetLineAnchor :=
  (mk (mNetSegment c) (mVias c ++ [v]) (mNetPoints c) (mNetLines c),
   mkNetLineAnchor (via (viaUuid v)) (viaPosition v)).

(** [addNetPoint(position)]: a new net point, under a new identity. *)
Definition addNetPoint (position : Point) (uuid : Uuid) (c : t)
    : t * BI_NetLineAnchor :=
  (mk (mNetSegment c) (mVias c) (mNetPoints c ++ [NetPoint.create uuid position])
      (mNetLines c),
   mkNetLineAnchor (netPoint uuid) position).

(** [addNetLine(start, end, layer, width)]: a new net line, under a new
    identity. *)
Definition addNetLine (startPoint endPoint : BI_NetLineAnchor) (layer : string)
    (width : Z) (uuid : Uuid) (c : t) : t * Trace :=
  let line := mkTrace uuid layer width (toTraceAnchor startPoint)
                (toTraceAnchor endPoint) (getAnchorPosition startPoint)
                (getAnchorPosition endPoint) in
  (mk (mNetSegment c) (mVias c) (mNetPoints c) (mNetLines c ++ [line]), line).

(** The segment once the command has run. *)
Definition extended (c : t) : BI_NetSegment.t :=
  let seg := mNetSegment c in
  BI_NetSegment.mk (BI_NetSegment.getUuid seg) (BI_NetSegment.getNetSignal seg)
    (BI_NetSegment.getVias seg ++ mVias c)
    (BI_NetSegment.getNetPoints seg ++ mNetPoints c)
    (BI_NetSegment.getNetLines seg ++ mNetLines c)
    (BI_NetSegment.isSelected seg).

End CmdBoardNetSegmentAddElements.

Inductive Command : Type :=
| CmdProjectLibraryAddDevice (element : library.Device)
| CmdProjectLibraryAddPackage (element : library.Package)
| CmdDeviceInstanceAdd (device : BI_Device.t)
| CmdDeviceInstanceRemove (device : BI_Device.t)
| CmdBoardNetSegmentAdd (segment : BI_NetSegment.t)
| CmdBoardNetSegmentAddElements (elements : CmdBoardNetSegmentAddElements.t)
| CmdBoardNetSegmentRemove (segment : BI_NetSegment.t)
| CmdBoardPlaneAdd (plane : BI_Plane.t)
| CmdBoardPlaneRemove (plane : BI_Plane.t)
| CmdBoardPolygonAdd (polygon : BI_Polygon.t)
| CmdBoardPolygonRemove (polygon : BI_Polygon.t)
| CmdBoardStrokeTextAdd (text : BI_StrokeText.t)
| CmdBoardStrokeTextRemove (text : BI_StrokeText.t)
| CmdFootprintStrokeTextRemove (footprint : Uuid) (text : BI_StrokeText.t)
    (before : option BI_Device.t)
| CmdBoardHoleAdd (hole : BI_Hole.t)
| CmdBoardHoleRemove (hole : BI_Hole.t)
| CmdNetClassAdd (name : string) (mNetClass : option string)
| CmdNetSignalAdd (netclass : string) (mNetSignal : option NetSignal)
| CmdRemoveUnusedLibraryElements
    (removedDevices : gmap Uuid library.Device)
    (removedPackages : gmap Uuid library.Package).

(** The commands that work on a net segment of the board. *)
Definition isNetSegmentCommand (c : Command) : bool :=
  match c with
  | CmdBoardNetSegmentAdd _ => true
  | CmdBoardNetSegmentAddElements _ => true
  | CmdBoardNetSegmentRemove _ => true
  | _ => false
  end.

(** The commands that add something to the project and take nothing
    away. *)
Definition isAddCommand (c : Command) : bool :=
  match c with
  | CmdProjectLibraryAddDevice _ => true
  | CmdProjectLibraryAddPackage _ => true
  | CmdDeviceInstanceAdd _ => true
  | CmdBoardNetSegmentAdd _ => true
  | CmdBoardNetSegmentAddElements _ => true
  | CmdBoardPlaneAdd _ => true
  | CmdBoardPolygonAdd _ => true
  | CmdBoardStrokeTextAdd _ => true
  | CmdBoardHoleAdd _ => true
  | CmdNetClassAdd _ _ => true
  | CmdNetSignalAdd _ _ => true
  | _ => false
  end.

(** [CmdNetClassAdd::getNetClass()], null before the command has run. *)
Definition getNetClass (c : Command) : option string :=
  match c with CmdNetClassAdd _ created => created | _ => None end.

(** [CmdNetSignalAdd::getNetSignal()], null before the command has run. *)
Definition getNetSignal (c : Command) : option NetSignal :=
  match c with CmdNetSignalAdd _ created => created | _ => None end.

(** [CmdBoardNetSegmentAdd::getNetSegment()]. *)
Definition getNetSegment (c : Command) : option BI_NetSegment.t :=
  match c with CmdBoardNetSegmentAdd seg => Some seg | _ => None end.

Module Semantics.

Definition withBoard (p : Project.t) (b : Board.t) : Project.t :=
  Project.mk (Project.getCircuit p) (Project.getLibrary p) b.

Definition withCircuit (p : Project.t) (c : Circuit.t) : Project.t :=
  Project.mk c (Project.getLibrary p) (Project.getBoard p).

Definition withLibrary (p : Project.t) (l : ProjectLibrary.t) : Project.t :=
  Project.mk (Project.getCircuit p) l (Project.getBoard p).

Definition withDeviceInstances (b : Board.t) (x : gmap Uuid BI_Device.t) : Board.t :=
  Board.mk (Board.getUuid b) x (Board.netSegments b) (Board.planes b)
    (Board.polygons b) (Board.strokeTexts b) (Board.holes b) (Board.layers b).

Definition withNetSegments (b : Board.t) (x : gmap Uuid BI_NetSegment.t) : Board.t :=
  Board.mk (Board.getUuid b) (Board.deviceInstances b) x (Board.planes b)
    (Board.polygons b) (Board.strokeTexts b) (Board.holes b) (Board.layers b).

Definition withPlanes (b : Board.t) (x : gmap Uuid BI_Plane.t) : Board.t :=
  Board.mk (Board.getUuid b) (Board.deviceInstances b) (Board.netSegments b) x
    (Board.polygons b) (Board.strokeTexts b) (Board.holes b) (Board.layers b).

Definition withPolygons (b : Board.t) (x : gmap Uuid BI_Polygon.t) : Board.t :=
  Board.mk (Board.getUuid b) (Board.deviceInstances b) (Board.netSegments b)
    (Board.planes b) x (Board.strokeTexts b) (Board.holes b) (Board.layers b).

Definition withStrokeTexts (b : Board.t) (x : gmap Uuid BI_StrokeText.t) : Board.t :=
  Board.mk (Board.getUuid b) (Board.deviceInstances b) (Board.netSegments b)
    (Board.planes b) (Board.polygons b) x (Board.holes b) (Board.layers b).

Definition withHoles (b : Board.t) (x : gmap Uuid BI_Hole.t) : Board.t :=
  Board.mk (Board.getUuid b) (Board.deviceInstances b) (Board.netSegments b)
    (Board.planes b) (Board.polygons b) (Board.strokeTexts b) x (Board.layers b).

(** Adding an element to a table: refused when its key is taken. *)
Definition added {V : Type} (k : Uuid) (v : V) (tbl : gmap Uuid V)
    : option (gmap Uuid V) :=
  match tbl !! k with
  | None => Some (<[k:=v]> tbl)
  | Some _ => None
  end.

(** Removing an element from a table: refused unless it is there. *)
Definition removed {V : Type} `{EqDecision V} (k : Uuid) (v : V)
    (tbl : gmap Uuid V) : option (gmap Uuid V) :=
  if decide (tbl !! k = Some v) then Some (delete k tbl) else None.

(** Replacing an element of a table: refused unless the old one is there. *)
Definition replaced {V : Type} `{EqDecision V} (k : Uuid) (old new : V)
    (tbl : gmap Uuid V) : option (gmap Uuid V) :=
  if decide (tbl !! k = Some old) then Some (<[k:=new]> tbl) else None.

Definition outcome (c : Command) (p : Project.t) (after : option Project.t)
    : UndoCommandGroup.ExecResult Project.t Command :=
  match after with
  | Some p' => UndoCommandGroup.Executed c p'
  | None => UndoCommandGroup.Failed (RuntimeError "command refused") p
  end.

(** The library elements no device of the board uses. *)
Definition usedDevices (b : Board.t) : gset Uuid :=
  list_to_set ((λ kd, library.deviceUuid (BI_Device.getLibDevice kd.2))
                 <$> map_to_list (Board.deviceInstances b)).

Definition usedPackages (b : Board.t) : gset Uuid :=
  list_to_set ((λ kd, library.packageUuid (BI_Device.getLibPackage kd.2))
                 <$> map_to_list (Board.deviceInstances b)).

Definition withoutText (text : BI_StrokeText.t) (d : BI_Device.t) : BI_Device.t :=
  BI_Device.mk (BI_Device.getComponentInstanceUuid d) (BI_Device.getLibDevice d)
    (BI_Device.getLibPackage d) (BI_Device.getLibFootprintUuid d)
    (BI_Device.getPosition d) (BI_Device.getRotation d)
    (BI_Device.getIsMirrored d)
    (filter (λ t, t ≠ text) (BI_Device.getStrokeTexts d))
    (BI_Device.getPads d) (BI_Device.isSelected d).

(** Modelled from the spec: [UndoCommand::execute] of the child commands,
    whose classes are absent from the sources.  An add command inserts its
    element, a remove command takes its element out, and a command that
    cannot do so raises and leaves the model as it was. *)
Definition cmdExecute (c : Command) (p : Project.t)
    : UndoCommandGroup.ExecResult Project.t Command :=
  let b := Project.getBoard p in
  let l := Project.getLibrary p in
  let ci := Project.getCircuit p in
  match c with
  | CmdProjectLibraryAddDevice d =>
      outcome c p
        ((λ x, withLibrary p (ProjectLibrary.mk x (ProjectLibrary.packages l)))
           <$> added (library.deviceUuid d) d (ProjectLibrary.devices l))
  | CmdProjectLibraryAddPackage k =>
      outcome c p
        ((λ x, withLibrary p (ProjectLibrary.mk (ProjectLibrary.devices l) x))
           <$> added (library.packageUuid k) k (ProjectLibrary.packages l))
  | CmdDeviceInstanceAdd d =>
      outcome c p
        ((λ x, withBoard p (withDeviceInstances b x))
           <$> added (BI_Device.getComponentInstanceUuid d) d
                 (Board.deviceInstances b))
  | CmdDeviceInstanceRemove d =>
      outcome c p
        ((λ x, withBoard p (withDeviceInstances b x))
           <$> removed (BI_Device.getComponentInstanceUuid d) d
                 (Board.deviceInstances b))
  | CmdBoardNetSegmentAdd seg =>
      outcome c p
        ((λ x, withBoard p (withNetSegments b x))
           <$> added (BI_NetSegment.getUuid seg) seg (Board.netSegments b))
  | CmdBoardNetSegmentAddElements e =>
      let seg := CmdBoardNetSegmentAddElements.mNetSegment e in
      outcome c p
        ((λ x, withBoard p (withNetSegments b x))
           <$> replaced (BI_NetSegment.getUuid seg) seg
                 (CmdBoardNetSegmentAddElements.extended e)
                 (Board.netSegments b))
  | CmdBoardNetSegmentRemove seg =>
      outcome c p
        ((λ x, withBoard p (withNetSegments b x))
           <$> removed (BI_NetSegment.getUuid seg) seg (Board.netSegments b))
  | CmdBoardPlaneAdd x =>
      outcome c p
        ((λ t, withBoard p (withPlanes b t))
           <$> added (BI_Plane.getUuid x) x (Board.planes b))
  | CmdBoardPlaneRemove x =>
      outcome c p
        ((λ t, withBoard p (withPlanes b t))
           <$> removed (BI_Plane.getUuid x) x (Board.planes b))
  | CmdBoardPolygonAdd x =>
      outcome c p
        ((λ t, withBoard p (withPolygons b t))
           <$> added (polygonUuid (BI_Polygon.getPolygon x)) x (Board.polygons b))
  | CmdBoardPolygonRemove x =>
      outcome c p
        ((λ t, withBoard p (withPolygons b t))
           <$> removed (polygonUuid (BI_Polygon.getPolygon x)) x
                 (Board.polygons b))
  | CmdBoardStrokeTextAdd x =>
      outcome c p
        ((λ t, withBoard p (withStrokeTexts b t))
           <$> added (strokeTextUuid (BI_StrokeText.getText x)) x
                 (Board.strokeTexts b))
  | CmdBoardStrokeTextRemove x =>
      outcome c p
        ((λ t, withBoard p (withStrokeTexts b t))
           <$> removed (strokeTextUuid (BI_StrokeText.getText x)) x
                 (Board.strokeTexts b))
  | CmdFootprintStrokeTextRemove fp text _ =>
      match Board.deviceInstances b !! fp with
      | Some d =>
          if decide (text ∈ BI_Device.getStrokeTexts d)
          then UndoCommandGroup.Executed
                 (CmdFootprintStrokeTextRemove fp text (Some d))
                 (withBoard p (withDeviceInstances b
                    (<[fp:=withoutText text d]> (Board.deviceInstances b))))
          else UndoCommandGroup.Failed (RuntimeError "command refused") p
      | None => UndoCommandGroup.Failed (RuntimeError "command refused") p
      end
  | CmdBoardHoleAdd x =>
      outcome c p
        ((λ t, withBoard p (withHoles b t))
           <$> added (holeUuid (BI_Hole.getHole x)) x (Board.holes b))
  | CmdBoardHoleRemove x =>
      outcome c p
        ((λ t, withBoard p (withHoles b t))
           <$> removed (holeUuid (BI_Hole.getHole x)) x (Board.holes b))
  | CmdNetClassAdd name _ =>
      if decide (name ∈ Circuit.netClasses ci)
      then UndoCommandGroup.Failed (RuntimeError "command refused") p
      else UndoCommandGroup.Executed (CmdNetClassAdd name (Some name))
             (withCircuit p (Circuit.mk (Circuit.componentInstances ci)
                               ({[name]} ∪ Circuit.netClasses ci)
                               (Circuit.netSignals ci)))
  | CmdNetSignalAdd netclass _ =>
      if decide (netclass ∈ Circuit.netClasses ci)
      then
        let name := fresh (dom (Circuit.netSignals ci)) in
        UndoCommandGroup.Executed
          (CmdNetSignalAdd netclass (Some (mkNetSignal name netclass)))
          (withCircuit p (Circuit.mk (Circuit.componentInstances ci)
                            (Circuit.netClasses ci)
                            (<[name:=netclass]> (Circuit.netSignals ci))))
      else UndoCommandGroup.Failed (RuntimeError "command refused") p
  | CmdRemoveUnusedLibraryElements _ _ =>
      let unusedDevice := λ kv : Uuid * library.Device, kv.1 ∉ usedDevices b in
      let unusedPackage := λ kv : Uuid * library.Package, kv.1 ∉ usedPackages b in
      UndoCommandGroup.Executed
        (CmdRemoveUnusedLibraryElements
           (filter unusedDevice (ProjectLibrary.devices l))
           (filter unusedPackage (ProjectLibrary.packages l)))
        (withLibrary p
           (ProjectLibrary.mk
              (filter (λ kv, ¬ unusedDevice kv) (ProjectLibrary.devices l))
              (filter (λ kv, ¬ unusedPackage kv) (ProjectLibrary.packages l))))
  end.

(** Modelled from the spec: [UndoCommand::undo] of the child commands
    (remove mirrors add). *)
Definition cmdUndo (c : Command) (p : Project.t) : Project.t :=
  let b := Project.getBoard p in
  let l := Project.getLibrary p in
  let ci := Project.getCircuit p in
  match c with
  | CmdProjectLibraryAddDevice d =>
      withLibrary p (ProjectLibrary.mk
        (delete (library.deviceUuid d) (ProjectLibrary.devices l))
        (ProjectLibrary.packages l))
  | CmdProjectLibraryAddPackage k =>
      withLibrary p (ProjectLibrary.mk (ProjectLibrary.devices l)
        (delete (library.packageUuid k) (ProjectLibrary.packages l)))
  | CmdDeviceInstanceAdd d =>
      withBoard p (withDeviceInstances b
        (delete (BI_Device.getComponentInstanceUuid d) (Board.deviceInstances b)))
  | CmdDeviceInstanceRemove d =>
      withBoard p (withDeviceInstances b
        (<[BI_Device.getComponentInstanceUuid d:=d]> (Board.deviceInstances b)))
  | CmdBoardNetSegmentAdd seg =>
      withBoard p (withNetSegments b
        (delete (BI_NetSegment.getUuid seg) (Board.netSegments b)))
  | CmdBoardNetSegmentAddElements e =>
      let seg := CmdBoardNetSegmentAddElements.mNetSegment e in
      withBoard p (withNetSegments b
        (<[BI_NetSegment.getUuid seg:=seg]> (Board.netSegments b)))
  | CmdBoardNetSegmentRemove seg =>
      withBoard p (withNetSegments b
        (<[BI_NetSegment.getUuid seg:=seg]> (Board.netSegments b)))
  | CmdBoardPlaneAdd x =>
      withBoard p (withPlanes b (delete (BI_Plane.getUuid x) (Board.planes b)))
  | CmdBoardPlaneRemove x =>
      withBoard p (withPlanes b (<[BI_Plane.getUuid x:=x]> (Board.planes b)))
  | CmdBoardPolygonAdd x =>
      withBoard p (withPolygons b
        (delete (polygonUuid (BI_Polygon.getPolygon x)) (Board.polygons b)))
  | CmdBoardPolygonRemove x =>
      withBoard p (withPolygons b
        (<[polygonUuid (BI_Polygon.getPolygon x):=x]> (Board.polygons b)))
  | CmdBoardStrokeTextAdd x =>
      withBoard p (withStrokeTexts b
        (delete (strokeTextUuid (BI_StrokeText.getText x)) (Board.strokeTexts b)))
  | CmdBoardStrokeTextRemove x =>
      withBoard p (withStrokeTexts b
        (<[strokeTextUuid (BI_StrokeText.getText x):=x]> (Board.strokeTexts b)))
  | CmdFootprintStrokeTextRemove fp _ before =>
      match before with
      | Some d =>
          withBoard p (withDeviceInstances b (<[fp:=d]> (Board.deviceInstances b)))
      | None => p
      end
  | CmdBoardHoleAdd x =>
      withBoard p (withHoles b
        (delete (holeUuid (BI_Hole.getHole x)) (Board.holes b)))
  | CmdBoardHoleRemove x =>
      withBoard p (withHoles b
        (<[holeUuid (BI_Hole.getHole x):=x]> (Board.holes b)))
  | CmdNetClassAdd name _ =>
      withCircuit p (Circuit.mk (Circuit.componentInstances ci)
                       (Circuit.netClasses ci ∖ {[name]}) (Circuit.netSignals ci))
  | CmdNetSignalAdd _ created =>
      match created with
      | Some ns =>
          withCircuit p (Circuit.mk (Circuit.componentInstances ci)
                           (Circuit.netClasses ci)
                           (delete (netSignalName ns) (Circuit.netSignals ci)))
      | None => p
      end
  | CmdRemoveUnusedLibraryElements ds ks =>
      withLibrary p (ProjectLibrary.mk (ds ∪ ProjectLibrary.devices l)
                       (ks ∪ ProjectLibrary.packages l))
  end.

(** The part of the project a child command works on. *)
Inductive Table : Type :=
| Devices | NetSegments | Planes | Polygons | StrokeTexts | Holes
| Library | NetClasses | NetSignals.

#[global] Instance Table_eq_dec : EqDecision Table.
Proof. solve_decision. Defined.

Definition tableOf (c : Command) : Table :=
  match c with
  | CmdProjectLibraryAddDevice _ => Library
  | CmdProjectLibraryAddPackage _ => Library
  | CmdDeviceInstanceAdd _ => Devices
  | CmdDeviceInstanceRemove _ => Devices
  | CmdBoardNetSegmentAdd _ => NetSegments
  | CmdBoardNetSegmentAddElements _ => NetSegments
  | CmdBoardNetSegmentRemove _ => NetSegments
  | CmdBoardPlaneAdd _ => Planes
  | CmdBoardPlaneRemove _ => Planes
  | CmdBoardPolygonAdd _ => Polygons
  | CmdBoardPolygonRemove _ => Polygons
  | CmdBoardStrokeTextAdd _ => StrokeTexts
  | CmdBoardStrokeTextRemove _ => StrokeTexts
  | CmdFootprintStrokeTextRemove _ _ _ => Devices
  | CmdBoardHoleAdd _ => Holes
  | CmdBoardHoleRemove _ => Holes
  | CmdNetClassAdd _ _ => NetClasses
  | CmdNetSignalAdd _ _ => NetSignals
  | CmdRemoveUnusedLibraryElements _ _ => Library
  end.

(** Nothing that [p] holds is missing from [p'] or different there; of a
    net segment, that its uuid is still in use. *)
Record Grows (p p' : Project.t) : Prop := {
  grows_devices :
    Board.deviceInstances (Project.getBoard p)
      ⊆ Board.deviceInstances (Project.getBoard p');
  grows_netSegments :
    dom (Board.netSegments (Project.getBoard p))
      ⊆ dom (Board.netSegments (Project.getBoard p'));
  grows_planes :
    Board.planes (Project.getBoard p) ⊆ Board.planes (Project.getBoard p');
  grows_polygons :
    Board.polygons (Project.getBoard p) ⊆ Board.polygons (Project.getBoard p');
  grows_strokeTexts :
    Board.strokeTexts (Project.getBoard p)
      ⊆ Board.strokeTexts (Project.getBoard p');
  grows_holes :
    Board.holes (Project.getBoard p) ⊆ Board.holes (Project.getBoard p');
  grows_libraryDevices :
    ProjectLibrary.devices (Project.getLibrary p)
      ⊆ ProjectLibrary.devices (Project.getLibrary p');
  grows_libraryPackages :
    ProjectLibrary.packages (Project.getLibrary p)
      ⊆ ProjectLibrary.packages (Project.getLibrary p');
  grows_netClasses :
    Circuit.netClasses (Project.getCircuit p)
      ⊆ Circuit.netClasses (Project.getCircuit p');
  grows_netSignals :
    Circuit.netSignals (Project.getCircuit p)
      ⊆ Circuit.netSignals (Project.getCircuit p');
  grows_components :
    Circuit.componentInstances (Project.getCircuit p')
      = Circuit.componentInstances (Project.getCircuit p);
  grows_layers :
    Board.layers (Project.getBoard p') = Board.layers (Project.getBoard p);
  grows_board :
    Board.getUuid (Project.getBoard p') = Board.getUuid (Project.getBoard p)
}.

End Semantics.

(** Programs of a command group over the project. *)
Abbreviation Prog := (UndoCommandGroup.GroupProg Project.t Command).

(** ** [BoardClipboardData] (boardclipboarddata.h) *)

Module BoardClipboardData.

Module Device.
Record t : Type := mk {
  componentUuid : Uuid;
  libDeviceUuid : Uuid;
  libFootprintUuid : Uuid;
  position : Point;
  rotation : Z;
  mirrored : bool;
  strokeTexts : list StrokeText
}.
End Device.

Module NetSegment.
Record t : Type := mk {
  netName : string;
  vias : list Via;
  points : list NetPoint.t;
  traces : list Trace
}.
End NetSegment.

Module Plane.
Record t : Type := mk {
  uuid : Uuid;
  layer : string;
  netSignalName : string;
  outline : list Point;
  minWidth : Z;
  minClearance : Z;
  keepOrphans : bool;
  priority : Z;
  connectStyle : nat
}.
End Plane.

(** The payload.  [getDirectory("dev/" % uuid)] and
    [getDirectory("pkg/" % uuid)] are the two directory tables: a
    directory holds the library element copied into it, one without files
    is not in the table. *)
Record t : Type := mk {
  getBoardUuid : Uuid;
  getCursorPos : Point;
  devDirectories : gmap Uuid library.Device;
  pkgDirectories : gmap Uuid library.Package;
  getDevices : list Device.t;
  getNetSegments : list NetSegment.t;
  getPlanes : list Plane.t;
  getPolygons : list Polygon;
  getStrokeTexts : list StrokeText;
  getHoles : list Hole
}.

(** The element lists of a payload: all but the directories. *)
Definition elementsOf (data : BoardClipboardData.t) :=
  (getDevices data, getNetSegments data, getPlanes data, getPolygons data,
   getStrokeTexts data, getHoles data).

(** [BoardClipboardData(boardUuid, cursorPos)]: a payload without
    elements. *)
Definition create (boardUuid : Uuid) (cursorPos : Point) : t :=
  mk boardUuid cursorPos ∅ ∅ [] [] [] [] [] [].

End BoardClipboardData.

(** ** [BoardClipboardDataBuilder] (boardclipboarddatabuilder.cpp) *)

Module BoardSelectionQuery.
(** What the query holds after [generate] has asked it for the device
    instances of selected footprints and for the selected vias, net lines,
    planes, polygons, stroke texts and holes. *)
Record t : Type := mk {
  getDeviceInstances : list BI_Device.t;
  getVias : list BI_Via.t;
  getNetLines : list BI_NetLine.t;
  getPlanes : list BI_Plane.t;
  getPolygons : list BI_Polygon.t;
  getStrokeTexts : list BI_StrokeText.t;
  getHoles : list BI_Hole.t
}.
End BoardSelectionQuery.

Module BoardClipboardDataBuilder.

Import BoardClipboardData.

(** The clipboard copy of a device, with the list of its stroke texts. *)
Definition exportDevice (device : BI_Device.t) : Device.t :=
  let strokeTexts := BI_StrokeText.getText <$> BI_Device.getStrokeTexts device in
  Device.mk (BI_Device.getComponentInstanceUuid device)
    (library.deviceUuid (BI_Device.getLibDevice device))
    (BI_Device.getLibFootprintUuid device) (BI_Device.getPosition device)
    (BI_Device.getRotation device) (BI_Device.getIsMirrored device) strokeTexts.

(** The clipboard copy of a plane. *)
Definition exportPlane (plane : BI_Plane.t) : Plane.t :=
  Plane.mk (BI_Plane.getUuid plane) (BI_Plane.getLayerName plane)
    (netSignalName (BI_Plane.getNetSignal plane)) (BI_Plane.getOutline plane)
    (BI_Plane.getMinWidth plane) (BI_Plane.getMinClearance plane)
    (BI_Plane.getKeepOrphans plane) (BI_Plane.getPriority plane)
    (BI_Plane.getConnectStyle plane).

(** The body of the loop "add devices". *)
Definition addDevice (data : BoardClipboardData.t) (device : BI_Device.t)
    : BoardClipboardData.t :=
  let libDevice := BI_Device.getLibDevice device in
  let libPackage := BI_Device.getLibPackage device in
  let devDirs :=
    match devDirectories data !! library.deviceUuid libDevice with
    | None => <[library.deviceUuid libDevice:=libDevice]> (devDirectories data)
    | Some _ => devDirectories data
    end in
  let pkgDirs :=
    match pkgDirectories data !! library.packageUuid libPackage with
    | None => <[library.packageUuid libPackage:=libPackage]> (pkgDirectories data)
    | Some _ => pkgDirectories data
    end in
  mk (getBoardUuid data) (getCursorPos data) devDirs pkgDirs
     (getDevices data ++ [exportDevice device])
     (getNetSegments data) (getPlanes data) (getPolygons data)
     (getStrokeTexts data) (getHoles data).

Definition addPlane (data : BoardClipboardData.t) (plane : BI_Plane.t)
    : BoardClipboardData.t :=
  let newPlane := exportPlane plane in
  mk (getBoardUuid data) (getCursorPos data) (devDirectories data)
     (pkgDirectories data) (getDevices data) (getNetSegments data)
     (getPlanes data ++ [newPlane]) (getPolygons data) (getStrokeTexts data)
     (getHoles data).

Definition addPolygon (data : BoardClipboardData.t) (polygon : BI_Polygon.t)
    : BoardClipboardData.t :=
  mk (getBoardUuid data) (getCursorPos data) (devDirectories data)
     (pkgDirectories data) (getDevices data) (getNetSegments data)
     (getPlanes data) (getPolygons data ++ [BI_Polygon.getPolygon polygon])
     (getStrokeTexts data) (getHoles data).

Definition addStrokeText (data : BoardClipboardData.t) (text : BI_StrokeText.t)
    : BoardClipboardData.t :=
  mk (getBoardUuid data) (getCursorPos data) (devDirectories data)
     (pkgDirectories data) (getDevices data) (getNetSegments data)
     (getPlanes data) (getPolygons data)
     (getStrokeTexts data ++ [BI_StrokeText.getText text]) (getHoles data).

Definition addHole (data : BoardClipboardData.t) (hole : BI_Hole.t)
    : BoardClipboardData.t :=
  mk (getBoardUuid data) (getCursorPos data) (devDirectories data)
     (pkgDirectories data) (getDevices data) (getNetSegments data)
     (getPlanes data) (getPolygons data) (getStrokeTexts data)
     (getHoles data ++ [BI_Hole.getHole hole]).

(** [BoardClipboardDataBuilder::generate(cursorPos)], with the selection
    query of the board as populated by its first lines.  The loop over the
    net segments of the board is commented out in the source and has no
    counterpart here; the selected vias and net lines are not read. *)
Definition generate (mBoard : Board.t) (query : BoardSelectionQuery.t)
    (cursorPos : Point) : BoardClipboardData.t :=
  let data := BoardClipboardData.create (Board.getUuid mBoard) cursorPos in
  let data := foldl addDevice data (BoardSelectionQuery.getDeviceInstances query) in
  let data := foldl addPlane data (BoardSelectionQuery.getPlanes query) in
  let data := foldl addPolygon data (BoardSelectionQuery.getPolygons query) in
  let data := foldl addStrokeText data (BoardSelectionQuery.getStrokeTexts query) in
  let data := foldl addHole data (BoardSelectionQuery.getHoles query) in
  data.

End BoardClipboardDataBuilder.

(** ** [CmdRemoveBoardItems] (cmdremoveboarditems.cpp) *)

Module CmdRemoveBoardItems.

Import UndoCommandGroup.
Local Open Scope group_scope.

(** The command object: the sets of items to remove, each in the order a
    loop visits it. *)
Record t : Type := mk {
  mDeviceInstances : list BI_Device.t;
  mVias : list BI_Via.t;
  mNetLines : list BI_NetLine.t;
  mPlanes : list BI_Plane.t;
  mPolygons : list BI_Polygon.t;
  mStrokeTexts : list BI_StrokeText.t;
  mHoles : list BI_Hole.t
}.

(** [struct NetSegmentItems]: items of one net segment, by identity. *)
Record NetSegmentItems : Type := mkItems {
  vias : gset Uuid;
  netpoints : gset Uuid;
  netlines : gset Uuid
}.

#[global] Instance NetSegmentItems_eq_dec : EqDecision NetSegmentItems.
Proof. solve_decision. Defined.

(** [NetSegmentItemList]: a hash from net segment to its items, as the
    list of its entries. *)
Definition NetSegmentItemList : Type := list (BI_NetSegment.t * NetSegmentItems).

(** [list[segment]] as the target of an update: the entry is created
    empty when the segment has none. *)
Fixpoint update (segment : BI_NetSegment.t)
    (f : NetSegmentItems → NetSegmentItems) (l : NetSegmentItemList)
    : NetSegmentItemList :=
  match l with
  | [] => [(segment, f (mkItems ∅ ∅ ∅))]
  | (key, items) :: l' =>
      if decide (key = segment) then (key, f items) :: l'
      else (key, items) :: update segment f l'
  end.

Definition insertVia (v : BI_Via.t) (items : NetSegmentItems) : NetSegmentItems :=
  mkItems ({[BI_Via.getUuid v]} ∪ vias items) (netpoints items) (netlines items).

Definition insertNetLine (l : BI_NetLine.t) (items : NetSegmentItems)
    : NetSegmentItems :=
  mkItems (vias items) (netpoints items) ({[BI_NetLine.getUuid l]} ∪ netlines items).

(** [mNetLines] after "also remove all netlines from devices". *)
Definition netLinesToRemove (self : t) : list BI_NetLine.t :=
  remove_dups
    (mNetLines self ++
     (mDeviceInstances self ≫= λ device,
        BI_Device.getPads device ≫= BI_FootprintPad.getNetLines)).

(** "determine all affected netsegments and their items to remove". *)
Definition netSegmentItemsToRemove (self : t) : NetSegmentItemList :=
  let afterVias :=
    foldl (λ l v, update (BI_Via.getNetSegment v) (insertVia v) l) [] (mVias self) in
  foldl (λ l n, update (BI_NetLine.getNetSegment n) (insertNetLine n) l)
        afterVias (netLinesToRemove self).

(** The vias, and the net lines, of [segment] that are to be removed. *)
Definition selectedVias (self : t) (segment : BI_NetSegment.t) : gset Uuid :=
  list_to_set (BI_Via.getUuid
                 <$> filter (λ v, BI_Via.getNetSegment v = segment) (mVias self)).

Definition selectedNetLines (self : t) (segment : BI_NetSegment.t) : gset Uuid :=
  list_to_set (BI_NetLine.getUuid
                 <$> filter (λ n, BI_NetLine.getNetSegment n = segment)
                       (netLinesToRemove self)).

(** [Toolbox::toSet(segment.getVias())] and
    [Toolbox::toSet(segment.getNetLines())]. *)
Definition allVias (segment : BI_NetSegment.t) : gset Uuid :=
  list_to_set (viaUuid <$> BI_NetSegment.getVias segment).

Definition allNetLines (segment : BI_NetSegment.t) : gset Uuid :=
  list_to_set (traceUuid <$> BI_NetSegment.getNetLines segment).

(** What the assertions of [performExecute] state of the selection: each
    item to remove is an item of the net segment it names. *)
Definition addedToBoard (self : t) : Prop :=
  (∀ v, v ∈ mVias self →
        BI_Via.getVia v ∈ BI_NetSegment.getVias (BI_Via.getNetSegment v)) ∧
  (∀ n, n ∈ netLinesToRemove self →
        BI_NetLine.getTrace n
          ∈ BI_NetSegment.getNetLines (BI_NetLine.getNetSegment n)).

(** Every via and every net line of [segment] is to be removed. *)
Definition everyItemSelected (self : t) (segment : BI_NetSegment.t) : Prop :=
  (∀ v, v ∈ BI_NetSegment.getVias segment → BI_Via.mk v segment ∈ mVias self) ∧
  (∀ l, l ∈ BI_NetSegment.getNetLines segment →
        BI_NetLine.mk l segment ∈ netLinesToRemove self).

(** Some via or net line of [segment] is to be removed. *)
Definition affected (self : t) (segment : BI_NetSegment.t) : Prop :=
  (∃ v, v ∈ mVias self ∧ BI_Via.getNetSegment v = segment) ∨
  (∃ n, n ∈ netLinesToRemove self ∧ BI_NetLine.getNetSegment n = segment).

(** The first entry of a list for [segment]. *)
Fixpoint itemsAt (segment : BI_NetSegment.t) (l : NetSegmentItemList)
    : option NetSegmentItems :=
  match l with
  | [] => None
  | (key, items) :: l' =>
      if decide (key = segment) then Some items else itemsAt segment l'
  end.

(** [CmdRemoveBoardItems::convertAnchor]. *)
Definition convertAnchor (anchor : TraceAnchor)
    (netPointMap viaMap : gmap Uuid BI_NetLineAnchor) (mBoard : Board.t)
    : option BI_NetLineAnchor :=
  match tryGetNetPoint anchor with
  | Some uuid => netPointMap !! uuid
  | None =>
      match tryGetVia anchor with
      | Some uuid => viaMap !! uuid
      | None =>
          match tryGetPad anchor with
          | Some (dev, p) =>
              match Board.getDeviceInstanceByComponentUuid dev mBoard with
              | Some device =>
                  (λ x, mkNetLineAnchor (pad dev p) (BI_FootprintPad.getPosition x))
                    <$> BI_Device.getPad p device
              | None => None
              end
          | None => None
          end
      end
  end.

(** [Segment::netpoints] and [Segment::vias] of a board splitter segment. *)
Definition segmentNetPoints (s : Splitter.Segment) : list NetPoint.t :=
  omap (λ a, match a with JunctionAnchor np => Some np | _ => None end)
       (Splitter.anchors s).

Definition segmentVias (s : Splitter.Segment) : list Via :=
  omap (λ a, match a with ViaAnchor v => Some v | _ => None end)
       (Splitter.anchors s).

(** The splitter as [splitUpNetSegment] fills it: the net points, vias and
    net lines of the segment that are to stay. *)
Definition splitterFor (netsegment : BI_NetSegment.t)
    (itemsToRemove : NetSegmentItems) : Splitter.t :=
  let s1 :=
    foldl (λ s np, Splitter.addNetPoint
                     (NetPoint.create (NetPoint.getUuid np)
                        (NetPoint.getPosition np)) s)
      Splitter.empty
      (filter (λ np, NetPoint.getUuid np ∉ netpoints itemsToRemove)
              (BI_NetSegment.getNetPoints netsegment)) in
  let s2 :=
    foldl (λ s v, Splitter.addVia v s) s1
      (filter (λ v, viaUuid v ∉ vias itemsToRemove)
              (BI_NetSegment.getVias netsegment)) in
  foldl (λ s l, Splitter.addTrace l s) s2
    (filter (λ l, traceUuid l ∉ netlines itemsToRemove)
            (BI_NetSegment.getNetLines netsegment)).

(** "create new sub-netsegments": the body of the loop. *)
Definition createSubNetSegment (netsegment : BI_NetSegment.t)
    (subsegment : Splitter.Segment) : Prog unit :=
  let! uuid := createRandomUuid in
  let! cmdAddNetSegment :=
    execNewChildCmd
      (CmdBoardNetSegmentAdd
         (BI_NetSegment.mk uuid (BI_NetSegment.getNetSignal netsegment)
            [] [] [] false)) in
  let! newNetSegment := deref (getNetSegment cmdAddNetSegment) in
  let cmdAddElements := CmdBoardNetSegmentAddElements.create newNetSegment in
  let! withNetPoints :=
    foreachWith (segmentNetPoints subsegment) (cmdAddElements, ∅)
      (λ acc np,
         let! uuid := createRandomUuid in
         let added := CmdBoardNetSegmentAddElements.addNetPoint
                        (NetPoint.getPosition np) uuid acc.1 in
         Ret (added.1, <[NetPoint.getUuid np:=added.2]> acc.2)) in
  let netPointMap : gmap Uuid BI_NetLineAnchor := withNetPoints.2 in
  let! withVias :=
    foreachWith (segmentVias subsegment) (withNetPoints.1, ∅)
      (λ acc v,
         let added := CmdBoardNetSegmentAddElements.addVia v acc.1 in
         Ret (added.1, <[viaUuid v:=added.2]> acc.2)) in
  let viaMap : gmap Uuid BI_NetLineAnchor := withVias.2 in
  let! withTraces :=
    foreachWith (Splitter.traces subsegment) withVias.1
      (λ cmd trace,
         let! project := getModel in
         let mBoard := Project.getBoard project in
         let startPoint :=
           convertAnchor (getStartPoint trace) netPointMap viaMap mBoard in
         let endPoint :=
           convertAnchor (getEndPoint trace) netPointMap viaMap mBoard in
         let layer := Board.getLayer (getLayer trace) mBoard in
         match startPoint, endPoint, layer with
         | Some s, Some e, Some l =>
             let! uuid := createRandomUuid in
             Ret (CmdBoardNetSegmentAddElements.addNetLine
                    s e l (getWidth trace) uuid cmd).1
         | _, _, _ => Throw (LogicError "cmdremoveboarditems.cpp" 233)
         end) in
  do! execNewChildCmd (CmdBoardNetSegmentAddElements withTraces) in
  Ret tt.

(** [CmdRemoveBoardItems::splitUpNetSegment]. *)
Definition splitUpNetSegment (netsegment : BI_NetSegment.t)
    (itemsToRemove : NetSegmentItems) : Prog unit :=
  let! subsegments := callSplitter (splitterFor netsegment itemsToRemove) in
  do! execNewChildCmd (CmdBoardNetSegmentRemove netsegment) in
  foreach subsegments (createSubNetSegment netsegment).

Definition removeAllVias (entry : BI_NetSegment.t * NetSegmentItems) : bool :=
  bool_decide (vias entry.2 = allVias entry.1).

Definition removeAllNetLines (entry : BI_NetSegment.t * NetSegmentItems) : bool :=
  bool_decide (netlines entry.2 = allNetLines entry.1).

(** "remove vias/netlines/netpoints/netsegments": the body of the loop. *)
Definition removeNetSegmentItems (entry : BI_NetSegment.t * NetSegmentItems)
    : Prog unit :=
  if removeAllVias entry && removeAllNetLines entry
  then do! execNewChildCmd (CmdBoardNetSegmentRemove entry.1) in Ret tt
  else splitUpNetSegment entry.1 entry.2.

Definition removeStrokeText (self : t) (text : BI_StrokeText.t) : Prog unit :=
  match BI_StrokeText.getFootprint text with
  | Some footprint =>
      if decide (footprint ∈
                 BI_Device.getComponentInstanceUuid <$> mDeviceInstances self)
      then Ret tt
      else do! execNewChildCmd (CmdFootprintStrokeTextRemove footprint text None)
           in Ret tt
  | None => do! execNewChildCmd (CmdBoardStrokeTextRemove text) in Ret tt
  end.

(** [CmdRemoveBoardItems::performExecute] between the creation of the
    scope guard and its dismissal. *)
Definition body (self : t) : Prog unit :=
  do! foreach (netSegmentItemsToRemove self) removeNetSegmentItems in
  do! foreach (mDeviceInstances self)
        (λ device, do! execNewChildCmd (CmdDeviceInstanceRemove device) in Ret tt) in
  do! foreach (mPlanes self)
        (λ plane, do! execNewChildCmd (CmdBoardPlaneRemove plane) in Ret tt) in
  do! foreach (mPolygons self)
        (λ polygon, do! execNewChildCmd (CmdBoardPolygonRemove polygon) in Ret tt) in
  do! foreach (mStrokeTexts self) (removeStrokeText self) in
  do! foreach (mHoles self)
        (λ hole, do! execNewChildCmd (CmdBoardHoleRemove hole) in Ret tt) in
  let! count := getChildCount in
  if bool_decide (0 < count)
  then do! execNewChildCmd (CmdRemoveUnusedLibraryElements ∅ ∅) in Ret tt
  else Ret tt.

(** Whether [convertAnchor] finds what an end point of a trace of
    [subsegment] refers to: a net point or a via of the sub-segment, or a
    pad of a device of the board. *)
Definition resolvable (subsegment : Splitter.Segment) (mBoard : Board.t)
    (anchor : TraceAnchor) : Prop :=
  match anchor with
  | netPoint uuid => uuid ∈ NetPoint.getUuid <$> segmentNetPoints subsegment
  | via uuid => uuid ∈ viaUuid <$> segmentVias subsegment
  | pad device padUuid =>
      is_Some (Board.getDeviceInstanceByComponentUuid device mBoard
                 ≫= BI_Device.getPad padUuid)
  end.

#[global] Instance resolvable_dec subsegment mBoard anchor :
  Decision (resolvable subsegment mBoard anchor).
Proof. destruct anchor; simpl; apply _. Defined.

(** A trace both end points of which are found, on a layer of the board. *)
Definition traceResolvable (subsegment : Splitter.Segment) (mBoard : Board.t)
    (trace : Trace) : Prop :=
  resolvable subsegment mBoard (getStartPoint trace) ∧
  resolvable subsegment mBoard (getEndPoint trace) ∧
  getLayer trace ∈ Board.layers mBoard.

#[global] Instance traceResolvable_dec subsegment mBoard trace :
  Decision (traceResolvable subsegment mBoard trace).
Proof. unfold traceResolvable. apply _. Defined.

(** What becomes of the end point of a trace in the net line created for
    it: a via or a pad stays, a net point is one of the new net points
    [points]. *)
Definition reconnected (points : list NetPoint.t) (old new : TraceAnchor) : Prop :=
  match old with
  | netPoint _ =>
      ∃ uuid, new = netPoint uuid ∧ uuid ∈ NetPoint.getUuid <$> points
  | _ => new = old
  end.

(** The net line created for a trace: same layer and width, end points
    reconnected. *)
Definition recreated (points : list NetPoint.t) (trace line : Trace) : Prop :=
  getLayer line = getLayer trace ∧ getWidth line = getWidth trace ∧
  reconnected points (getStartPoint trace) (getStartPoint line) ∧
  reconnected points (getEndPoint trace) (getEndPoint line).

(** What a sub-segment is re-created by. *)
Definition recreatedBy (netsegment : BI_NetSegment.t)
    (subsegment : Splitter.Segment) (cmds : list Command) : Prop :=
  ∃ uuid elements,
    cmds = [CmdBoardNetSegmentAdd
              (BI_NetSegment.mk uuid (BI_NetSegment.getNetSignal netsegment)
                 [] [] [] false);
            CmdBoardNetSegmentAddElements elements] ∧
    CmdBoardNetSegmentAddElements.mVias elements = segmentVias subsegment ∧
    length (CmdBoardNetSegmentAddElements.mNetPoints elements)
      = length (segmentNetPoints subsegment) ∧
    length (CmdBoardNetSegmentAddElements.mNetLines elements)
      = length (Splitter.traces subsegment).

Section Run.

Variable cmdExecute : Command → Project.t → ExecResult Project.t Command.
Variable cmdUndo : Command → Project.t → Project.t.
Variable createRandom : nat → Uuid.

(** [bool CmdRemoveBoardItems::performExecute()]. *)
Definition performExecute (self : t) (s : State Project.t Command)
    : Result Project.t Command bool :=
  UndoCommandGroup.performExecute cmdExecute cmdUndo createRandom (body self) s.

End Run.

End CmdRemoveBoardItems.

(** ** [CmdPasteBoardItems] (cmdpasteboarditems.cpp) *)

Module CmdPasteBoardItems.

Import UndoCommandGroup.
Local Open Scope group_scope.

Record t : Type := mk {
  mData : BoardClipboardData.t;
  mPosOffset : Point
}.

(** [CmdPasteBoardItems::getOrCreateNetSignal]. *)
Definition getOrCreateNetSignal (name : string) : Prog (option NetSignal) :=
  let! project := getModel in
  match Circuit.getNetSignalByName name (Project.getCircuit project) with
  | Some netSignal => Ret (Some netSignal)
  | None =>
      let! netclass :=
        match Circuit.getNetClassByName "default" (Project.getCircuit project) with
        | Some netclass => Ret (Some netclass)
        | None =>
            let! cmd := execNewChildCmd (CmdNetClassAdd "default" None) in
            Ret (getNetClass cmd)
        end in
      let! netclass := deref netclass in
      let! cmdAddNetSignal := execNewChildCmd (CmdNetSignalAdd netclass None) in
      Ret (getNetSignal cmdAddNetSignal)
  end.

(** [library::Device(directory)] and [library::Package(directory)] on a
    directory of the clipboard; the constructors raise on a directory that
    holds no element. *)
Definition loadDevice (data : BoardClipboardData.t) (uuid : Uuid)
    : Prog library.Device :=
  match BoardClipboardData.devDirectories data !! uuid with
  | Some d => Ret d
  | None => Throw (RuntimeError "file not found")
  end.

Definition loadPackage (data : BoardClipboardData.t) (uuid : Uuid)
    : Prog library.Package :=
  match BoardClipboardData.pkgDirectories data !! uuid with
  | Some p => Ret p
  | None => Throw (RuntimeError "file not found")
  end.

(** "Paste devices which do not yet exist on the board": the body of the
    loop, carrying [pastedDevices]. *)
Definition pasteDevice (self : t) (pastedDevices : gset Uuid)
    (dev : BoardClipboardData.Device.t) : Prog (gset Uuid) :=
  let componentUuid := BoardClipboardData.Device.componentUuid dev in
  let! project := getModel in
  match Circuit.getComponentInstanceByUuid componentUuid
          (Project.getCircuit project) with
  | None => Ret pastedDevices
  | Some cmpInst =>
      match Board.getDeviceInstanceByComponentUuid componentUuid
              (Project.getBoard project) with
      | Some _ => Ret pastedDevices
      | None =>
          let! libDev :=
            match ProjectLibrary.getDevice
                    (BoardClipboardData.Device.libDeviceUuid dev)
                    (Project.getLibrary project) with
            | Some libDev => Ret libDev
            | None =>
                let! newLibDev :=
                  loadDevice (mData self)
                    (BoardClipboardData.Device.libDeviceUuid dev) in
                do! execNewChildCmd (CmdProjectLibraryAddDevice newLibDev) in
                Ret newLibDev
            end in
          let pgkUuid := library.getPackageUuid libDev in
          let! project := getModel in
          let! libPgk :=
            match ProjectLibrary.getPackage pgkUuid (Project.getLibrary project) with
            | Some libPgk => Ret libPgk
            | None =>
                let! newLibPgk := loadPackage (mData self) pgkUuid in
                do! execNewChildCmd (CmdProjectLibraryAddPackage newLibPgk) in
                Ret newLibPgk
            end in
          let device :=
            BI_Device.create cmpInst libDev libPgk
              (BoardClipboardData.Device.libFootprintUuid dev)
              (Point_add (BoardClipboardData.Device.position dev) (mPosOffset self))
              (BoardClipboardData.Device.rotation dev)
              (BoardClipboardData.Device.mirrored dev) in
          let! texts :=
            foreachWith (BoardClipboardData.Device.strokeTexts dev) []
              (λ items text,
                 let! uuid := createRandomUuid in
                 let copy :=
                   mkStrokeText uuid
                     (Point_add (strokeTextPosition text) (mPosOffset self))
                     (strokeTextValue text) in
                 Ret (items ++ [BI_StrokeText.mk copy (Some componentUuid) true])) in
          let device :=
            BI_Device.setSelected true (BI_Device.setStrokeTexts texts device) in
          do! execNewChildCmd (CmdDeviceInstanceAdd device) in
          Ret ({[componentUuid]} ∪ pastedDevices)
      end
  end.

(** Lines 286 to 290: the net line of a trace whose end points were
    resolved to [startPoint] and [endPoint]. *)
Definition pasteTrace (startPoint endPoint : option BI_NetLineAnchor)
    (cmdAddElements : CmdBoardNetSegmentAddElements.t) (trace : Trace)
    : Prog CmdBoardNetSegmentAddElements.t :=
  let! project := getModel in
  let layer := Board.getLayer (getLayer trace) (Project.getBoard project) in
  match startPoint, endPoint, layer with
  | Some s, Some e, Some l =>
      let! uuid := createRandomUuid in
      Ret (CmdBoardNetSegmentAddElements.addNetLine
             s e l (getWidth trace) uuid cmdAddElements).1
  | _, _, _ => Throw (LogicError "cmdpasteboarditems.cpp" 287)
  end.

(** "Paste net segments": the body of the loop.  Both end points of a
    trace start out null, and the switch statements that would resolve
    them are commented out in the source. *)
Definition pasteNetSegment (self : t) (seg : BoardClipboardData.NetSegment.t)
    : Prog unit :=
  let! netSignal := getOrCreateNetSignal (BoardClipboardData.NetSegment.netName seg) in
  let! netSignal := deref netSignal in
  let! uuid := createRandomUuid in
  let copy := BI_NetSegment.mk uuid netSignal [] [] [] true in
  do! execNewChildCmd (CmdBoardNetSegmentAdd copy) in
  let cmdAddElements := CmdBoardNetSegmentAddElements.create copy in
  let! withVias :=
    foreachWith (BoardClipboardData.NetSegment.vias seg) (cmdAddElements, ∅)
      (λ acc v,
         let! uuid := createRandomUuid in
         let added :=
           CmdBoardNetSegmentAddElements.addVia
             (mkVia uuid (Point_add (viaPosition v) (mPosOffset self))
                (viaShape v) (viaSize v) (viaDrillDiameter v)) acc.1 in
         Ret (added.1, <[viaUuid v:=added.2]> acc.2)) in
  let viaMap : gmap Uuid BI_NetLineAnchor := withVias.2 in
  let! withNetPoints :=
    foreachWith (BoardClipboardData.NetSegment.points seg) (withVias.1, ∅)
      (λ acc np,
         let! uuid := createRandomUuid in
         let added :=
           CmdBoardNetSegmentAddElements.addNetPoint
             (Point_add (NetPoint.getPosition np) (mPosOffset self)) uuid acc.1 in
         Ret (added.1, <[NetPoint.getUuid np:=added.2]> acc.2)) in
  let netPointMap : gmap Uuid BI_NetLineAnchor := withNetPoints.2 in
  let! withTraces :=
    foreachWith (BoardClipboardData.NetSegment.traces seg) withNetPoints.1
      (λ cmd trace,
         let startPoint : option BI_NetLineAnchor := None in
         let endPoint : option BI_NetLineAnchor := None in
         pasteTrace startPoint endPoint cmd trace) in
  do! execNewChildCmd (CmdBoardNetSegmentAddElements withTraces) in
  Ret tt.

Definition pastePlane (self : t) (plane : BoardClipboardData.Plane.t) : Prog unit :=
  let! netSignal :=
    getOrCreateNetSignal (BoardClipboardData.Plane.netSignalName plane) in
  let! netSignal := deref netSignal in
  let! uuid := createRandomUuid in
  let copy :=
    BI_Plane.mk uuid (BoardClipboardData.Plane.layer plane) netSignal
      (translated (mPosOffset self) (BoardClipboardData.Plane.outline plane))
      (BoardClipboardData.Plane.minWidth plane)
      (BoardClipboardData.Plane.minClearance plane)
      (BoardClipboardData.Plane.keepOrphans plane)
      (BoardClipboardData.Plane.priority plane)
      (BoardClipboardData.Plane.connectStyle plane) true in
  do! execNewChildCmd (CmdBoardPlaneAdd copy) in
  Ret tt.

Definition pastePolygon (self : t) (polygon : Polygon) : Prog unit :=
  let! uuid := createRandomUuid in
  let copy := mkPolygon uuid (translated (mPosOffset self) (polygonPath polygon)) in
  do! execNewChildCmd (CmdBoardPolygonAdd (BI_Polygon.mk copy true)) in
  Ret tt.

Definition pasteStrokeText (self : t) (text : StrokeText) : Prog unit :=
  let! uuid := createRandomUuid in
  let copy :=
    mkStrokeText uuid (Point_add (strokeTextPosition text) (mPosOffset self))
      (strokeTextValue text) in
  do! execNewChildCmd (CmdBoardStrokeTextAdd (BI_StrokeText.mk copy None true)) in
  Ret tt.

Definition pasteHole (self : t) (hole : Hole) : Prog unit :=
  let! uuid := createRandomUuid in
  let copy :=
    mkHole uuid (Point_add (holePosition hole) (mPosOffset self))
      (holeDiameter hole) in
  do! execNewChildCmd (CmdBoardHoleAdd (BI_Hole.mk copy true)) in
  Ret tt.

(** [CmdPasteBoardItems::performExecute] between the creation of the scope
    guard and its dismissal. *)
Definition body (self : t) : Prog unit :=
  let! pastedDevices :=
    foreachWith (BoardClipboardData.getDevices (mData self)) ∅ (pasteDevice self) in
  do! foreach (BoardClipboardData.getNetSegments (mData self))
        (pasteNetSegment self) in
  do! foreach (BoardClipboardData.getPlanes (mData self)) (pastePlane self) in
  do! foreach (BoardClipboardData.getPolygons (mData self)) (pastePolygon self) in
  do! foreach (BoardClipboardData.getStrokeTexts (mData self))
        (pasteStrokeText self) in
  foreach (BoardClipboardData.getHoles (mData self)) (pasteHole self).

(** A device of the clipboard is passed over when its component is not in
    the circuit or its component has a device on the board. *)
Definition passedOver (m : Project.t) (dev : BoardClipboardData.Device.t) : Prop :=
  Circuit.getComponentInstanceByUuid (BoardClipboardData.Device.componentUuid dev)
    (Project.getCircuit m) = None ∨
  is_Some (Board.getDeviceInstanceByComponentUuid
             (BoardClipboardData.Device.componentUuid dev) (Project.getBoard m)).

Section Run.

Variable cmdExecute : Command → Project.t → ExecResult Project.t Command.
Variable cmdUndo : Command → Project.t → Project.t.
Variable createRandom : nat → Uuid.

(** [bool CmdPasteBoardItems::performExecute()]. *)
Definition performExecute (self : t) (s : State Project.t Command)
    : Result Project.t Command bool :=
  UndoCommandGroup.performExecute cmdExecute cmdUndo createRandom (body self) s.

End Run.

End CmdPasteBoardItems.

(** ** Worked examples *)

Module Examples.
Import UndoCommandGroup.

Definition exampleRandom (n : nat) : Uuid := 1000 + n.

Definition exampleSignal : NetSignal := mkNetSignal "GND" "default".
Definition exampleVia1 : Via := mkVia 1 (mkPoint 0 0) 0 800000 300000.
Definition exampleVia2 : Via := mkVia 2 (mkPoint 10 0) 0 800000 300000.
Definition exampleNetPoint : NetPoint.t := NetPoint.create 3 (mkPoint 5 0).
Definition exampleLine1 : Trace :=
  mkTrace 10 "top_cu" 200000 (via 1) (netPoint 3) (mkPoint 0 0) (mkPoint 5 0).
Definition exampleLine2 : Trace :=
  mkTrace 11 "top_cu" 200000 (netPoint 3) (via 2) (mkPoint 5 0) (mkPoint 10 0).

Definition exampleSegment : BI_NetSegment.t :=
  BI_NetSegment.mk 100 exampleSignal [exampleVia1; exampleVia2] [exampleNetPoint]
    [exampleLine1; exampleLine2] false.

Definition exampleProject : Project.t :=
  Project.mk (Circuit.mk ∅ ∅ {["GND" := "default"]})
    (ProjectLibrary.mk ∅ ∅)
    (Board.mk 7 ∅ {[100 := exampleSegment]} ∅ ∅ ∅ ∅ ["top_cu"]).

(** Every via and net line of the example segment selected. *)
Definition exampleRemoveAll : CmdRemoveBoardItems.t :=
  CmdRemoveBoardItems.mk []
    [BI_Via.mk exampleVia1 exampleSegment; BI_Via.mk exampleVia2 exampleSegment]
    [BI_NetLine.mk exampleLine1 exampleSegment;
     BI_NetLine.mk exampleLine2 exampleSegment] [] [] [] [].

(** Only the first via of the example segment selected. *)
Definition exampleRemoveVia : CmdRemoveBoardItems.t :=
  CmdRemoveBoardItems.mk [] [BI_Via.mk exampleVia1 exampleSegment] [] [] [] [] [].

(** A device with one pad, on which the first net line of the example
    segment ends, and the removal of that device. *)
Definition examplePad : BI_FootprintPad.t :=
  BI_FootprintPad.mk 21 (mkPoint 0 0) [BI_NetLine.mk exampleLine1 exampleSegment].

Definition exampleDevice : BI_Device.t :=
  BI_Device.mk 20 (library.mkDevice 30 31 ["device.lp"])
    (library.mkPackage 31 ["package.lp"] [(21, mkPoint 0 0)]) 32 (mkPoint 0 0) 0
    false [] [examplePad] false.

Definition exampleRemoveDevice : CmdRemoveBoardItems.t :=
  CmdRemoveBoardItems.mk [exampleDevice] [] [] [] [] [] [].

(** What is left of the example segment without its first via and first
    net line, and the same with the first net line kept, which then ends in
    a via that is not there. *)
Definition exampleSubsegment : Splitter.Segment :=
  Splitter.mkSegment [JunctionAnchor exampleNetPoint; ViaAnchor exampleVia2]
    [exampleLine2].

Definition exampleSubsegmentDangling : Splitter.Segment :=
  Splitter.mkSegment [JunctionAnchor exampleNetPoint; ViaAnchor exampleVia2]
    [exampleLine1; exampleLine2].

(** A clipboard with a device whose component the circuit does not have,
    and one with a polygon and a hole only. *)
Definition exampleClipboardDevice : BoardClipboardData.Device.t :=
  BoardClipboardData.Device.mk 20 30 32 (mkPoint 0 0) 0 false
    [mkStrokeText 40 (mkPoint 1 1) "NAME"].

Definition examplePasteMissing : CmdPasteBoardItems.t :=
  CmdPasteBoardItems.mk
    (BoardClipboardData.mk 7 (mkPoint 0 0) ∅ ∅ [exampleClipboardDevice] [] []
       [] [] [])
    (mkPoint 100 100).

Definition examplePasteShapes : CmdPasteBoardItems.t :=
  CmdPasteBoardItems.mk
    (BoardClipboardData.mk 7 (mkPoint 0 0) ∅ ∅ [] [] []
       [mkPolygon 5 [mkPoint 0 0]] [] [mkHole 6 (mkPoint 1 1) 100])
    (mkPoint 100 100).

(** A project with the component and the library elements of the example
    device, the device not yet on the board. *)
Definition exampleProjectWithComponent : Project.t :=
  Project.mk (Circuit.mk {[20]} ∅ {["GND" := "default"]})
    (ProjectLibrary.mk {[30 := BI_Device.getLibDevice exampleDevice]}
                       {[31 := BI_Device.getLibPackage exampleDevice]})
    (Board.mk 7 ∅ {[100 := exampleSegment]} ∅ ∅ ∅ ∅ ["top_cu"]).

(** A selection that holds the example device only. *)
Definition exampleQuery : BoardSelectionQuery.t :=
  BoardSelectionQuery.mk [exampleDevice] [] [] [] [] [] [].

(** A project with a polygon and a hole on the board, and their removal. *)
Definition examplePolygon : BI_Polygon.t :=
  BI_Polygon.mk (mkPolygon 5 [mkPoint 0 0; mkPoint 1 1]) false.

Definition exampleHole : BI_Hole.t := BI_Hole.mk (mkHole 6 (mkPoint 1 1) 100) false.

Definition exampleProjectShapes : Project.t :=
  Project.mk (Circuit.mk ∅ ∅ ∅) (ProjectLibrary.mk ∅ ∅)
    (Board.mk 7 ∅ ∅ ∅ {[5 := examplePolygon]} ∅ {[6 := exampleHole]} ["top_cu"]).

Definition exampleRemoveShapes : CmdRemoveBoardItems.t :=
  CmdRemoveBoardItems.mk [] [] [] [] [examplePolygon] [] [exampleHole].

Definition exampleQueryShapes : BoardSelectionQuery.t :=
  BoardSelectionQuery.mk [] [] [] [] [examplePolygon] [] [exampleHole].

(** A project with the component of the example device and an empty
    library, and a clipboard that carries the directory of the library
    device. *)
Definition exampleProjectNoLibrary : Project.t :=
  Project.mk (Circuit.mk {[20]} ∅ {["GND" := "default"]})
    (ProjectLibrary.mk ∅ ∅)
    (Board.mk 7 ∅ ∅ ∅ ∅ ∅ ∅ ["top_cu"]).

Definition examplePasteWithDirectory : CmdPasteBoardItems.t :=
  CmdPasteBoardItems.mk
    (BoardClipboardData.mk 7 (mkPoint 0 0)
       {[30 := BI_Device.getLibDevice exampleDevice]} ∅
       [exampleClipboardDevice] [] [] [] [] [])
    (mkPoint 100 100).

(** A copied plane of the net GND, and a copied net segment of that net
    with a via and a net point but no trace. *)
Definition exampleClipboardPlane : BoardClipboardData.Plane.t :=
  BoardClipboardData.Plane.mk 50 "top_cu" "GND" [mkPoint 0 0; mkPoint 1 0]
    200000 300000 false 0 0.

Definition exampleClipboardPoints : BoardClipboardData.NetSegment.t :=
  BoardClipboardData.NetSegment.mk "GND" [exampleVia1] [exampleNetPoint] [].

(** A clipboard with a net segment that has a trace, and one without net
    segments. *)
Definition exampleClipboardSegment : BoardClipboardData.NetSegment.t :=
  BoardClipboardData.NetSegment.mk "VCC" [exampleVia1] [exampleNetPoint]
    [exampleLine1].

Definition examplePaste : CmdPasteBoardItems.t :=
  CmdPasteBoardItems.mk
    (BoardClipboardData.mk 7 (mkPoint 0 0) ∅ ∅ [] [exampleClipboardSegment] []
       [mkPolygon 5 [mkPoint 0 0]] [] [mkHole 6 (mkPoint 1 1) 100])
    (mkPoint 100 100).

(** Working sets for the splitter. *)
Definition exampleAnchors : list Anchor :=
  [junctionAt 1 (mkPoint 0 0); junctionAt 2 (mkPoint 10 0);
   junctionAt 4 (mkPoint 30 0)].

Definition exampleTraces : list Trace :=
  [mkTrace 10 "top_cu" 200000 (netPoint 1) (netPoint 2)
     (mkPoint 0 0) (mkPoint 10 0)].


Definition exampleVia : Anchor :=
  ViaAnchor (mkVia 4 (mkPoint 30 0) 0 800000 300000).

Definition exampleAnchorsVia : list Anchor :=
  [junctionAt 1 (mkPoint 0 0); junctionAt 2 (mkPoint 10 0);
   exampleVia].


Definition exampleDangling : Trace :=
  mkTrace 11 "top_cu" 200000 (netPoint 2) (via 3) (mkPoint 10 0) (mkPoint 20 0).


End Examples.


(** * Properties *)

Module SplitterFacts.
Import Splitter Examples.

(** *** Traversal *)

Local Abbreviation fc := findConnectedLinesAndPoints.

Lemma touches_otherEnd r e : touches r e → touches (otherEnd r e) e.
Proof.
  unfold touches, otherEnd. intros [H|H]; case_decide; auto.
Qed.

Lemma elem_of_app_absorb {A} (x r : A) (v w : list A) :
  r ∈ v → x ∈ v ++ r :: w → x ∈ v ++ w.
Proof.
  rewrite !elem_of_app, elem_of_cons. intros Hr [?|[->|?]]; auto.
Qed.

Lemma elem_of_app_shift {A} (x r : A) (v w n : list A) :
  x ∈ v ++ r :: w → x ∈ (r :: v) ++ n ++ w.
Proof.
  rewrite !elem_of_app, !elem_of_cons. intros [?|[->|?]]; auto.
Qed.

(** The edges are only moved: taken and available together stay the same. *)
Lemma fc_perm fuel : ∀ work visited taken available V T R,
  fc fuel work visited taken available = (V, T, R) →
  T ++ R ≡ₚ taken ++ available.
Proof.
  induction fuel as [|fuel IH]; intros work visited taken available V T R H;
    simpl in H.
  - by simplify_eq.
  - destruct work as [|r work]; [by simplify_eq|].
    case_decide.
    + eauto.
    + apply IH in H. rewrite H, <- (assoc (++)).
      by rewrite filter_app_complement.
Qed.

(** Marked anchors stay marked. *)
Lemma fc_visited_mono fuel : ∀ work visited taken available V T R,
  fc fuel work visited taken available = (V, T, R) → visited ⊆ V.
Proof.
  induction fuel as [|fuel IH]; intros work visited taken available V T R H;
    simpl in H.
  - by simplify_eq.
  - destruct work as [|r work]; [by simplify_eq|].
    case_decide.
    + eauto.
    + apply IH in H. set_solver.
Qed.

(** No edge left available ends in a marked anchor. *)
Lemma fc_untouched fuel : ∀ work visited taken available V T R,
  fc fuel work visited taken available = (V, T, R) →
  (∀ e r, e ∈ available → r ∈ visited → ¬ touches r e) →
  ∀ e r, e ∈ R → r ∈ V → ¬ touches r e.
Proof.
  induction fuel as [|fuel IH]; intros work visited taken available V T R H Hinv;
    simpl in H.
  - by simplify_eq.
  - destruct work as [|r0 work]; [by simplify_eq|].
    case_decide.
    + eauto.
    + eapply IH; [exact H|].
      intros e r [Hne He]%list_elem_of_filter [->|Hr]%elem_of_cons; eauto.
Qed.

(** What is left available was available. *)
Lemma fc_rest_subseteq fuel : ∀ work visited taken available V T R,
  fc fuel work visited taken available = (V, T, R) → R ⊆ available.
Proof.
  induction fuel as [|fuel IH]; intros work visited taken available V T R H;
    simpl in H.
  - by simplify_eq.
  - destruct work as [|r0 work]; [by simplify_eq|].
    case_decide.
    + eauto.
    + apply IH in H. intros e He. apply H in He.
      by apply list_elem_of_filter in He as [_ ?].
Qed.

(** With fuel for every step, each taken edge has both ends marked. *)
Lemma fc_closed fuel : ∀ work visited taken available V T R,
  fc fuel work visited taken available = (V, T, R) →
  2 * length available + length work ≤ fuel →
  (∀ e, e ∈ taken →
     getStartPoint e ∈ visited ++ work ∧ getEndPoint e ∈ visited ++ work) →
  ∀ e, e ∈ T → getStartPoint e ∈ V ∧ getEndPoint e ∈ V.
Proof.
  induction fuel as [|fuel IH]; intros work visited taken available V T R H Hf Hinv;
    simpl in H.
  - simplify_eq. destruct work; simpl in Hf; [|lia].
    intros e He. specialize (Hinv e He). by rewrite app_nil_r in Hinv.
  - destruct work as [|r0 work].
    { simplify_eq. intros e He. specialize (Hinv e He).
      by rewrite app_nil_r in Hinv. }
    case_decide as Hr0.
    + eapply IH; [exact H| simpl in Hf; lia |].
      intros e He. destruct (Hinv e He). eauto using elem_of_app_absorb.
    + eapply IH; [exact H| |].
      * pose proof (filter_app_complement (touches r0) available) as Hp.
        apply Permutation_length in Hp.
        rewrite length_app in Hp |- *. rewrite length_fmap.
        simpl in Hf. lia.
      * intros e [He|He]%elem_of_app.
        -- destruct (Hinv e He). eauto using elem_of_app_shift.
        -- apply list_elem_of_filter in He as [Ht He].
           assert (otherEnd r0 e ∈ otherEnd r0 <$> filter (touches r0) available)
             as Ho.
           { apply list_elem_of_fmap_2. by apply list_elem_of_filter. }
           assert (∀ x, x = r0 ∨ x = otherEnd r0 e →
                        x ∈ (r0 :: visited) ++
                          (otherEnd r0 <$> filter (touches r0) available) ++ work)
             as Hx.
           { intros x [-> | ->]; rewrite !elem_of_app, elem_of_cons; auto. }
           unfold otherEnd in Hx |- *. unfold touches in Ht.
           split; apply Hx; case_decide; destruct Ht; auto; congruence.
Qed.

(** Every marked or queued anchor ends an edge of the component, once that
    holds at the start. *)
Lemma fc_incident fuel : ∀ work visited taken available V T R,
  fc fuel work visited taken available = (V, T, R) →
  (∀ r, r ∈ visited ++ work → ∃ e, e ∈ taken ∧ touches r e) →
  ∀ r, r ∈ V → ∃ e, e ∈ T ∧ touches r e.
Proof.
  induction fuel as [|fuel IH]; intros work visited taken available V T R H Hinv;
    simpl in H.
  - simplify_eq. intros r Hr. apply Hinv. set_solver.
  - destruct work as [|r0 work].
    { simplify_eq. intros r Hr. apply Hinv. set_solver. }
    case_decide as Hr0.
    + eapply IH; [exact H|]. intros r Hr. apply Hinv. set_solver.
    + eapply IH; [exact H|].
      intros r Hr.
      assert (r ∈ visited ++ r0 :: work ∨
              r ∈ otherEnd r0 <$> filter (touches r0) available) as [Hold|Hnew]
        by set_solver.
      * destruct (Hinv r Hold) as (e & He & Ht). exists e. set_solver.
      * apply list_elem_of_fmap in Hnew as (e & -> & He).
        exists e. split; [set_solver|].
        apply touches_otherEnd. by apply list_elem_of_filter in He as [? _].
Qed.

(** A traversal from one anchor either stays there, taking no edge because
    none ends in it, or every anchor it marked ends an edge it took. *)
Lemma fc_seed es seed V T R :
  fc (traversalFuel es) [seed] [] [] es = (V, T, R) →
  (V = [seed] ∧ T = [] ∧ R = es ∧ ∀ e, e ∈ es → ¬ touches seed e) ∨
  (∀ r, r ∈ V → ∃ e, e ∈ T ∧ touches r e).
Proof.
  unfold traversalFuel. simpl. rewrite app_nil_r.
  destruct (filter (touches seed) es) as [|e0 inc] eqn:Hinc.
  - intros H. left.
    assert (∀ e, e ∈ es → ¬ touches seed e) as Hnone.
    { intros e He Ht.
      assert (e ∈ filter (touches seed) es) as Hc
        by (by apply list_elem_of_filter).
      rewrite Hinc in Hc. by apply elem_of_nil in Hc. }
    assert (filter (λ e, ¬ touches seed e) es = es) as Hall.
    { clear H Hinc. induction es as [|e es IH]; [done|].
      rewrite filter_cons. case_decide as Hd.
      - f_equal. apply IH. intros e' He'. apply Hnone. by right.
      - exfalso. eapply Hnone; [|exact Hd]. by left. }
    rewrite Hall in H. simpl in H.
    destruct (length es + (length es + 0)); simpl in H; by simplify_eq.
  - intros H. right. eapply fc_incident; [exact H|].
    assert (∀ e, e ∈ e0 :: inc → touches seed e) as Hinc'.
    { intros e He. rewrite <- Hinc in He.
      by apply list_elem_of_filter in He as [? _]. }
    intros r [Hr|Hr]%elem_of_app.
    + apply list_elem_of_singleton in Hr as ->.
      exists e0. split; [by left|]. apply Hinc'. by left.
    + apply list_elem_of_fmap in Hr as (e & -> & He).
      exists e. split; [done|]. apply touches_otherEnd. by apply Hinc'.
Qed.

(** The anchor a traversal starts from is marked. *)
Lemma fc_seed_visited es seed V T R :
  fc (traversalFuel es) [seed] [] [] es = (V, T, R) → seed ∈ V.
Proof.
  unfold traversalFuel. simpl.
  intros H. apply fc_visited_mono in H. apply H. by left.
Qed.


Lemma reachable_mono es es' r x :
  es ⊆ es' → reachable es r x → reachable es' r x.
Proof. intros Hsub. induction 1; econstructor; eauto. Qed.

(** Every anchor a traversal marks is reached from where it started, along
    edges it took. *)
Lemma fc_reachable seed fuel : ∀ work visited taken available V T R,
  fc fuel work visited taken available = (V, T, R) →
  (∀ x, x ∈ visited ++ work → reachable taken seed x) →
  ∀ x, x ∈ V → reachable T seed x.
Proof.
  induction fuel as [|fuel IH]; intros work visited taken available V T R H Hinv;
    simpl in H.
  - simplify_eq. intros x Hx. apply Hinv, elem_of_app. by left.
  - destruct work as [|r0 work].
    { simplify_eq. intros x Hx. apply Hinv, elem_of_app. by left. }
    case_decide as Hr0.
    + eapply IH; [exact H|]. intros x Hx. apply Hinv.
      rewrite elem_of_app, elem_of_cons. apply elem_of_app in Hx. tauto.
    + eapply IH; [exact H|]. intros x Hx.
      assert (x ∈ visited ++ r0 :: work ∨
              x ∈ otherEnd r0 <$> filter (touches r0) available) as [Hold|Hnew].
      { rewrite !elem_of_app, !elem_of_cons in Hx.
        rewrite elem_of_app, elem_of_cons. tauto. }
      * eapply reachable_mono; [|by apply Hinv].
        intros e He. apply elem_of_app. by left.
      * apply list_elem_of_fmap in Hnew as (e & -> & [Ht He]%list_elem_of_filter).
        apply reachable_step; [| |done].
        -- eapply reachable_mono; [|apply Hinv].
           ++ intros e' He'. apply elem_of_app. by left.
           ++ rewrite elem_of_app, elem_of_cons. tauto.
        -- apply elem_of_app. right. by apply list_elem_of_filter.
Qed.

(** *** Component loop *)

Lemma Closed_mono ans ans' es :
  refs ans ⊆ refs ans' → Closed ans es → Closed ans' es.
Proof. intros Hsub Hc e He. destruct (Hc e He). split; by apply Hsub. Qed.

Lemma Closed_nil es : Closed [] es → es = [].
Proof.
  destruct es as [|e es]; [done|]. intros Hc.
  destruct (Hc e) as [H _]; [by left|]. by apply elem_of_nil in H.
Qed.

Lemma refs_filter_unvisited ans (V : list TraceAnchor) r :
  r ∈ refs ans → r ∉ V → r ∈ refs (filter (λ x, anchorRef x ∉ V) ans).
Proof.
  unfold refs. intros (a & -> & Ha)%list_elem_of_fmap Hr.
  apply list_elem_of_fmap_2. by apply list_elem_of_filter.
Qed.

(** One round of the loop leaves a closed graph closed. *)
Lemma Closed_round ans es seed V T R :
  findConnectedLinesAndPoints (traversalFuel es) [seed] [] [] es = (V, T, R) →
  Closed ans es → Closed (filter (λ x, anchorRef x ∉ V) ans) R.
Proof.
  intros Hfc Hc e He.
  pose proof (fc_rest_subseteq _ _ _ _ _ _ _ _ Hfc e He) as He'.
  destruct (Hc e He') as [Hs Ht].
  assert (∀ r, r ∈ V → ¬ touches r e) as Hun.
  { intros r Hr. eapply (fc_untouched _ _ _ _ _ _ _ _ Hfc); [|done..].
    intros ? ? _ Hnil. by apply elem_of_nil in Hnil. }
  split; apply refs_filter_unvisited; try done.
  - intros Hv. apply (Hun _ Hv). by left.
  - intros Hv. apply (Hun _ Hv). by right.
Qed.

Lemma round_length (ans : list Anchor) a (V : list TraceAnchor) fuel :
  anchorRef a ∈ V → length (a :: ans) ≤ S fuel →
  length (filter (λ x, anchorRef x ∉ V) (a :: ans)) ≤ fuel.
Proof.
  intros Hv Hlen.
  assert (length (filter (λ x, anchorRef x ∉ V) (a :: ans)) < length (a :: ans)).
  { apply (length_filter_lt _ _ a); [by left|auto]. }
  lia.
Qed.

(** The candidate segments share out the anchors. *)
Lemma components_anchors fuel : ∀ ans es,
  length ans ≤ fuel → components fuel ans es ≫= anchors ≡ₚ ans.
Proof.
  induction fuel as [|fuel IH]; intros ans es Hlen.
  - destruct ans; [done|simpl in Hlen; lia].
  - destruct ans as [|a ans]; [done|]. cbn [components].
    destruct (findConnectedLinesAndPoints _ _ _ _ _) as [[V T] R] eqn:Hfc.
    rewrite bind_cons. cbn [anchors].
    pose proof (fc_seed_visited _ _ _ _ _ Hfc) as Hseed.
    rewrite IH.
    + apply (filter_app_complement (λ x, anchorRef x ∈ V)).
    + by apply round_length.
Qed.

(** The candidate segments share out the edges of a closed graph. *)
Lemma components_traces fuel : ∀ ans es,
  length ans ≤ fuel → Closed ans es → components fuel ans es ≫= traces ≡ₚ es.
Proof.
  induction fuel as [|fuel IH]; intros ans es Hlen Hc.
  - destruct ans; [|simpl in Hlen; lia]. by rewrite (Closed_nil _ Hc).
  - destruct ans as [|a ans]; [by rewrite (Closed_nil _ Hc)|]. cbn [components].
    destruct (findConnectedLinesAndPoints _ _ _ _ _) as [[V T] R] eqn:Hfc.
    rewrite bind_cons. cbn [traces].
    pose proof (fc_seed_visited _ _ _ _ _ Hfc) as Hseed.
    rewrite IH.
    + by apply fc_perm in Hfc.
    + by apply round_length.
    + by eapply Closed_round.
Qed.

(** An anchor and an edge ending in it land in the same candidate. *)
Lemma components_incident fuel : ∀ ans es a e,
  length ans ≤ fuel → Closed ans es →
  a ∈ ans → e ∈ es → touches (anchorRef a) e →
  ∃ s, s ∈ components fuel ans es ∧ a ∈ anchors s ∧ e ∈ traces s.
Proof.
  induction fuel as [|fuel IH]; intros ans es a e Hlen Hc Ha He Ht.
  - destruct ans; [by apply elem_of_nil in Ha|simpl in Hlen; lia].
  - destruct ans as [|a0 ans]; [by apply elem_of_nil in Ha|]. cbn [components].
    destruct (findConnectedLinesAndPoints _ _ _ _ _) as [[V T] R] eqn:Hfc.
    pose proof (fc_seed_visited _ _ _ _ _ Hfc) as Hseed.
    pose proof (fc_perm _ _ _ _ _ _ _ _ Hfc) as Hperm. simpl in Hperm.
    assert (e ∈ T ∨ e ∈ R) as HTR.
    { apply elem_of_app. by rewrite Hperm. }
    destruct (decide (anchorRef a ∈ V)) as [Hv|Hv].
    + eexists. split; [by left|]. cbn [anchors traces].
      split; [by apply list_elem_of_filter|].
      destruct HTR as [?|HR]; [done|]. exfalso.
      eapply (fc_untouched _ _ _ _ _ _ _ _ Hfc); [|exact HR|exact Hv|exact Ht].
      intros ? ? _ Hnil. by apply elem_of_nil in Hnil.
    + destruct HTR as [HT|HR].
      * exfalso. apply Hv.
        assert (getStartPoint e ∈ V ∧ getEndPoint e ∈ V) as [Hs Hd].
        { eapply (fc_closed _ _ _ _ _ _ _ _ Hfc); [|  |exact HT].
          - unfold traversalFuel. simpl. lia.
          - intros ? Hnil. by apply elem_of_nil in Hnil. }
        destruct Ht as [<-|<-]; done.
      * destruct (IH (filter (λ x, anchorRef x ∉ V) (a0 :: ans)) R a e)
          as (s & Hs & Has & Hes); try done.
        -- by apply round_length.
        -- by eapply Closed_round.
        -- by apply list_elem_of_filter.
        -- exists s. split; [by right|done].
Qed.

Lemma candidate_mono ans ans' es es' s :
  ans `sublist_of` ans' → es ⊆ es' → candidate ans es s → candidate ans' es' s.
Proof.
  intros Ha He (H1 & H2 & H3). split_and!; [by etrans|by etrans|done].
Qed.

Lemma components_candidate fuel : ∀ ans es s,
  s ∈ components fuel ans es → candidate ans es s.
Proof.
  induction fuel as [|fuel IH]; intros ans es s Hs.
  - by apply elem_of_nil in Hs.
  - destruct ans as [|a ans]; [by apply elem_of_nil in Hs|]. cbn [components] in Hs.
    destruct (findConnectedLinesAndPoints _ _ _ _ _) as [[V T] R] eqn:Hfc.
    pose proof (fc_perm _ _ _ _ _ _ _ _ Hfc) as Hperm. simpl in Hperm.
    apply elem_of_cons in Hs as [->|Hs].
    + split_and!; cbn [anchors traces].
      * apply sublist_filter.
      * intros e He. rewrite <- Hperm. apply elem_of_app. by left.
      * destruct (fc_seed _ _ _ _ _ Hfc) as [(-> & -> & _)|Hinc].
        -- left. split; [done|]. exists (anchorRef a).
           intros x [Hx _]%list_elem_of_filter.
           by apply list_elem_of_singleton in Hx.
        -- right. intros x [Hx _]%list_elem_of_filter. by apply Hinc.
    + eapply candidate_mono; [| |by apply IH].
      * apply sublist_filter.
      * by eapply fc_rest_subseteq.
Qed.


Lemma refs_filter_visited ans (V : list TraceAnchor) r :
  r ∈ refs ans → r ∈ V → r ∈ refs (filter (λ x, anchorRef x ∈ V) ans).
Proof.
  unfold refs. intros (a & -> & Ha)%list_elem_of_fmap Hr.
  apply list_elem_of_fmap_2. by apply list_elem_of_filter.
Qed.

(** Every edge of a candidate segment ends in anchors of that segment. *)
Lemma components_closed fuel : ∀ ans es s,
  Closed ans es → s ∈ components fuel ans es → Closed (anchors s) (traces s).
Proof.
  induction fuel as [|fuel IH]; intros ans es s Hc Hs.
  - by apply elem_of_nil in Hs.
  - destruct ans as [|a ans]; [by apply elem_of_nil in Hs|].
    cbn [components] in Hs.
    destruct (findConnectedLinesAndPoints _ _ _ _ _) as [[V T] R] eqn:Hfc.
    apply elem_of_cons in Hs as [->|Hs].
    + cbn [anchors traces]. intros e He.
      assert (getStartPoint e ∈ V ∧ getEndPoint e ∈ V) as [Hs Hd].
      { eapply (fc_closed _ _ _ _ _ _ _ _ Hfc); [| |exact He].
        - unfold traversalFuel. simpl. lia.
        - intros ? Hnil. by apply elem_of_nil in Hnil. }
      pose proof (fc_perm _ _ _ _ _ _ _ _ Hfc) as Hperm. simpl in Hperm.
      destruct (Hc e) as [Hs' Hd'].
      { rewrite <- Hperm. apply elem_of_app. by left. }
      split; by apply refs_filter_visited.
    + eapply IH; [|exact Hs]. by eapply Closed_round.
Qed.

(** The anchors of a candidate segment are reached from one of them along
    edges of the segment. *)
Lemma components_connected fuel : ∀ ans es s,
  s ∈ components fuel ans es →
  ∃ seed, ∀ a, a ∈ anchors s → reachable (traces s) seed (anchorRef a).
Proof.
  induction fuel as [|fuel IH]; intros ans es s Hs.
  - by apply elem_of_nil in Hs.
  - destruct ans as [|a0 ans]; [by apply elem_of_nil in Hs|].
    cbn [components] in Hs.
    destruct (findConnectedLinesAndPoints _ _ _ _ _) as [[V T] R] eqn:Hfc.
    apply elem_of_cons in Hs as [->|Hs]; [|by eapply IH].
    exists (anchorRef a0). cbn [anchors traces].
    intros a [Ha _]%list_elem_of_filter.
    eapply (fc_reachable _ _ _ _ _ _ _ _ _ Hfc); [|done].
    intros x Hx. simpl in Hx. apply list_elem_of_singleton in Hx as ->.
    constructor.
Qed.

(** *** Inserted anchors *)

Local Abbreviation ima := insertMissingAnchors.

Lemma degree_zero r es : degree r es = 0 ↔ ∀ e, e ∈ es → ¬ touches r e.
Proof.
  unfold degree. rewrite length_zero_iff_nil. split.
  - intros Hnil e He Ht.
    assert (e ∈ filter (touches r) es) as Hc by (by apply list_elem_of_filter).
    rewrite Hnil in Hc. by apply elem_of_nil in Hc.
  - intros Hnone. destruct (filter (touches r) es) as [|e l] eqn:Hf; [done|].
    assert (e ∈ filter (touches r) es) as Hc by (rewrite Hf; by left).
    apply list_elem_of_filter in Hc as [Ht He]. by destruct (Hnone e He).
Qed.

(** The number chosen for new junctions is above every junction given. *)
Lemma freshUuid_refs ans es k :
  freshUuid ans es ≤ k → netPoint k ∉ refs ans.
Proof.
  unfold freshUuid. intros Hk Hin.
  assert (k ≤ max_list ((refs ans ≫= refUuids) ++ (es ≫= traceUuids))); [|lia].
  apply max_list_elem_of_le, elem_of_app. left.
  apply list_elem_of_bind. exists (netPoint k). split; [by left|done].
Qed.

Lemma elem_of_option_list {A} (x : A) (o : option A) :
  x ∈ option_list o ↔ o = Some x.
Proof.
  destruct o; simpl; rewrite ?list_elem_of_singleton, ?elem_of_nil;
    naive_solver.
Qed.

Lemma insertMissingAnchor_Some ans r pos k a :
  insertMissingAnchor ans r pos k = Some a →
  (r ∉ refs ans) ∧ a = junctionAt k pos.
Proof. unfold insertMissingAnchor. case_decide; naive_solver. Qed.

Lemma insertMissingAnchor_None ans r pos k :
  insertMissingAnchor ans r pos k = None → r ∈ refs ans.
Proof. unfold insertMissingAnchor. by case_decide. Qed.

(** New junctions are numbered from [fresh] on. *)
Lemma ima_fst_ref ans : ∀ es fresh a,
  a ∈ (ima ans fresh es).1 → ∃ k, fresh ≤ k ∧ anchorRef a = netPoint k.
Proof.
  induction es as [|e es IH]; intros fresh a Ha; simpl in Ha.
  - by apply elem_of_nil in Ha.
  - rewrite !elem_of_app in Ha. destruct Ha as [Ha|[Ha|Ha]].
    + apply elem_of_option_list in Ha.
      apply insertMissingAnchor_Some in Ha as [_ ->]. by exists fresh.
    + apply elem_of_option_list in Ha.
      apply insertMissingAnchor_Some in Ha as [_ ->]. exists (S fresh).
      split; [lia|done].
    + apply IH in Ha as (k & Hk & ->). exists k. split; [lia|done].
Qed.

Lemma ima_fst_NoDup ans : ∀ es fresh, NoDup (refs (ima ans fresh es).1).
Proof.
  induction es as [|e es IH]; intros fresh; simpl; [constructor|].
  unfold refs. rewrite !fmap_app. fold (refs (ima ans (S (S fresh)) es).1).
  assert (∀ k, k < S (S fresh) →
            netPoint k ∉ refs (ima ans (S (S fresh)) es).1) as Hrest.
  { intros k Hk (a & Heq & Ha)%list_elem_of_fmap.
    apply ima_fst_ref in Ha as (k' & Hk' & Hr). rewrite Hr in Heq.
    simplify_eq. lia. }
  unfold insertMissingAnchor.
  repeat case_decide; simpl; repeat constructor; auto;
    rewrite ?elem_of_cons; intros Hbad;
    repeat match goal with
           | H : _ ∨ _ |- _ => destruct H
           end; simplify_eq; try lia;
    eapply Hrest; try eassumption; lia.
Qed.

Lemma ima_snd_uuid ans : ∀ es fresh,
  traceUuid <$> (ima ans fresh es).2 = traceUuid <$> es.
Proof.
  induction es as [|e es IH]; intros fresh; simpl; [done|]. by rewrite IH.
Qed.

(** After substitution every edge ends in given or new anchors. *)
Lemma ima_closed ans : ∀ es fresh,
  Closed (ans ++ (ima ans fresh es).1) (ima ans fresh es).2.
Proof.
  induction es as [|e es IH]; intros fresh; simpl.
  - intros e He. by apply elem_of_nil in He.
  - intros e' [->|He']%elem_of_cons.
    + unfold refs. cbn [getStartPoint getEndPoint withEndpoints].
      rewrite !fmap_app, !elem_of_app.
      split.
      * destruct (insertMissingAnchor ans (getStartPoint e) _ _) as [a|] eqn:Hs.
        -- right. left. simpl. by left.
        -- left. by apply insertMissingAnchor_None in Hs.
      * destruct (insertMissingAnchor ans (getEndPoint e) _ _) as [a|] eqn:Ht.
        -- right. right. left. simpl. by left.
        -- left. by apply insertMissingAnchor_None in Ht.
    + eapply Closed_mono; [|apply (IH (S (S fresh)))|done].
      unfold refs. rewrite !fmap_app. intros r. rewrite !elem_of_app. tauto.
Qed.

(** With every endpoint present nothing is inserted or changed. *)
Lemma ima_present ans : ∀ es fresh,
  Closed ans es → ima ans fresh es = ([], es).
Proof.
  induction es as [|e es IH]; intros fresh Hc; simpl; [done|].
  destruct (Hc e) as [Hs Ht]; [by left|].
  rewrite IH by (intros e' He'; apply Hc; by right).
  unfold insertMissingAnchor. rewrite !decide_True by done. simpl.
  by destruct e.
Qed.

(** An edge after substitution ends in a given anchor only where the edge
    it comes from did. *)
Lemma ima_touches_back ans r : ∀ es fresh e',
  (∀ k, fresh ≤ k → netPoint k ∉ refs ans) → r ∈ refs ans →
  e' ∈ (ima ans fresh es).2 → touches r e' →
  ∃ e, e ∈ es ∧ touches r e.
Proof.
  induction es as [|e es IH]; intros fresh e' Hfresh Hr He' Ht; simpl in He'.
  - by apply elem_of_nil in He'.
  - apply elem_of_cons in He' as [->|He'].
    + exists e. split; [by left|].
      unfold touches in *. cbn [getStartPoint getEndPoint withEndpoints] in Ht.
      unfold insertMissingAnchor in Ht.
      destruct Ht as [Ht|Ht]; [left|right]; case_decide; simpl in Ht; try done;
        subst r; exfalso; eapply Hfresh; try exact Hr; lia.
    + destruct (IH (S (S fresh)) e') as (e0 & He0 & Ht0); try done.
      * intros k Hk. apply Hfresh. lia.
      * exists e0. split; [by right|done].
Qed.

(** An edge ending in a given anchor still does after substitution. *)
Lemma ima_touches_forward ans r : ∀ es fresh e,
  r ∈ refs ans → e ∈ es → touches r e →
  ∃ e', e' ∈ (ima ans fresh es).2 ∧ touches r e'.
Proof.
  induction es as [|e0 es IH]; intros fresh e Hr He Ht.
  - by apply elem_of_nil in He.
  - simpl. apply elem_of_cons in He as [->|He].
    + eexists. split; [by left|].
      unfold touches in *. cbn [getStartPoint getEndPoint withEndpoints].
      unfold insertMissingAnchor.
      destruct Ht as [Ht|Ht]; [left|right]; rewrite decide_True; try done;
        by rewrite Ht.
    + destruct (IH (S (S fresh)) e Hr He Ht) as (e' & He' & Ht').
      exists e'. split; [by right|done].
Qed.

(** Every edge is still there after substitution, under its identity. *)
Lemma ima_kept ans : ∀ es fresh e,
  e ∈ es → ∃ e', e' ∈ (ima ans fresh es).2 ∧ traceUuid e' = traceUuid e.
Proof.
  induction es as [|e0 es IH]; intros fresh e He.
  - by apply elem_of_nil in He.
  - simpl. apply elem_of_cons in He as [->|He].
    + eexists. split; [by left|done].
    + destruct (IH (S (S fresh)) e He) as (e' & He' & Hu).
      exists e'. split; [by right|done].
Qed.

(** A missing start point is replaced by a new junction where it was. *)
Lemma ima_start ans : ∀ es fresh e,
  e ∈ es → getStartPoint e ∉ refs ans →
  ∃ k e', fresh ≤ k ∧
    junctionAt k (startPos e) ∈ (ima ans fresh es).1 ∧
    e' ∈ (ima ans fresh es).2 ∧ traceUuid e' = traceUuid e ∧
    getStartPoint e' = netPoint k.
Proof.
  induction es as [|e0 es IH]; intros fresh e He Hs.
  - by apply elem_of_nil in He.
  - simpl. apply elem_of_cons in He as [->|He].
    + exists fresh. eexists. split; [done|]. split; [|split; [by left|]].
      * apply elem_of_app. left. unfold insertMissingAnchor.
        rewrite decide_False by done. by left.
      * split; [done|]. cbn [getStartPoint withEndpoints].
        unfold insertMissingAnchor. by rewrite decide_False by done.
    + destruct (IH (S (S fresh)) e He Hs) as (k & e' & Hk & Ha & He' & Hu & Hr).
      exists k, e'. split; [lia|]. split; [|split; [by right|done]].
      rewrite !elem_of_app. auto.
Qed.

(** A missing end point is replaced by a new junction where it was. *)
Lemma ima_end ans : ∀ es fresh e,
  e ∈ es → getEndPoint e ∉ refs ans →
  ∃ k e', fresh ≤ k ∧
    junctionAt k (endPos e) ∈ (ima ans fresh es).1 ∧
    e' ∈ (ima ans fresh es).2 ∧ traceUuid e' = traceUuid e ∧
    getEndPoint e' = netPoint k.
Proof.
  induction es as [|e0 es IH]; intros fresh e He Hs.
  - by apply elem_of_nil in He.
  - simpl. apply elem_of_cons in He as [->|He].
    + exists (S fresh). eexists. split; [lia|]. split; [|split; [by left|]].
      * rewrite !elem_of_app. right. left. unfold insertMissingAnchor.
        rewrite decide_False by done. by left.
      * split; [done|]. cbn [getEndPoint withEndpoints].
        unfold insertMissingAnchor. by rewrite decide_False by done.
    + destruct (IH (S (S fresh)) e He Hs) as (k & e' & Hk & Ha & He' & Hu & Hr).
      exists k, e'. split; [lia|]. split; [|split; [by right|done]].
      rewrite !elem_of_app. auto.
Qed.


(** *** [split] as a whole *)

Lemma splitItems_elem ans es s :
  s ∈ splitItems ans es ↔ s ∈ candidates ans es ∧ floatingJunctions s = false.
Proof.
  unfold splitItems, candidates. rewrite list_elem_of_filter. tauto.
Qed.

Lemma floatingJunctions_trace s e : e ∈ traces s → floatingJunctions s = false.
Proof.
  unfold floatingJunctions. intros He. apply andb_false_iff. right.
  apply bool_decide_eq_false. intros Hnil. rewrite Hnil in He.
  by apply elem_of_nil in He.
Qed.

Lemma floatingJunctions_other s a :
  a ∈ anchors s → isJunction a = false → floatingJunctions s = false.
Proof.
  unfold floatingJunctions. intros Ha Hj. apply andb_false_iff. left.
  apply not_true_iff_false. intros Hall.
  rewrite forallb_forall in Hall. apply list_elem_of_In in Ha.
  rewrite (Hall a Ha) in Hj. done.
Qed.

Lemma bind_filter_nil {A B} (P : A → Prop) `{∀ x, Decision (P x)}
    (f : A → list B) (l : list A) :
  (∀ x, x ∈ l → ¬ P x → f x = []) → filter P l ≫= f = l ≫= f.
Proof.
  induction l as [|x l IH]; intros Hf; [done|].
  rewrite filter_cons, !bind_cons.
  case_decide as HP.
  - rewrite bind_cons. f_equal. apply IH. intros y Hy. apply Hf. by right.
  - rewrite (Hf x) by (done || by left). simpl.
    apply IH. intros y Hy. apply Hf. by right.
Qed.

Lemma bind_filter_sublist {A B} (P : A → Prop) `{∀ x, Decision (P x)}
    (f : A → list B) (l : list A) :
  (filter P l ≫= f) `sublist_of` (l ≫= f).
Proof.
  induction l as [|x l IH]; [done|].
  rewrite filter_cons, !bind_cons. case_decide.
  - rewrite bind_cons. by apply sublist_app.
  - by apply sublist_inserts_l.
Qed.

Lemma splitItems_traces ans es :
  splitItems ans es ≫= traces = candidates ans es ≫= traces.
Proof.
  unfold splitItems, candidates. apply bind_filter_nil.
  intros s _ Hs. apply not_false_iff_true in Hs.
  unfold floatingJunctions in Hs. apply andb_true_iff in Hs as [_ Hs].
  by apply bool_decide_eq_true in Hs.
Qed.

Lemma candidates_anchors ans es :
  candidates ans es ≫= anchors ≡ₚ ans ++ synthesized ans es.
Proof. unfold candidates. by apply components_anchors. Qed.

Lemma candidates_traces ans es :
  candidates ans es ≫= traces ≡ₚ (ima ans (freshUuid ans es) es).2.
Proof.
  unfold candidates. apply components_traces; [done|]. apply ima_closed.
Qed.

Lemma candidates_candidate ans es s :
  s ∈ candidates ans es →
  candidate (ans ++ synthesized ans es) (ima ans (freshUuid ans es) es).2 s.
Proof. unfold candidates. apply components_candidate. Qed.

Lemma candidates_incident ans es a e :
  a ∈ ans ++ synthesized ans es → e ∈ (ima ans (freshUuid ans es) es).2 →
  touches (anchorRef a) e →
  ∃ s, s ∈ splitItems ans es ∧ a ∈ anchors s ∧ e ∈ traces s.
Proof.
  intros Ha He Ht.
  destruct (components_incident (length (ans ++ synthesized ans es))
              (ans ++ synthesized ans es) (ima ans (freshUuid ans es) es).2 a e)
    as (s & Hs & Has & Hes); try done.
  { apply ima_closed. }
  exists s. split; [|done]. apply splitItems_elem. split; [done|].
  by eapply floatingJunctions_trace.
Qed.

Lemma synthesized_fresh ans es a :
  a ∈ synthesized ans es → anchorRef a ∉ refs ans.
Proof.
  intros (k & Hk & ->)%ima_fst_ref. by eapply freshUuid_refs.
Qed.

Lemma augmented_NoDup ans es :
  NoDup (refs ans) → NoDup (refs (ans ++ synthesized ans es)).
Proof.
  intros Hnd. unfold refs. rewrite fmap_app. apply NoDup_app.
  split; [done|]. split; [|apply ima_fst_NoDup].
  intros r Hr (a & -> & Ha)%list_elem_of_fmap.
  by apply synthesized_fresh in Ha.
Qed.

Lemma NoDup_refs (l : list Anchor) : NoDup (refs l) → NoDup l.
Proof. apply NoDup_fmap_1. Qed.

(** A junction of a returned segment ends an edge of that segment. *)
Lemma splitItems_junction ans es s a :
  s ∈ splitItems ans es → a ∈ anchors s → isJunction a = true →
  ∃ e, e ∈ traces s ∧ touches (anchorRef a) e.
Proof.
  intros [Hs Hkeep]%splitItems_elem Ha Hj.
  destruct (candidates_candidate _ _ _ Hs) as (_ & _ & [[Hnil [r Hr]]|Hinc]);
    [|by apply Hinc].
  exfalso. unfold floatingJunctions in Hkeep.
  rewrite Hnil, bool_decide_eq_true_2, andb_true_r in Hkeep by done.
  apply not_true_iff_false in Hkeep. apply Hkeep.
  apply forallb_forall. intros x Hx%list_elem_of_In.
  unfold isJunction in *. rewrite (Hr x Hx). by rewrite (Hr a Ha) in Hj.
Qed.

(** An edge of a returned segment ending in a given anchor comes from an
    input edge ending there. *)
Lemma splitItems_touches_input ans es s a e' :
  s ∈ splitItems ans es → a ∈ ans → e' ∈ traces s → touches (anchorRef a) e' →
  ∃ e, e ∈ es ∧ touches (anchorRef a) e.
Proof.
  intros [Hs _]%splitItems_elem Ha He' Ht.
  destruct (candidates_candidate _ _ _ Hs) as (_ & Hsub & _).
  eapply ima_touches_back; [| |by apply Hsub|done].
  - intros k Hk. by eapply freshUuid_refs.
  - by apply list_elem_of_fmap_2.
Qed.

(** Every edge of a returned segment ends in anchors of that segment. *)
Lemma splitItems_closed ans es s :
  s ∈ splitItems ans es → Closed (anchors s) (traces s).
Proof.
  intros [Hs _]%splitItems_elem. unfold candidates in Hs.
  eapply components_closed; [|exact Hs]. apply ima_closed.
Qed.

(** The anchors of a returned segment are reached from one of them along
    edges of the segment. *)
Lemma splitItems_connected ans es s :
  s ∈ splitItems ans es →
  ∃ seed, ∀ a, a ∈ anchors s → reachable (traces s) seed (anchorRef a).
Proof.
  intros [Hs _]%splitItems_elem. unfold candidates in Hs.
  by eapply components_connected.
Qed.

Lemma singleton_of_same_ref (l : list Anchor) a r :
  NoDup (refs l) → a ∈ l → (∀ x, x ∈ l → anchorRef x = r) → l = [a].
Proof.
  intros Hnd Ha Hr. destruct l as [|x [|y l]].
  - by apply elem_of_nil in Ha.
  - by apply list_elem_of_singleton in Ha as ->.
  - exfalso. unfold refs in Hnd. rewrite !fmap_cons in Hnd.
    apply NoDup_cons in Hnd as [Hx _]. apply Hx.
    rewrite (Hr x), <- (Hr y); [by left|right; by left|by left].
Qed.


(** C2, amended: for a duplicate-free input, the anchor sets of the
    returned segments are pairwise disjoint and their union, less the
    inserted junctions, is the input anchors less the floating junctions;
    the edge sets are pairwise disjoint and their union is the input edges,
    by identity always and as they stand when no endpoint is missing. *)
Theorem split_partition ans es :
  NoDup (refs ans) → NoDup (traceUuid <$> es) →
  NoDup (splitItems ans es ≫= anchors) ∧
  (∀ a, a ∈ splitItems ans es ≫= anchors ∧ a ∉ synthesized ans es ↔
        a ∈ ans ∧ ¬ floating es a) ∧
  NoDup (traceUuid <$> (splitItems ans es ≫= traces)) ∧
  traceUuid <$> (splitItems ans es ≫= traces) ≡ₚ traceUuid <$> es ∧
  (Closed ans es → splitItems ans es ≫= traces ≡ₚ es).
Proof.
  intros Hans Hes.
  assert (traceUuid <$> (splitItems ans es ≫= traces) ≡ₚ traceUuid <$> es)
    as Hperm.
  { rewrite splitItems_traces, candidates_traces. by rewrite ima_snd_uuid. }
  split_and!.
  - apply (sublist_NoDup _ (candidates ans es ≫= anchors)).
    + rewrite candidates_anchors. by apply NoDup_refs, augmented_NoDup.
    + apply bind_filter_sublist.
  - intros a. split.
    + intros [(s & Has & Hs)%list_elem_of_bind Hsyn].
      assert (a ∈ ans) as Ha.
      { pose proof Hs as [Hc _]%splitItems_elem.
        assert (a ∈ candidates ans es ≫= anchors) as Hin
          by (apply list_elem_of_bind; eauto).
        rewrite candidates_anchors in Hin.
        by apply elem_of_app in Hin as [?|?]. }
      split; [done|]. intros [Hj Hdeg].
      destruct (splitItems_junction _ _ _ _ Hs Has Hj) as (e' & He' & Ht').
      destruct (splitItems_touches_input _ _ _ _ _ Hs Ha He' Ht')
        as (e & He & Ht).
      by eapply degree_zero.
    + intros [Ha Hfl]. split.
      * destruct (isJunction a) eqn:Hj.
        -- destruct (decide (degree (anchorRef a) es = 0)) as [Hd|Hd];
             [by destruct Hfl|].
           assert (∃ e, e ∈ es ∧ touches (anchorRef a) e) as (e & He & Ht).
           { unfold degree in Hd.
             destruct (filter (touches (anchorRef a)) es) as [|e l] eqn:Hf;
               [done|].
             assert (e ∈ filter (touches (anchorRef a)) es) as Hin
               by (rewrite Hf; by left).
             apply list_elem_of_filter in Hin. naive_solver. }
           destruct (ima_touches_forward ans (anchorRef a) es
                       (freshUuid ans es) e) as (e' & He' & Ht');
             [by apply list_elem_of_fmap_2|done..|].
           destruct (candidates_incident ans es a e') as (s & Hs & Has & _);
             [apply elem_of_app; by left|done..|].
           apply list_elem_of_bind. eauto.
        -- assert (a ∈ candidates ans es ≫= anchors) as Hin.
           { rewrite candidates_anchors. apply elem_of_app. by left. }
           apply list_elem_of_bind in Hin as (s & Has & Hs).
           apply list_elem_of_bind. exists s. split; [done|].
           apply splitItems_elem. split; [done|].
           by eapply floatingJunctions_other.
      * intros Hsyn%synthesized_fresh. apply Hsyn.
        by apply list_elem_of_fmap_2.
  - by rewrite Hperm.
  - done.
  - intros Hc. rewrite splitItems_traces, candidates_traces.
    by rewrite (ima_present _ _ _ Hc).
Qed.

Lemma example_split :
  splitItems exampleAnchors exampleTraces =
  [mkSegment [junctionAt 1 (mkPoint 0 0);
              junctionAt 2 (mkPoint 10 0)] exampleTraces].
Proof. vm_compute. reflexivity. Qed.

Lemma split_partition_witness :
  NoDup (splitItems exampleAnchors exampleTraces ≫= anchors) ∧
  junctionAt 4 (mkPoint 30 0) ∉
    splitItems exampleAnchors exampleTraces ≫= anchors.
Proof.
  assert (NoDup (refs exampleAnchors)) as H1 by compute_done.
  assert (NoDup (traceUuid <$> exampleTraces)) as H2
    by compute_done.
  destruct (split_partition exampleAnchors exampleTraces H1 H2)
    as (Hnd & Hiff & _).
  split; [exact Hnd|].
  intros Hin.
  assert (junctionAt 4 (mkPoint 30 0) ∉
            synthesized exampleAnchors exampleTraces) as Hsyn
    by (vm_compute; apply not_elem_of_nil).
  destruct (proj1 (Hiff _) (conj Hin Hsyn)) as [_ Hfl].
  apply Hfl. split; reflexivity.
Defined.

(** C2 as stated fails: a floating junction of the input is in no
    returned segment, so the union of the anchor sets is not the input. *)
Lemma split_partition_counterexample :
  ¬ partition_as_stated exampleAnchors exampleTraces.
Proof.
  intros (_ & Hiff & _).
  destruct (proj2 (Hiff (junctionAt 4 (mkPoint 30 0)))) as [Hin _].
  { unfold exampleAnchors. set_solver. }
  rewrite example_split in Hin. simpl in Hin.
  set_solver.
Qed.

(** C4: a junction of a returned segment ends an edge of that segment, so
    no returned segment holds a junction of degree zero; a junction of the
    input that no edge ends in is in no returned segment; a via or pad of
    the input that no edge ends in is returned as a segment of its own. *)
Theorem split_drops_floating_junctions ans es :
  (∀ s a, s ∈ splitItems ans es → a ∈ anchors s → isJunction a = true →
          0 < degree (anchorRef a) (traces s)) ∧
  (∀ s a, a ∈ ans → floating es a → s ∈ splitItems ans es → a ∉ anchors s) ∧
  (∀ a, NoDup (refs ans) → a ∈ ans → isJunction a = false →
        degree (anchorRef a) es = 0 → mkSegment [a] [] ∈ splitItems ans es).
Proof.
  split_and!.
  - intros s a Hs Ha Hj.
    destruct (splitItems_junction _ _ _ _ Hs Ha Hj) as (e & He & Ht).
    destruct (decide (degree (anchorRef a) (traces s) = 0)) as [Hd|Hd]; [|lia].
    rewrite degree_zero in Hd. by destruct (Hd e He).
  - intros s a Ha [Hj Hd] Hs Has.
    destruct (splitItems_junction _ _ _ _ Hs Has Hj) as (e' & He' & Ht').
    destruct (splitItems_touches_input _ _ _ _ _ Hs Ha He' Ht')
      as (e & He & Ht).
    by eapply degree_zero.
  - intros a Hnd Ha Hj Hd.
    assert (a ∈ candidates ans es ≫= anchors) as Hin.
    { rewrite candidates_anchors. apply elem_of_app. by left. }
    apply list_elem_of_bind in Hin as (s & Has & Hs).
    assert (s ∈ splitItems ans es) as Hs'.
    { apply splitItems_elem. split; [done|].
      by eapply floatingJunctions_other. }
    destruct (candidates_candidate _ _ _ Hs)
      as (Hsub & _ & [[Hnil [r Hr]]|Hinc]).
    + assert (anchors s = [a]) as Hone.
      { eapply singleton_of_same_ref; [|done..].
        apply (sublist_NoDup _ (refs (ans ++ synthesized ans es))).
        - by apply augmented_NoDup.
        - by apply fmap_sublist. }
      destruct s as [sa st]. simpl in *. by subst.
    + exfalso. destruct (Hinc a Has) as (e' & He' & Ht').
      destruct (splitItems_touches_input _ _ _ _ _ Hs' Ha He' Ht')
        as (e & He & Ht).
      by eapply degree_zero.
Qed.

Lemma split_drops_floating_junctions_witness :
  (∀ s, s ∈ splitItems exampleAnchors exampleTraces →
        junctionAt 4 (mkPoint 30 0) ∉ anchors s) ∧
  mkSegment [exampleVia] [] ∈ splitItems exampleAnchorsVia exampleTraces.
Proof.
  split.
  - intros s Hs.
    apply (proj1 (proj2 (split_drops_floating_junctions
                           exampleAnchors exampleTraces)) s);
      [unfold exampleAnchors; set_solver|split; reflexivity|exact Hs].
  - apply (proj2 (proj2 (split_drops_floating_junctions
                           exampleAnchorsVia exampleTraces)));
      [compute_done|unfold exampleAnchorsVia; set_solver
      |reflexivity|reflexivity].
Defined.

(** C5: every input edge is in a returned segment under its identity; when
    its start (end) point is not among the given anchors, that edge starts
    (ends) in a junction of the same segment which was not given and lies
    where the start (end) point was. *)
Theorem split_inserts_missing_anchors ans es e :
  e ∈ es →
  (∃ s e', s ∈ splitItems ans es ∧ e' ∈ traces s ∧
           traceUuid e' = traceUuid e) ∧
  (getStartPoint e ∉ refs ans →
   ∃ s e' k, s ∈ splitItems ans es ∧ e' ∈ traces s ∧
     traceUuid e' = traceUuid e ∧ getStartPoint e' = netPoint k ∧
     junctionAt k (startPos e) ∈ anchors s ∧
     junctionAt k (startPos e) ∈ synthesized ans es ∧
     netPoint k ∉ refs ans) ∧
  (getEndPoint e ∉ refs ans →
   ∃ s e' k, s ∈ splitItems ans es ∧ e' ∈ traces s ∧
     traceUuid e' = traceUuid e ∧ getEndPoint e' = netPoint k ∧
     junctionAt k (endPos e) ∈ anchors s ∧
     junctionAt k (endPos e) ∈ synthesized ans es ∧
     netPoint k ∉ refs ans).
Proof.
  intros He. split_and!.
  - destruct (ima_kept ans es (freshUuid ans es) e He) as (e' & He' & Hu).
    assert (e' ∈ splitItems ans es ≫= traces) as Hin.
    { by rewrite splitItems_traces, candidates_traces. }
    apply list_elem_of_bind in Hin as (s & Hes & Hs). eauto.
  - intros Hmiss.
    destruct (ima_start ans es (freshUuid ans es) e He Hmiss)
      as (k & e' & Hk & Ha & He' & Hu & Hr).
    destruct (candidates_incident ans es _ e'
                ltac:(apply elem_of_app; right; exact Ha) He')
      as (s & Hs & Has & Hes); [by left|].
    exists s, e', k. split_and!; try done. by eapply freshUuid_refs.
  - intros Hmiss.
    destruct (ima_end ans es (freshUuid ans es) e He Hmiss)
      as (k & e' & Hk & Ha & He' & Hu & Hr).
    destruct (candidates_incident ans es _ e'
                ltac:(apply elem_of_app; right; exact Ha) He')
      as (s & Hs & Has & Hes); [by right|].
    exists s, e', k. split_and!; try done. by eapply freshUuid_refs.
Qed.

Lemma split_inserts_missing_anchors_witness :
  ∃ s e' k, s ∈ splitItems exampleAnchors (exampleTraces ++ [exampleDangling]) ∧
    e' ∈ traces s ∧ traceUuid e' = 11 ∧ getEndPoint e' = netPoint k ∧
    junctionAt k (mkPoint 20 0) ∈ anchors s ∧
    junctionAt k (mkPoint 20 0) ∈
      synthesized exampleAnchors (exampleTraces ++ [exampleDangling]) ∧
    netPoint k ∉ refs exampleAnchors.
Proof.
  apply (proj2 (proj2 (split_inserts_missing_anchors exampleAnchors
                         (exampleTraces ++ [exampleDangling]) exampleDangling
                         ltac:(unfold exampleTraces; set_solver)))).
  vm_compute. set_solver.
Defined.

End SplitterFacts.

Module UndoCommandGroupFacts.
Import UndoCommandGroup.

Section Engine.

Variables Model Cmd : Type.
Variable cmdExecute : Cmd → Model → ExecResult Model Cmd.
Variable cmdUndo : Cmd → Model → Model.
Variable createRandom : nat → Uuid.

Local Abbreviation run' := (@run Model Cmd cmdExecute createRandom).
Local Abbreviation St := (State Model Cmd).

Local Abbreviation undoAll := (@UndoCommandGroup.undoAll Model Cmd cmdUndo).

Lemma run_bind {A B} (p : GroupProg Model Cmd A) (f : A → GroupProg Model Cmd B) :
  ∀ s, run' (bind p f) s =
       match run' p s with
       | Ok a s' => run' (f a) s'
       | Err e s' => Err e s'
       end.
Proof.
  induction p as [a|e|c k IH|k IH|k IH|k IH|sp k IH]; intros s; simpl; try done.
  destruct (cmdExecute c (model s)); [apply IH|done].
Qed.

Lemma run_bind_Ok {A B} (p : GroupProg Model Cmd A) f (b : B) s s' :
  run' (bind p f) s = Ok b s' →
  ∃ a s1, run' p s = Ok a s1 ∧ run' (f a) s1 = Ok b s'.
Proof.
  rewrite run_bind. destruct (run' p s) as [a s1|e s1]; [eauto|done].
Qed.

Lemma run_foreach_Ok {X} (l : list X) body s s' :
  run' (foreach l body) s = Ok tt s' →
  ∀ x, x ∈ l → ∃ s1 s2, run' (body x) s1 = Ok tt s2.
Proof.
  revert s. induction l as [|x l IH]; intros s Hrun y Hy; simpl in Hrun.
  - by apply elem_of_nil in Hy.
  - apply run_bind_Ok in Hrun as ([] & s1 & H1 & H2).
    apply elem_of_cons in Hy as [->|Hy]; eauto.
Qed.

Lemma run_foreachWith_Ok {X S} (l : list X) (acc : S) body s r s' :
  run' (foreachWith l acc body) s = Ok r s' →
  ∀ x, x ∈ l → ∃ a s1 a' s2, run' (body a x) s1 = Ok a' s2.
Proof.
  revert s acc. induction l as [|x l IH]; intros s acc Hrun y Hy; simpl in Hrun.
  - by apply elem_of_nil in Hy.
  - apply run_bind_Ok in Hrun as (a' & s1 & H1 & H2).
    apply elem_of_cons in Hy as [->|Hy]; eauto 6.
Qed.

Lemma executedIn_app (l k : list (Event Cmd)) :
  executedIn (l ++ k) = executedIn l ++ executedIn k.
Proof. unfold executedIn. apply omap_app. Qed.

Lemma undoneIn_app (l k : list (Event Cmd)) :
  undoneIn (l ++ k) = undoneIn l ++ undoneIn k.
Proof. unfold undoneIn. apply omap_app. Qed.

Lemma splitsIn_app (l k : list (Event Cmd)) :
  splitsIn (l ++ k) = splitsIn l ++ splitsIn k.
Proof. unfold splitsIn. apply omap_app. Qed.

(** A run lists exactly the children it executed, in order, and undoes
    none. *)
Lemma run_extends {A} (p : GroupProg Model Cmd A) :
  ∀ s, ∃ cs evs, Extends s (stateOf (run' p s)) cs evs.
Proof.
  induction p as [a|e|c k IH|k IH|k IH|k IH|sp k IH]; intros s; simpl.
  - exists [], []. split; by rewrite ?app_nil_r.
  - exists [], []. split; by rewrite ?app_nil_r.
  - destruct (cmdExecute c (model s)) as [c' m'|e m'].
    + destruct (IH c' (mkState m' (mChilds s ++ [c']) (drawn s)
                         (log s ++ [EvExecute c']))) as (cs & evs & H).
      destruct H as [H1 H2 H3 H4]. simpl in *.
      exists (c' :: cs), (EvExecute c' :: evs).
      split; simpl; rewrite ?H1, ?H2, <- ?(assoc (++)); try done.
      by rewrite H3.
    + exists [], [EvFailed c e]. split; by rewrite ?app_nil_r.
  - apply IH.
  - apply IH.
  - destruct (IH (createRandom (drawn s))
                (mkState (model s) (mChilds s) (S (drawn s)) (log s)))
      as (cs & evs & [H1 H2 H3 H4]).
    exists cs, evs. by split.
  - destruct (IH (Splitter.split sp)
                (mkState (model s) (mChilds s) (drawn s) (log s ++ [EvSplit sp])))
      as (cs & evs & [H1 H2 H3 H4]). simpl in *.
    exists cs, (EvSplit sp :: evs).
    split; simpl; rewrite ?H1, ?H2, <- ?(assoc (++)); done.
Qed.

Lemma foldl_undoChild (cs : list Cmd) : ∀ s : St,
  model (foldl (undoChild cmdUndo) s cs) = undoAll cs (model s) ∧
  mChilds (foldl (undoChild cmdUndo) s cs) = mChilds s ∧
  drawn (foldl (undoChild cmdUndo) s cs) = drawn s ∧
  log (foldl (undoChild cmdUndo) s cs) = log s ++ (EvUndo <$> cs).
Proof.
  induction cs as [|c cs IH]; intros s; simpl.
  - by rewrite app_nil_r.
  - destruct (IH (undoChild cmdUndo s c)) as (H1 & H2 & H3 & H4).
    rewrite H1, H2, H3, H4. simpl. by rewrite <- (assoc (++)).
Qed.

(** [performUndo] undoes every listed child once, last first. *)
Lemma performUndo_spec (s : St) :
  model (performUndo cmdUndo s) = undoAll (reverse (mChilds s)) (model s) ∧
  mChilds (performUndo cmdUndo s) = mChilds s ∧
  drawn (performUndo cmdUndo s) = drawn s ∧
  log (performUndo cmdUndo s) = log s ++ (EvUndo <$> reverse (mChilds s)).
Proof. apply foldl_undoChild. Qed.

Section Reversible.

(** What the engine expects of a child command: undoing an executed
    command restores the model it was executed on, and a command that
    raises leaves the model as it was. *)
Hypothesis children_undo : ∀ c m c' m',
  cmdExecute c m = Executed c' m' → cmdUndo c' m' = m.
Hypothesis children_failed : ∀ c m e m',
  cmdExecute c m = Failed e m' → m' = m.

(** Undoing the children a run added, last first, gives back the model
    the run started on. *)
Lemma run_undoAll {A} (p : GroupProg Model Cmd A) :
  ∀ s cs, mChilds (stateOf (run' p s)) = mChilds s ++ cs →
  undoAll (reverse cs) (model (stateOf (run' p s))) = model s.
Proof.
  induction p as [a|e|c k IH|k IH|k IH|k IH|sp k IH]; intros s cs Hcs;
    simpl in *.
  - assert (cs = []) as -> by (by eapply app_inv_head; rewrite app_nil_r).
    done.
  - assert (cs = []) as -> by (by eapply app_inv_head; rewrite app_nil_r).
    done.
  - destruct (cmdExecute c (model s)) as [c' m'|e m'] eqn:Hex.
    + destruct (run_extends (k c')
                  (mkState m' (mChilds s ++ [c']) (drawn s)
                     (log s ++ [EvExecute c']))) as (cs1 & evs & [H1 _ _ _]).
      simpl in H1.
      assert (cs = c' :: cs1) as ->.
      { rewrite H1, <- (assoc (++)) in Hcs. by apply app_inv_head in Hcs. }
      rewrite reverse_cons. unfold undoAll. rewrite foldl_app. simpl.
      fold (undoAll (reverse cs1)
              (model (stateOf (run' (k c')
                 (mkState m' (mChilds s ++ [c']) (drawn s)
                    (log s ++ [EvExecute c'])))))).
      rewrite (IH c' _ cs1 H1). simpl. by eapply children_undo.
    + simpl in *.
      assert (cs = []) as -> by (by eapply app_inv_head; rewrite app_nil_r).
      simpl. by eapply children_failed.
  - by apply IH.
  - by apply IH.
  - by apply (IH _ (mkState (model s) (mChilds s) (S (drawn s)) (log s))).
  - by apply (IH _ (mkState (model s) (mChilds s) (drawn s)
                      (log s ++ [EvSplit sp]))).
Qed.

(** The rollback of a failed [performExecute], for a new group. *)
Lemma performExecute_Err body m seed e s' :
  performExecute cmdExecute cmdUndo createRandom body (created m seed) = Err e s' →
  ∃ s1, run' body (created m seed) = Err e s1 ∧
    executedIn (log s1) = mChilds s1 ∧ undoneIn (log s1) = [] ∧
    mChilds s' = mChilds s1 ∧
    log s' = log s1 ++ (EvUndo <$> reverse (mChilds s1)) ∧
    model s' = m.
Proof.
  unfold performExecute.
  destruct (run' body (created m seed)) as [[] s1|e1 s1] eqn:Hrun; [done|].
  intros [= -> <-]. exists s1. split; [done|].
  destruct (run_extends body (created m seed)) as (cs & evs & [H1 H2 H3 H4]).
  rewrite Hrun in H1, H2. simpl in H1, H2.
  destruct (performUndo_spec s1) as (Hm & Hc & _ & Hl).
  unfold leaveScope. rewrite H2, H1, H3, H4. split_and!; try done.
  - by rewrite Hc, H1.
  - by rewrite Hl, H1, H2.
  - rewrite Hm, H1.
    pose proof (run_undoAll body (created m seed) cs) as Hu.
    rewrite Hrun in Hu. simpl in Hu. by apply Hu.
Qed.

End Reversible.

(** *** Calls of the splitter *)

Lemma SplitsOnly_mono {A} (Q Q' : Splitter.t → Prop) (p : GroupProg Model Cmd A) :
  (∀ sp, Q sp → Q' sp) → SplitsOnly Q p → SplitsOnly Q' p.
Proof. intros HQ. induction 1; constructor; auto. Qed.

Lemma SplitsOnly_bind {A B} Q (p : GroupProg Model Cmd A)
    (f : A → GroupProg Model Cmd B) :
  SplitsOnly Q p → (∀ a, SplitsOnly Q (f a)) → SplitsOnly Q (bind p f).
Proof. intros Hp Hf. induction Hp; simpl; try constructor; auto. Qed.

Lemma SplitsOnly_foreach {X} Q (l : list X) (body : X → GroupProg Model Cmd unit) :
  (∀ x, x ∈ l → SplitsOnly Q (body x)) → SplitsOnly Q (foreach l body).
Proof.
  induction l as [|x l IH]; intros Hl; simpl; [constructor|].
  apply SplitsOnly_bind; [apply Hl; by left|].
  intros _. apply IH. intros y Hy. apply Hl. by right.
Qed.

Lemma SplitsOnly_foreachWith {X S} Q (l : list X) (acc : S)
    (body : S → X → GroupProg Model Cmd S) :
  (∀ a x, x ∈ l → SplitsOnly Q (body a x)) → SplitsOnly Q (foreachWith l acc body).
Proof.
  revert acc. induction l as [|x l IH]; intros acc Hl; simpl; [constructor|].
  apply SplitsOnly_bind; [apply Hl; by left|].
  intros a. apply IH. intros b y Hy. apply Hl. by right.
Qed.

Lemma SplitsOnly_deref {A} Q (p : option A) :
  SplitsOnly Q (deref p : GroupProg Model Cmd A).
Proof. destruct p; constructor. Qed.

(** The splitter inputs in the events of a run of such a program are
    those that were there before, or satisfy [Q]. *)
Lemma SplitsOnly_run {A} Q (p : GroupProg Model Cmd A) :
  SplitsOnly Q p → ∀ s sp,
  sp ∈ splitsIn (log (stateOf (run' p s))) → sp ∈ splitsIn (log s) ∨ Q sp.
Proof.
  induction 1 as [a|e|c k Hk IH|k Hk IH|k Hk IH|k Hk IH|sp0 k HQ Hk IH];
    intros s sp Hsp; simpl in Hsp; auto.
  - destruct (cmdExecute c (model s)) as [c' m'|e m']; simpl in Hsp.
    + apply IH in Hsp as [Hsp|?]; [|by right]. simpl in Hsp.
      rewrite splitsIn_app, app_nil_r in Hsp. by left.
    + rewrite splitsIn_app, app_nil_r in Hsp. by left.
  - by apply IH in Hsp.
  - by apply IH in Hsp.
  - by apply IH in Hsp.
  - apply IH in Hsp as [Hsp|?]; [|by right]. simpl in Hsp.
    rewrite splitsIn_app in Hsp. apply elem_of_app in Hsp as [?|Hsp]; [by left|].
    apply list_elem_of_singleton in Hsp as ->. by right.
Qed.

Lemma splitsIn_undo (cs : list Cmd) : splitsIn (EvUndo <$> cs) = [].
Proof. induction cs; simpl; done. Qed.

Lemma executedIn_undo (cs : list Cmd) : executedIn (EvUndo <$> cs) = [].
Proof. induction cs; simpl; done. Qed.

Lemma undoneIn_undo (cs : list Cmd) : undoneIn (EvUndo <$> cs) = cs.
Proof.
  induction cs as [|c cs IH]; [done|].
  rewrite fmap_cons. unfold undoneIn in *. cbn [omap list_omap].
  by rewrite IH.
Qed.

Lemma performExecute_splits Q body :
  SplitsOnly Q body → ∀ s sp,
  sp ∈ splitsIn (log (stateOf
         (performExecute cmdExecute cmdUndo createRandom body s))) →
  sp ∈ splitsIn (log s) ∨ Q sp.
Proof.
  intros Hb s sp. unfold performExecute.
  pose proof (SplitsOnly_run Q body Hb s sp) as Hrun.
  destruct (run' body s) as [[] s1|e s1]; simpl in *; [done|].
  destruct (performUndo_spec s1) as (_ & _ & _ & ->).
  by rewrite splitsIn_app, splitsIn_undo, app_nil_r.
Qed.

(** A [performExecute] that returns, for a new group. *)
Lemma performExecute_Ok body m seed b s' :
  performExecute cmdExecute cmdUndo createRandom body (created m seed) = Ok b s' →
  run' body (created m seed) = Ok tt s' ∧
  b = bool_decide (0 < length (mChilds s')) ∧
  executedIn (log s') = mChilds s' ∧ undoneIn (log s') = [].
Proof.
  unfold performExecute.
  destruct (run' body (created m seed)) as [[] s1|e1 s1] eqn:Hrun; [|done].
  unfold leaveScope. intros [= <- <-]. split; [done|]. split; [done|].
  destruct (run_extends body (created m seed)) as (cs & evs & [H1 H2 H3 H4]).
  rewrite Hrun in H1, H2. simpl in H1, H2. by rewrite H1, H2, H3, H4.
Qed.

Lemma run_foreachWith_cons {X S} (x : X) (l : list X) (acc : S)
    (body : S → X → GroupProg Model Cmd S) s :
  run' (foreachWith (x :: l) acc body) s =
  match run' (body acc x) s with
  | Ok acc' s' => run' (foreachWith l acc' body) s'
  | Err e s' => Err e s'
  end.
Proof. simpl. apply run_bind. Qed.

Lemma run_foreach_cons {X} (x : X) (l : list X)
    (body : X → GroupProg Model Cmd unit) s :
  run' (foreach (x :: l) body) s =
  match run' (body x) s with
  | Ok _ s' => run' (foreach l body) s'
  | Err e s' => Err e s'
  end.
Proof. simpl. apply run_bind. Qed.

(** *** Commands handed to [execNewChildCmd] *)

Local Abbreviation requested' := (@requested Model Cmd cmdExecute createRandom).

Lemma requested_bind {A B} (p : GroupProg Model Cmd A)
    (f : A → GroupProg Model Cmd B) : ∀ s,
  requested' (bind p f) s =
  requested' p s ++ match run' p s with
                    | Ok a s' => requested' (f a) s'
                    | Err _ _ => []
                    end.
Proof.
  induction p as [a|e|c k IH|k IH|k IH|k IH|sp k IH]; intros s; simpl; try done.
  destruct (cmdExecute c (model s)); [by rewrite IH|done].
Qed.

(** A run that returns has executed every command it was handed. *)
Lemma run_Ok_childs {A} (p : GroupProg Model Cmd A) : ∀ s a s',
  run' p s = Ok a s' →
  length (mChilds s') = length (mChilds s) + length (requested' p s).
Proof.
  induction p as [a|e|c k IH|k IH|k IH|k IH|sp k IH]; intros s b s' Hrun;
    simpl in *.
  - injection Hrun as _ <-. lia.
  - done.
  - destruct (cmdExecute c (model s)) as [c' m'|e m']; [|done].
    apply IH in Hrun. simpl in Hrun. rewrite length_app in Hrun. simpl in *. lia.
  - by apply IH in Hrun.
  - by apply IH in Hrun.
  - by apply IH in Hrun.
  - by apply IH in Hrun.
Qed.

Lemma requested_foreach {X} (l : list X) (body : X → GroupProg Model Cmd unit)
    (cmds : X → list Cmd) : ∀ s s',
  run' (foreach l body) s = Ok tt s' →
  (∀ x s1 s2, x ∈ l → run' (body x) s1 = Ok tt s2 → requested' (body x) s1 = cmds x) →
  requested' (foreach l body) s = l ≫= cmds.
Proof.
  induction l as [|x l IH]; intros s s' Hrun Hb; simpl in *; [done|].
  rewrite requested_bind.
  apply run_bind_Ok in Hrun as ([] & s1 & H1 & H2). rewrite H1.
  rewrite (Hb x s s1) by (done || by left).
  f_equal. apply (IH s1 s'); [done|].
  intros y sa sb Hy. apply Hb. by right.
Qed.

Lemma ExecsOnly_mono {A} (Q Q' : Cmd → Prop) (p : GroupProg Model Cmd A) :
  (∀ c, Q c → Q' c) → ExecsOnly Q p → ExecsOnly Q' p.
Proof. intros HQ. induction 1; constructor; auto. Qed.

Lemma ExecsOnly_bind {A B} Q (p : GroupProg Model Cmd A)
    (f : A → GroupProg Model Cmd B) :
  ExecsOnly Q p → (∀ a, ExecsOnly Q (f a)) → ExecsOnly Q (bind p f).
Proof. intros Hp Hf. induction Hp; simpl; try constructor; auto. Qed.

Lemma ExecsOnly_foreach {X} Q (l : list X) (body : X → GroupProg Model Cmd unit) :
  (∀ x, x ∈ l → ExecsOnly Q (body x)) → ExecsOnly Q (foreach l body).
Proof.
  induction l as [|x l IH]; intros Hl; simpl; [constructor|].
  apply ExecsOnly_bind; [apply Hl; by left|].
  intros _. apply IH. intros y Hy. apply Hl. by right.
Qed.

Lemma ExecsOnly_foreachWith {X S} Q (l : list X) (acc : S)
    (body : S → X → GroupProg Model Cmd S) :
  (∀ a x, x ∈ l → ExecsOnly Q (body a x)) → ExecsOnly Q (foreachWith l acc body).
Proof.
  revert acc. induction l as [|x l IH]; intros acc Hl; simpl; [constructor|].
  apply ExecsOnly_bind; [apply Hl; by left|].
  intros a. apply IH. intros b y Hy. apply Hl. by right.
Qed.

Lemma ExecsOnly_deref {A} Q (p : option A) :
  ExecsOnly Q (deref p : GroupProg Model Cmd A).
Proof. destruct p; constructor. Qed.

(** Every command such a program is seen to hand over satisfies [Q]. *)
Lemma ExecsOnly_requested {A} Q (p : GroupProg Model Cmd A) :
  ExecsOnly Q p → ∀ s, Forall Q (requested' p s).
Proof.
  induction 1 as [a|e|c k HQ Hk IH|k Hk IH|k Hk IH|k Hk IH|sp k Hk IH];
    intros s; simpl; auto.
  constructor; [done|]. destruct (cmdExecute c (model s)); auto.
Qed.

(** A relation on models that every step of such a program respects holds
    between the model a run starts on and the one it leaves. *)
Lemma ExecsOnly_run {A} Q (R : relation Model) `{!PreOrder R}
    (p : GroupProg Model Cmd A) :
  ExecsOnly Q p →
  (∀ c m c' m', Q c → cmdExecute c m = Executed c' m' → R m m') →
  (∀ c m e m', Q c → cmdExecute c m = Failed e m' → R m m') →
  ∀ s, R (model s) (model (stateOf (run' p s))).
Proof.
  intros Hp Hex Hfail.
  induction Hp as [a|e|c k HQ Hk IH|k Hk IH|k Hk IH|k Hk IH|sp k Hk IH];
    intros s; simpl; try done.
  - destruct (cmdExecute c (model s)) as [c' m'|e m'] eqn:Hc; simpl.
    + etrans; [by eapply Hex|]. apply (IH c' (mkState m' _ _ _)).
    + by eapply Hfail.
  - apply (IH _ (mkState _ _ _ _)).
  - apply (IH _ (mkState _ _ _ _)).
Qed.

End Engine.

End UndoCommandGroupFacts.

Module SemanticsFacts.
Import UndoCommandGroup Semantics.

Lemma added_undo {V} (k : Uuid) (v : V) tbl tbl' :
  added k v tbl = Some tbl' → delete k tbl' = tbl.
Proof.
  unfold added. destruct (tbl !! k) eqn:Hk; [done|].
  intros [= <-]. by apply delete_insert_id.
Qed.

Lemma removed_undo {V} `{EqDecision V} (k : Uuid) (v : V) tbl tbl' :
  removed k v tbl = Some tbl' → <[k:=v]> tbl' = tbl.
Proof.
  unfold removed. case_decide; [|done].
  intros [= <-]. by apply insert_delete_id.
Qed.

Lemma replaced_undo {V} `{EqDecision V} (k : Uuid) (old new : V) tbl tbl' :
  replaced k old new tbl = Some tbl' → <[k:=old]> tbl' = tbl.
Proof.
  unfold replaced. case_decide; [|done].
  intros [= <-]. rewrite insert_insert_eq. by apply insert_id.
Qed.

Lemma outcome_Executed c p after c' p' :
  outcome c p after = Executed c' p' → c' = c ∧ after = Some p'.
Proof. destruct after; simpl; naive_solver. Qed.

Lemma outcome_Failed c p after e p' :
  outcome c p after = Failed e p' → p' = p.
Proof. destruct after; simpl; naive_solver. Qed.

Ltac table_undo :=
  match goal with
  | H : added _ _ _ = Some _ |- _ => apply added_undo in H
  | H : removed _ _ _ = Some _ |- _ => apply removed_undo in H
  | H : replaced _ _ _ _ = Some _ |- _ => apply replaced_undo in H
  end.

(** Undoing an executed child command restores the project. *)
Lemma undo_execute c p c' p' :
  cmdExecute c p = Executed c' p' → cmdUndo c' p' = p.
Proof.
  destruct p as [ci l b]. destruct b, l, ci.
  destruct c; simpl;
    try (intros [-> Hafter]%outcome_Executed;
         apply fmap_Some in Hafter as (tbl & Htbl & ->);
         table_undo; simpl in *; by subst).
  - destruct (deviceInstances !! footprint) as [d|] eqn:Hd; [|done].
    case_decide; [|done]. intros [= <- <-]. simpl.
    unfold withBoard, withDeviceInstances. simpl.
    rewrite insert_insert_eq. by rewrite insert_id.
  - case_decide as Hin; [done|]. intros [= <- <-]. simpl.
    unfold withCircuit. simpl. do 2 f_equal. set_solver.
  - case_decide as Hin; [|done]. intros [= <- <-]. simpl.
    unfold withCircuit. simpl. do 2 f_equal.
    apply delete_insert_id, not_elem_of_dom, is_fresh.
  - intros [= <- <-]. simpl. unfold withLibrary. simpl.
    by rewrite !map_filter_union_complement.
Qed.

(** A child command that raises leaves the project as it was. *)
Lemma execute_failed c p e p' :
  cmdExecute c p = Failed e p' → p' = p.
Proof.
  destruct c; simpl; try (by intros ?%outcome_Failed).
  - destruct (Board.deviceInstances _ !! _); [|naive_solver].
    case_decide; naive_solver.
  - case_decide; naive_solver.
  - case_decide; naive_solver.
  - done.
Qed.

(** With these child commands a failed removal, and a failed paste, leave
    the project as it was. *)
Lemma CmdRemoveBoardItems_rollback createRandom self project seed e s' :
  CmdRemoveBoardItems.performExecute cmdExecute cmdUndo createRandom self
    (created project seed) = Err e s' →
  model s' = project.
Proof.
  intros Herr.
  destruct (UndoCommandGroupFacts.performExecute_Err _ _ cmdExecute cmdUndo
              createRandom undo_execute execute_failed _ _ _ _ _ Herr)
    as (s1 & _ & _ & _ & _ & _ & Hm).
  exact Hm.
Qed.

Lemma CmdPasteBoardItems_rollback createRandom self project seed e s' :
  CmdPasteBoardItems.performExecute cmdExecute cmdUndo createRandom self
    (created project seed) = Err e s' →
  model s' = project.
Proof.
  intros Herr.
  destruct (UndoCommandGroupFacts.performExecute_Err _ _ cmdExecute cmdUndo
              createRandom undo_execute execute_failed _ _ _ _ _ Herr)
    as (s1 & _ & _ & _ & _ & _ & Hm).
  exact Hm.
Qed.

(** *** What a child command leaves alone *)

#[global] Instance Grows_preorder : PreOrder Grows.
Proof.
  split.
  - intros p. by split.
  - intros p q r [] []. split; try (by etrans); congruence.
Qed.

Lemma added_subseteq {V} (k : Uuid) (v : V) tbl tbl' :
  added k v tbl = Some tbl' → tbl !! k = None ∧ tbl' = <[k:=v]> tbl.
Proof. unfold added. destruct (tbl !! k); [done|]. by intros [= <-]. Qed.

Lemma removed_inv {V} `{EqDecision V} (k : Uuid) (v : V) tbl tbl' :
  removed k v tbl = Some tbl' → tbl !! k = Some v ∧ tbl' = delete k tbl.
Proof. unfold removed. case_decide; [|done]. by intros [= <-]. Qed.

Lemma replaced_inv {V} `{EqDecision V} (k : Uuid) (old new : V) tbl tbl' :
  replaced k old new tbl = Some tbl' → tbl !! k = Some old ∧ tbl' = <[k:=new]> tbl.
Proof. unfold replaced. case_decide; [|done]. by intros [= <-]. Qed.

(** A command that adds takes nothing away. *)
Lemma cmdExecute_grows c p c' p' :
  isAddCommand c = true → cmdExecute c p = Executed c' p' → Grows p p'.
Proof.
  destruct p as [ci l b]. destruct b, l, ci.
  destruct c; try discriminate; intros _; simpl;
    try (intros [-> Hafter]%outcome_Executed;
         apply fmap_Some in Hafter as (tbl & Htbl & ->);
         try (apply added_subseteq in Htbl as [Hnone ->];
              split; simpl; try done;
              first [by apply insert_subseteq|rewrite dom_insert; set_solver])).
  - apply replaced_inv in Htbl as [Hold ->]. split; simpl; try done.
    rewrite dom_insert. set_solver.
  - case_decide; [done|]. intros [= <- <-]. split; simpl; try done. set_solver.
  - case_decide; [|done]. intros [= <- <-]. split; simpl; try done.
    apply insert_subseteq, not_elem_of_dom, is_fresh.
Qed.

(** A command leaves the tables of planes, polygons and holes as they are
    unless it works on them. *)
Lemma cmdExecute_frame c p c' p' :
  cmdExecute c p = Executed c' p' →
  (tableOf c ≠ Planes →
   Board.planes (Project.getBoard p') = Board.planes (Project.getBoard p)) ∧
  (tableOf c ≠ Polygons →
   Board.polygons (Project.getBoard p') = Board.polygons (Project.getBoard p)) ∧
  (tableOf c ≠ Holes →
   Board.holes (Project.getBoard p') = Board.holes (Project.getBoard p)).
Proof.
  destruct p as [ci l b]. destruct b, l, ci.
  destruct c; simpl;
    try (intros [-> Hafter]%outcome_Executed;
         apply fmap_Some in Hafter as (tbl & Htbl & ->); by split_and!).
  - destruct (deviceInstances !! footprint); [|done].
    case_decide; [|done]. by intros [= <- <-].
  - case_decide; [done|]. by intros [= <- <-].
  - case_decide; [|done]. by intros [= <- <-].
  - by intros [= <- <-].
Qed.

End SemanticsFacts.

Module CmdRemoveBoardItemsFacts.
Import UndoCommandGroup CmdRemoveBoardItems UndoCommandGroupFacts.
Local Open Scope group_scope.

Local Abbreviation noItems := (mkItems ∅ ∅ ∅).

Lemma itemsAt_update segment f l s :
  itemsAt s (update segment f l) =
  if decide (s = segment) then Some (f (default noItems (itemsAt segment l)))
  else itemsAt s l.
Proof.
  induction l as [|[key items] l IH]; simpl.
  - repeat case_decide; congruence.
  - destruct (decide (key = segment)) as [->|Hk]; simpl.
    + repeat case_decide; subst; done.
    + rewrite IH. repeat case_decide; subst; done.
Qed.

Lemma update_keys segment f l :
  (update segment f l).*1 =
  if decide (segment ∈ l.*1) then l.*1 else l.*1 ++ [segment].
Proof.
  induction l as [|[key items] l IH]; cbn [update].
  - done.
  - destruct (decide (key = segment)) as [->|Hk]; rewrite !fmap_cons; cbn [fst].
    + rewrite decide_True; [done|]. by left.
    + rewrite IH.
      destruct (decide (segment ∈ l.*1)) as [Hin|Hin].
      * rewrite decide_True; [done|]. by right.
      * rewrite decide_False; [done|]. apply not_elem_of_cons. by split.
Qed.

Lemma update_NoDup segment f l : NoDup l.*1 → NoDup (update segment f l).*1.
Proof.
  intros Hnd. rewrite update_keys. case_decide; [done|].
  apply NoDup_app. split; [done|]. split; [|apply NoDup_singleton].
  intros x Hx ->%list_elem_of_singleton. done.
Qed.

Lemma itemsAt_None segment l : itemsAt segment l = None ↔ segment ∉ l.*1.
Proof.
  induction l as [|[key items] l IH]; simpl.
  - split; [intros _; apply not_elem_of_nil|done].
  - case_decide; subst.
    + split; [done|]. intros Hn. exfalso. apply Hn. by left.
    + rewrite IH, not_elem_of_cons. naive_solver.
Qed.

Lemma elem_of_itemsAt l :
  NoDup l.*1 → ∀ s items, (s, items) ∈ l ↔ itemsAt s l = Some items.
Proof.
  induction l as [|[key it] l IH]; intros Hnd s items; simpl.
  - split; [by intros ?%elem_of_nil|done].
  - apply NoDup_cons in Hnd as [Hk Hnd]. rewrite elem_of_cons.
    case_decide as Hd.
    + subst. split.
      * intros [[= ->]|Hin]; [done|].
        exfalso. apply Hk. by apply (list_elem_of_fmap_2 fst) in Hin.
      * intros [= ->]. by left.
    + rewrite <- IH by done. split; [|by right].
      intros [[= -> _]|?]; done.
Qed.

Lemma foldl_update_NoDup {X} (owner : X → BI_NetSegment.t)
    (ins : X → NetSegmentItems → NetSegmentItems) (xs : list X) : ∀ l0,
  NoDup l0.*1 → NoDup (foldl (λ l x, update (owner x) (ins x) l) l0 xs).*1.
Proof.
  induction xs as [|x xs IH]; intros l0 Hnd; simpl; [done|].
  by apply IH, update_NoDup.
Qed.

Lemma foldl_update_itemsAt {X} (owner : X → BI_NetSegment.t)
    (ins : X → NetSegmentItems → NetSegmentItems) (xs : list X) : ∀ l0 s,
  itemsAt s (foldl (λ l x, update (owner x) (ins x) l) l0 xs) =
  match filter (λ x, owner x = s) xs with
  | [] => itemsAt s l0
  | mine => Some (foldl (λ it x, ins x it) (default noItems (itemsAt s l0)) mine)
  end.
Proof.
  induction xs as [|x xs IH]; intros l0 s; simpl; [done|].
  rewrite IH, itemsAt_update, filter_cons.
  destruct (decide (owner x = s)) as [Heq|Hne].
  - rewrite decide_True by done. subst s. simpl.
    by destruct (filter _ xs).
  - by rewrite decide_False by done.
Qed.

Lemma foldl_insertVia (vs : list BI_Via.t) : ∀ it,
  foldl (λ it v, insertVia v it) it vs =
  mkItems (list_to_set (BI_Via.getUuid <$> vs) ∪ vias it)
          (netpoints it) (netlines it).
Proof.
  induction vs as [|v vs IH]; intros it; simpl.
  - destruct it. simpl. f_equal. set_solver.
  - rewrite IH. unfold insertVia. simpl. f_equal. set_solver.
Qed.

Lemma foldl_insertNetLine (ns : list BI_NetLine.t) : ∀ it,
  foldl (λ it n, insertNetLine n it) it ns =
  mkItems (vias it) (netpoints it)
          (list_to_set (BI_NetLine.getUuid <$> ns) ∪ netlines it).
Proof.
  induction ns as [|n ns IH]; intros it; simpl.
  - destruct it. simpl. f_equal. set_solver.
  - rewrite IH. unfold insertNetLine. simpl. f_equal. set_solver.
Qed.

Lemma filter_nil_iff {X} (P : X → Prop) `{∀ x, Decision (P x)} (l : list X) :
  filter P l = [] ↔ ∀ x, x ∈ l → ¬ P x.
Proof.
  split.
  - intros Hnil x Hx HP.
    assert (x ∈ filter P l) as Hin by (by apply list_elem_of_filter).
    rewrite Hnil in Hin. by apply elem_of_nil in Hin.
  - intros Hnone. destruct (filter P l) as [|x k] eqn:Hf; [done|].
    assert (x ∈ filter P l) as Hin by (rewrite Hf; by left).
    apply list_elem_of_filter in Hin as [HP Hx]. by destruct (Hnone x Hx).
Qed.

(** The entry of a net segment in the list of affected segments. *)
Lemma itemsAt_netSegmentItemsToRemove self segment :
  (affected self segment ∧
   itemsAt segment (netSegmentItemsToRemove self) =
   Some (mkItems (selectedVias self segment) ∅ (selectedNetLines self segment))) ∨
  (¬ affected self segment ∧
   itemsAt segment (netSegmentItemsToRemove self) = None).
Proof.
  unfold netSegmentItemsToRemove, selectedVias, selectedNetLines, affected.
  rewrite !foldl_update_itemsAt. cbn [itemsAt].
  destruct (filter (λ n, BI_NetLine.getNetSegment n = segment)
              (netLinesToRemove self)) as [|n ns] eqn:Hn;
    destruct (filter (λ v, BI_Via.getNetSegment v = segment) (mVias self))
      as [|v vs] eqn:Hv.
  - right. split; [|done].
    rewrite filter_nil_iff in Hn. rewrite filter_nil_iff in Hv.
    intros [(x & Hx & Ho)|(x & Hx & Ho)]; naive_solver.
  - left. split.
    + left. exists v.
      assert (v ∈ filter (λ v, BI_Via.getNetSegment v = segment) (mVias self))
        as Hin by (rewrite Hv; by left).
      apply list_elem_of_filter in Hin. naive_solver.
    + f_equal. etrans; [apply (foldl_insertVia (v :: vs))|]. simpl. f_equal; set_solver.
  - left. split.
    + right. exists n.
      assert (n ∈ filter (λ n, BI_NetLine.getNetSegment n = segment)
                    (netLinesToRemove self))
        as Hin by (rewrite Hn; by left).
      apply list_elem_of_filter in Hin. naive_solver.
    + rewrite (foldl_insertNetLine (n :: ns)). simpl. do 2 f_equal; set_solver.
  - left. split.
    + left. exists v.
      assert (v ∈ filter (λ v, BI_Via.getNetSegment v = segment) (mVias self))
        as Hin by (rewrite Hv; by left).
      apply list_elem_of_filter in Hin. naive_solver.
    + rewrite (foldl_insertNetLine (n :: ns)), (foldl_insertVia (v :: vs)).
      simpl. do 2 f_equal; set_solver.
Qed.

Lemma netSegmentItemsToRemove_NoDup self :
  NoDup (netSegmentItemsToRemove self).*1.
Proof.
  unfold netSegmentItemsToRemove.
  apply foldl_update_NoDup, foldl_update_NoDup. constructor.
Qed.

Lemma elem_of_netSegmentItemsToRemove self segment items :
  (segment, items) ∈ netSegmentItemsToRemove self ↔
  affected self segment ∧
  items = mkItems (selectedVias self segment) ∅ (selectedNetLines self segment).
Proof.
  rewrite (elem_of_itemsAt _ (netSegmentItemsToRemove_NoDup self)).
  destruct (itemsAt_netSegmentItemsToRemove self segment) as [[Ha ->]|[Ha ->]];
    naive_solver.
Qed.

(** Items that are added to the board are among those of their segment. *)
Lemma selected_subseteq self segment :
  addedToBoard self →
  selectedVias self segment ⊆ allVias segment ∧
  selectedNetLines self segment ⊆ allNetLines segment.
Proof.
  intros [Hv Hn]. unfold selectedVias, selectedNetLines, allVias, allNetLines.
  split; intros u; rewrite !elem_of_list_to_set, !list_elem_of_fmap.
  - intros (v & -> & [<- Hin]%list_elem_of_filter).
    exists (BI_Via.getVia v). split; [done|]. by apply Hv.
  - intros (n & -> & [<- Hin]%list_elem_of_filter).
    exists (BI_NetLine.getTrace n). split; [done|]. by apply Hn.
Qed.

Lemma everyItemSelected_eq self segment :
  addedToBoard self → everyItemSelected self segment →
  selectedVias self segment = allVias segment ∧
  selectedNetLines self segment = allNetLines segment.
Proof.
  intros Hadd [Hv Hn].
  destruct (selected_subseteq self segment Hadd) as [Hsv Hsn].
  split; apply set_eq; intros u; (split; [by auto|]);
    unfold selectedVias, selectedNetLines, allVias, allNetLines;
    rewrite !elem_of_list_to_set, !list_elem_of_fmap.
  - intros (v & -> & Hin). exists (BI_Via.mk v segment). split; [done|].
    apply list_elem_of_filter. split; [done|]. by apply Hv.
  - intros (l & -> & Hin). exists (BI_NetLine.mk l segment). split; [done|].
    apply list_elem_of_filter. split; [done|]. by apply Hn.
Qed.

Lemma everyItemSelected_affected self segment :
  everyItemSelected self segment →
  BI_NetSegment.getVias segment ≠ [] ∨ BI_NetSegment.getNetLines segment ≠ [] →
  affected self segment.
Proof.
  intros [Hv Hn] [Hsome|Hsome].
  - destruct (BI_NetSegment.getVias segment) as [|v l] eqn:Hl; [done|].
    left. exists (BI_Via.mk v segment). split; [|done]. apply Hv. by left.
  - destruct (BI_NetSegment.getNetLines segment) as [|n l] eqn:Hl; [done|].
    right. exists (BI_NetLine.mk n segment). split; [|done]. apply Hn. by left.
Qed.

Lemma removeNetSegmentItems_all segment items :
  vias items = allVias segment → netlines items = allNetLines segment →
  removeNetSegmentItems (segment, items) =
  (do! execNewChildCmd (CmdBoardNetSegmentRemove segment) in Ret tt).
Proof.
  intros Hv Hn. unfold removeNetSegmentItems, removeAllVias, removeAllNetLines.
  simpl. by rewrite !bool_decide_eq_true_2.
Qed.

Ltac splits_only :=
  repeat first
    [ apply SplitsOnly_bind
    | apply SplitsOnly_foreach
    | apply SplitsOnly_foreachWith
    | apply SplitsOnly_deref
    | progress intros
    | constructor
    | match goal with
      | |- SplitsOnly _ (match ?x with _ => _ end) => destruct x
      | |- SplitsOnly _ (if ?x then _ else _) => destruct x
      end ].

Lemma createSubNetSegment_splits (Q : Splitter.t → Prop) netsegment subsegment :
  SplitsOnly Q (createSubNetSegment netsegment subsegment).
Proof. unfold createSubNetSegment. splits_only. Qed.

(** The splitter is handed the rest of a net segment only, and only of one
    that is affected without all its vias and net lines being removed. *)
Lemma body_splits self :
  SplitsOnly
    (λ sp, ∃ segment items,
       (segment, items) ∈ netSegmentItemsToRemove self ∧
       sp = splitterFor segment items ∧
       ¬ (selectedVias self segment = allVias segment ∧
          selectedNetLines self segment = allNetLines segment))
    (body self).
Proof.
  unfold body. apply SplitsOnly_bind.
  - apply SplitsOnly_foreach. intros [segment items] Hin.
    unfold removeNetSegmentItems.
    destruct (removeAllVias (segment, items) && removeAllNetLines (segment, items))
      eqn:Hall; [splits_only|].
    unfold splitUpNetSegment. constructor.
    + exists segment, items. split; [done|]. split; [done|].
      intros [Hv Hn].
      apply elem_of_netSegmentItemsToRemove in Hin as [_ ->].
      unfold removeAllVias, removeAllNetLines in Hall. simpl in Hall.
      rewrite !bool_decide_eq_true_2 in Hall; done.
    + intros segs. apply SplitsOnly_bind; [splits_only|]. intros _.
      apply SplitsOnly_foreach. intros ? _. apply createSubNetSegment_splits.
  - intros _. unfold removeStrokeText. splits_only.
Qed.

End CmdRemoveBoardItemsFacts.

Module Claims.
Import UndoCommandGroup UndoCommandGroupFacts Examples.
Local Open Scope group_scope.

Section Engine.

Variables Model Cmd : Type.
Variable cmdExecute : Cmd → Model → ExecResult Model Cmd.
Variable cmdUndo : Cmd → Model → Model.
Variable createRandom : nat → Uuid.


(** C8: when [performExecute] of a new command group returns, the guard
    was dismissed, so the group is as its body left it and nothing was
    undone; the value returned is [getChildCount() > 0], and it is true
    exactly when a child command was executed. *)
Theorem performExecute_effect body m seed b s' :
  performExecute cmdExecute cmdUndo createRandom body (created m seed) = Ok b s' →
  run cmdExecute createRandom body (created m seed) = Ok tt s' ∧
  undoneIn (log s') = [] ∧
  b = bool_decide (0 < length (mChilds s')) ∧
  executedIn (log s') = mChilds s' ∧
  (b = true ↔ ∃ c, c ∈ executedIn (log s')).
Proof.
  intros Hok.
  destruct (performExecute_Ok _ _ cmdExecute cmdUndo createRandom
              body m seed b s' Hok) as (Hrun & -> & Hex & Hun).
  split_and!; try done.
  rewrite Hex, bool_decide_eq_true. destruct (mChilds s') as [|c l]; simpl.
  - split; [lia|]. intros [c Hc]. by apply elem_of_nil in Hc.
  - split; [|lia]. intros _. exists c. by left.
Qed.

End Engine.


Lemma performExecute_effect_witness :
  ∃ s', CmdRemoveBoardItems.performExecute Semantics.cmdExecute
          Semantics.cmdUndo exampleRandom exampleRemoveAll
          (created exampleProject 0) = Ok true s' ∧
        undoneIn (log s') = [] ∧ executedIn (log s') = mChilds s'.
Proof.
  destruct (CmdRemoveBoardItems.performExecute Semantics.cmdExecute
              Semantics.cmdUndo exampleRandom exampleRemoveAll
              (created exampleProject 0)) as [b s'|e s'] eqn:Hrun.
  - destruct (performExecute_effect _ _ _ _ _ _ _ _ _ _ Hrun)
      as (_ & Hun & Hb & Hex & _).
    exists s'. split; [|by split].
    f_equal. vm_compute in Hrun. by injection Hrun as <- _.
  - vm_compute in Hrun. discriminate Hrun.
Defined.


(** *** [CmdRemoveBoardItems] *)

Import CmdRemoveBoardItems CmdRemoveBoardItemsFacts.



(** *** [CmdPasteBoardItems] *)

Import CmdPasteBoardItems.

Lemma run_pasteTrace_unresolved cmdExecute createRandom startPoint endPoint
    cmd trace (s : State Project.t Command) :
  startPoint = None ∨ endPoint = None →
  run cmdExecute createRandom (pasteTrace startPoint endPoint cmd trace) s =
  Err (LogicError "cmdpasteboarditems.cpp" 287) s.
Proof.
  intros Hnone. unfold pasteTrace. simpl.
  destruct startPoint, endPoint; try (by destruct Hnone); simpl;
    by destruct (Board.getLayer _ _).
Qed.

Lemma run_pasteTrace_Ok cmdExecute createRandom startPoint endPoint cmd trace
    (s s' : State Project.t Command) cmd' :
  run cmdExecute createRandom (pasteTrace startPoint endPoint cmd trace) s =
  Ok cmd' s' →
  ∃ a b l,
    startPoint = Some a ∧ endPoint = Some b ∧
    Board.getLayer (getLayer trace) (Project.getBoard (model s)) = Some l ∧
    cmd' = (CmdBoardNetSegmentAddElements.addNetLine a b l (getWidth trace)
              (createRandom (drawn s)) cmd).1.
Proof.
  unfold pasteTrace. simpl.
  destruct startPoint as [a|], endPoint as [b|],
    (Board.getLayer (getLayer trace) (Project.getBoard (model s))) as [l|];
    simpl; try done.
  intros [= <- <-]. by exists a, b, l.
Qed.

Lemma run_pasteNetSegment_Ok cmdExecute createRandom self seg
    (s s' : State Project.t Command) :
  run cmdExecute createRandom (pasteNetSegment self seg) s = Ok tt s' →
  BoardClipboardData.NetSegment.traces seg = [].
Proof.
  unfold pasteNetSegment. intros Hrun.
  do 6 (apply run_bind_Ok in Hrun as (? & ? & _ & Hrun)).
  apply run_bind_Ok in Hrun as (? & ? & Hloop & _).
  destruct (BoardClipboardData.NetSegment.traces seg) as [|trace l]; [done|].
  destruct (run_foreachWith_Ok _ _ _ _ _ _ _ _ _ _ Hloop trace)
    as (a & s1 & a' & s2 & Hbad); [by left|].
  by rewrite run_pasteTrace_unresolved in Hbad by (by left).
Qed.

(** C6: the net line of a pasted trace is built only from two resolved end
    points and a layer; with an end point that resolved to nothing,
    [LogicError] is raised there and no net line is built.  In
    [performExecute] no end point is ever resolved, so pasting any net
    segment with a trace fails. *)
Theorem paste_unresolved_endpoint cmdExecute cmdUndo createRandom :
  (∀ startPoint endPoint cmd trace (s : State Project.t Command),
     startPoint = None ∨ endPoint = None →
     run cmdExecute createRandom (pasteTrace startPoint endPoint cmd trace) s =
     Err (LogicError "cmdpasteboarditems.cpp" 287) s) ∧
  (∀ startPoint endPoint cmd trace (s s' : State Project.t Command) cmd',
     run cmdExecute createRandom (pasteTrace startPoint endPoint cmd trace) s =
     Ok cmd' s' →
     ∃ a b l,
       startPoint = Some a ∧ endPoint = Some b ∧
       Board.getLayer (getLayer trace) (Project.getBoard (model s)) = Some l ∧
       cmd' = (CmdBoardNetSegmentAddElements.addNetLine a b l (getWidth trace)
                 (createRandom (drawn s)) cmd).1) ∧
  (∀ self seg trace s,
     seg ∈ BoardClipboardData.getNetSegments (mData self) →
     trace ∈ BoardClipboardData.NetSegment.traces seg →
     ∃ e s',
       CmdPasteBoardItems.performExecute cmdExecute cmdUndo createRandom self s =
       Err e s').
Proof.
  split_and!.
  - intros. by apply run_pasteTrace_unresolved.
  - intros. by eapply run_pasteTrace_Ok.
  - intros self seg trace s Hseg Htrace.
    unfold CmdPasteBoardItems.performExecute, UndoCommandGroup.performExecute.
    destruct (run cmdExecute createRandom (body self) s) as [[] s1|e s1] eqn:Hrun;
      [|eauto].
    exfalso. unfold body in Hrun.
    apply run_bind_Ok in Hrun as (? & ? & _ & Hrun).
    apply run_bind_Ok in Hrun as ([] & ? & Hloop & _).
    destruct (run_foreach_Ok _ _ _ _ _ _ _ _ Hloop seg Hseg) as (sa & sb & Hone).
    apply run_pasteNetSegment_Ok in Hone. rewrite Hone in Htrace.
    by apply elem_of_nil in Htrace.
Qed.

Lemma paste_unresolved_endpoint_witness :
  ∃ e s',
    CmdPasteBoardItems.performExecute Semantics.cmdExecute Semantics.cmdUndo
      exampleRandom examplePaste (created exampleProject 0) = Err e s'.
Proof.
  apply (proj2 (proj2 (paste_unresolved_endpoint Semantics.cmdExecute
                         Semantics.cmdUndo exampleRandom))
           examplePaste exampleClipboardSegment exampleLine1).
  - simpl. by left.
  - simpl. by left.
Defined.

(** C7: with the child commands as modelled, [getOrCreateNetSignal]
    returns the net signal of the circuit with the requested name and
    changes nothing when there is one; otherwise it adds the net class
    "default" unless the circuit has it, then adds a net signal of that
    class, which the circuit did not have, and returns it.  It never
    raises. *)
Theorem getOrCreateNetSignal_spec createRandom name
    (s : State Project.t Command) :
  (∀ netSignal,
     Circuit.getNetSignalByName name (Project.getCircuit (model s))
       = Some netSignal →
     run Semantics.cmdExecute createRandom (getOrCreateNetSignal name) s =
     Ok (Some netSignal) s) ∧
  (Circuit.getNetSignalByName name (Project.getCircuit (model s)) = None →
   ∃ netSignal s',
     run Semantics.cmdExecute createRandom (getOrCreateNetSignal name) s =
     Ok (Some netSignal) s' ∧
     "default" ∈ Circuit.netClasses (Project.getCircuit (model s')) ∧
     netSignalNetClass netSignal = "default" ∧
     Circuit.getNetSignalByName (netSignalName netSignal)
       (Project.getCircuit (model s)) = None ∧
     Circuit.getNetSignalByName (netSignalName netSignal)
       (Project.getCircuit (model s')) = Some netSignal ∧
     mChilds s' =
       mChilds s ++
       (if decide ("default" ∈ Circuit.netClasses (Project.getCircuit (model s)))
        then [] else [CmdNetClassAdd "default" (Some "default")]) ++
       [CmdNetSignalAdd "default" (Some netSignal)]).
Proof.
  destruct s as [[[ci nc ns] lib b] childs n evs].
  unfold getOrCreateNetSignal. simpl. split.
  - intros netSignal ->. done.
  - intros ->. unfold Circuit.getNetClassByName. simpl.
    destruct (decide ("default" ∈ nc)) as [Hin|Hin]; simpl.
    + rewrite decide_True by done. simpl.
      eexists _, _. split; [done|]. simpl. split_and!; try done.
      * unfold Circuit.getNetSignalByName. simpl.
        assert (ns !! fresh (dom ns) = None) as ->; [|done].
        apply not_elem_of_dom, is_fresh.
      * unfold Circuit.getNetSignalByName. simpl.
        by rewrite lookup_insert_eq.
    + rewrite decide_False by done. simpl.
      rewrite decide_True by set_solver. simpl.
      eexists _, _. split; [done|]. simpl. split_and!; try done.
      * set_solver.
      * unfold Circuit.getNetSignalByName. simpl.
        assert (ns !! fresh (dom ns) = None) as ->; [|done].
        apply not_elem_of_dom, is_fresh.
      * unfold Circuit.getNetSignalByName. simpl.
        by rewrite lookup_insert_eq.
      * by rewrite <- (assoc (++)).
Qed.

Lemma getOrCreateNetSignal_spec_witness :
  run Semantics.cmdExecute exampleRandom (getOrCreateNetSignal "GND")
    (created exampleProject 0) =
  Ok (Some exampleSignal) (created exampleProject 0) ∧
  ∃ netSignal s',
    run Semantics.cmdExecute exampleRandom (getOrCreateNetSignal "VCC")
      (created exampleProject 0) = Ok (Some netSignal) s' ∧
    mChilds s' = [CmdNetClassAdd "default" (Some "default");
                  CmdNetSignalAdd "default" (Some netSignal)].
Proof.
  destruct (getOrCreateNetSignal_spec exampleRandom "GND"
              (created exampleProject 0)) as [Hsome _].
  destruct (getOrCreateNetSignal_spec exampleRandom "VCC"
              (created exampleProject 0)) as [_ Hnone].
  split.
  - apply Hsome. reflexivity.
  - destruct (Hnone eq_refl) as (netSignal & s' & Hrun & _ & _ & _ & _ & Hc).
    exists netSignal, s'. split; [exact Hrun|exact Hc].
Defined.


(** *** [BoardClipboardDataBuilder] *)

Import BoardClipboardData BoardClipboardDataBuilder.

Lemma foldl_addDevice (l : list BI_Device.t) : ∀ data,
  elementsOf (foldl addDevice data l) =
  (getDevices data ++ (exportDevice <$> l), getNetSegments data, getPlanes data,
   getPolygons data, getStrokeTexts data, getHoles data).
Proof.
  induction l as [|x l IH]; intros data; simpl.
  - by rewrite app_nil_r.
  - rewrite IH. simpl. by rewrite <- (assoc (++)).
Qed.

Lemma foldl_addPlane (l : list BI_Plane.t) : ∀ data,
  elementsOf (foldl addPlane data l) =
  (getDevices data, getNetSegments data, getPlanes data ++ (exportPlane <$> l),
   getPolygons data, getStrokeTexts data, getHoles data).
Proof.
  induction l as [|x l IH]; intros data; simpl.
  - by rewrite app_nil_r.
  - rewrite IH. simpl. by rewrite <- (assoc (++)).
Qed.

Lemma foldl_addPolygon (l : list BI_Polygon.t) : ∀ data,
  elementsOf (foldl addPolygon data l) =
  (getDevices data, getNetSegments data, getPlanes data,
   getPolygons data ++ (BI_Polygon.getPolygon <$> l), getStrokeTexts data,
   getHoles data).
Proof.
  induction l as [|x l IH]; intros data; simpl.
  - by rewrite app_nil_r.
  - rewrite IH. simpl. by rewrite <- (assoc (++)).
Qed.

Lemma foldl_addStrokeText (l : list BI_StrokeText.t) : ∀ data,
  elementsOf (foldl addStrokeText data l) =
  (getDevices data, getNetSegments data, getPlanes data, getPolygons data,
   getStrokeTexts data ++ (BI_StrokeText.getText <$> l), getHoles data).
Proof.
  induction l as [|x l IH]; intros data; simpl.
  - by rewrite app_nil_r.
  - rewrite IH. simpl. by rewrite <- (assoc (++)).
Qed.

Lemma foldl_addHole (l : list BI_Hole.t) : ∀ data,
  elementsOf (foldl addHole data l) =
  (getDevices data, getNetSegments data, getPlanes data, getPolygons data,
   getStrokeTexts data, getHoles data ++ (BI_Hole.getHole <$> l)).
Proof.
  induction l as [|x l IH]; intros data; simpl.
  - by rewrite app_nil_r.
  - rewrite IH. simpl. by rewrite <- (assoc (++)).
Qed.


(** *** [NetPoint] *)

(** C10: [setPosition] with the current position returns false and
    leaves the net point as it is, no event notified; with another
    position it returns true, the position is the new one and exactly one
    event, [PositionChanged], is notified; the uuid is the same in both
    cases. *)
Theorem setPosition_spec (np : NetPoint.t) (position : Point) :
  (position = NetPoint.mPosition np →
   NetPoint.setPosition position np = (false, np)) ∧
  (position ≠ NetPoint.mPosition np →
   NetPoint.setPosition position np =
   (true, NetPoint.mk (NetPoint.mUuid np) position
            (NetPoint.onEdited np ++ [NetPoint.PositionChanged]))) ∧
  NetPoint.mUuid (NetPoint.setPosition position np).2 = NetPoint.mUuid np.
Proof.
  unfold NetPoint.setPosition, NetPoint.notify.
  destruct (decide (position = NetPoint.mPosition np)); simpl; naive_solver.
Qed.

Lemma setPosition_spec_witness :
  NetPoint.setPosition (mkPoint 5 0) exampleNetPoint = (false, exampleNetPoint) ∧
  NetPoint.setPosition (mkPoint 6 0) exampleNetPoint =
  (true, NetPoint.mk 3 (mkPoint 6 0) [NetPoint.PositionChanged]).
Proof.
  split.
  - apply (proj1 (setPosition_spec exampleNetPoint (mkPoint 5 0))). reflexivity.
  - apply (proj1 (proj2 (setPosition_spec exampleNetPoint (mkPoint 6 0)))).
    vm_compute. discriminate.
Defined.

End Claims.

(** ** More on [NetPoint] *)

Module NetPointFacts.
Import NetPoint Examples.

Lemma equal_iff lhs rhs :
  equal lhs rhs = true ↔ mUuid lhs = mUuid rhs ∧ mPosition lhs = mPosition rhs.
Proof. unfold equal. repeat case_decide; naive_solver. Qed.

(** X1: [operator==] is an equivalence on net points that looks at the uuid
    and the position only, not at what the signal has notified;
    [operator!=] holds exactly when one of the two differs. *)
Theorem equal_equivalence :
  (∀ a, equal a a = true) ∧
  (∀ a b, equal a b = equal b a) ∧
  (∀ a b c, equal a b = true → equal b c = true → equal a c = true) ∧
  (∀ a evs, equal a (mk (mUuid a) (mPosition a) evs) = true) ∧
  (∀ a b, notEqual a b = true ↔
          getUuid a ≠ getUuid b ∨ getPosition a ≠ getPosition b).
Proof.
  split_and!.
  - intros a. by apply equal_iff.
  - intros a b. destruct (equal b a) eqn:Hba.
    + apply equal_iff in Hba as [? ?]. by apply equal_iff.
    + destruct (equal a b) eqn:Hab; [|done].
      apply equal_iff in Hab as [? ?].
      rewrite <- Hba. symmetry. by apply equal_iff.
  - intros a b c [? ?]%equal_iff [? ?]%equal_iff. apply equal_iff.
    split; congruence.
  - intros a evs. by apply equal_iff.
  - intros a b. unfold notEqual, equal, getUuid, getPosition.
    repeat case_decide; simpl; naive_solver.
Qed.

Lemma equal_equivalence_witness :
  equal exampleNetPoint
    (mk 3 (mkPoint 5 0) [PositionChanged; PositionChanged]) = true.
Proof.
  apply (proj1 (proj2 (proj2 equal_equivalence))
           exampleNetPoint (copy exampleNetPoint)); reflexivity.
Defined.

(** X2: [operator=] makes the target equal to the source; the target keeps
    its own signal, which is notified [UuidChanged] when the uuid differed
    and then [PositionChanged] when the position differed, and nothing
    else.  The target is left as it is exactly when the two were equal
    before, and assigning the same source again changes nothing. *)
Theorem assign_spec (rhs lhs : t) :
  equal (assign rhs lhs) rhs = true ∧
  onEdited (assign rhs lhs) =
    onEdited lhs
    ++ (if decide (mUuid lhs = mUuid rhs) then [] else [UuidChanged])
    ++ (if decide (mPosition lhs = mPosition rhs) then [] else [PositionChanged]) ∧
  (assign rhs lhs = lhs ↔ equal lhs rhs = true) ∧
  assign rhs (assign rhs lhs) = assign rhs lhs.
Proof.
  destruct lhs as [u p evs], rhs as [u' p' evs'].
  unfold assign, setPosition, notify, equal. simpl.
  destruct (decide (u = u')) as [->|Hu], (decide (p = p')) as [->|Hp];
    repeat (match goal with
            | |- context [decide ?P] => destruct (decide P)
            end; simpl; try congruence);
    rewrite ?app_nil_r, <- ?(assoc (++)); split_and!; try done;
    (split; [|done]); intros Heq; apply (f_equal onEdited) in Heq;
    simpl in Heq; apply (f_equal length) in Heq;
    rewrite !length_app in Heq; simpl in Heq; lia.
Qed.

(** X3: the copy constructor gives a net point equal to the original whose
    signal has notified nothing, whatever the original's signal has; the
    constructor that also takes a uuid keeps the position, and its result
    is equal to the original exactly when the uuid is the original's. *)
Theorem copy_spec (other : t) (uuid : Uuid) :
  equal (copy other) other = true ∧
  onEdited (copy other) = [] ∧
  getUuid (copyWithUuid uuid other) = uuid ∧
  getPosition (copyWithUuid uuid other) = getPosition other ∧
  onEdited (copyWithUuid uuid other) = [] ∧
  (equal (copyWithUuid uuid other) other = true ↔ uuid = getUuid other).
Proof.
  split_and!; try done.
  - by apply equal_iff.
  - rewrite equal_iff. unfold copyWithUuid, copy, getUuid. simpl. naive_solver.
Qed.

(** X4: after [setPosition(p)] the position is [p]; calling it again with [p]
    returns false and changes nothing; and setting the former position
    again gives a net point equal to the one started from. *)
Theorem setPosition_twice (np : t) (p : Point) :
  getPosition (setPosition p np).2 = p ∧
  setPosition p (setPosition p np).2 = (false, (setPosition p np).2) ∧
  equal (setPosition (getPosition np) (setPosition p np).2).2 np = true.
Proof.
  destruct np as [u q evs]. unfold setPosition, getPosition, notify. simpl.
  destruct (decide (p = q)) as [->|Hp]; simpl.
  - rewrite !decide_True by done. simpl. split_and!; try done.
    by apply equal_iff.
  - rewrite decide_True by done. rewrite decide_False by done. simpl.
    split_and!; try done. by apply equal_iff.
Qed.

End NetPointFacts.

(** ** More on [CmdRemoveBoardItems] *)

Module CmdRemoveBoardItemsRuns.
Import UndoCommandGroup UndoCommandGroupFacts.
Import CmdRemoveBoardItems CmdRemoveBoardItemsFacts Examples.
Local Open Scope group_scope.

(** *** What is handed to the splitter *)

Lemma filter_all {X} (P : X → Prop) `{∀ x, Decision (P x)} (l : list X) :
  (∀ x, x ∈ l → P x) → filter P l = l.
Proof.
  induction l as [|x l IH]; intros Hl; [done|].
  rewrite filter_cons_True by (apply Hl; by left).
  f_equal. apply IH. intros y Hy. apply Hl. by right.
Qed.

Lemma foldl_addAnchor {X} (f : X → Anchor) (l : list X) : ∀ s0,
  foldl (λ s x, Splitter.addAnchor (f x) s) s0 l =
  Splitter.mk (Splitter.mAnchors s0 ++ (f <$> l)) (Splitter.mTraces s0).
Proof.
  induction l as [|x l IH]; intros s0; simpl.
  - rewrite app_nil_r. by destruct s0.
  - rewrite IH. simpl. by rewrite <- (assoc (++)).
Qed.

Lemma foldl_addTrace (l : list Trace) : ∀ s0,
  foldl (λ s e, Splitter.addTrace e s) s0 l =
  Splitter.mk (Splitter.mAnchors s0) (Splitter.mTraces s0 ++ l).
Proof.
  induction l as [|x l IH]; intros s0; simpl.
  - rewrite app_nil_r. by destruct s0.
  - rewrite IH. simpl. by rewrite <- (assoc (++)).
Qed.

Lemma splitterFor_items netsegment itemsToRemove :
  splitterFor netsegment itemsToRemove =
  Splitter.mk
    ((JunctionAnchor
        <$> ((λ np, NetPoint.create (NetPoint.getUuid np) (NetPoint.getPosition np))
               <$> filter (λ np, NetPoint.getUuid np ∉ netpoints itemsToRemove)
                     (BI_NetSegment.getNetPoints netsegment)))
     ++ (ViaAnchor <$> filter (λ v, viaUuid v ∉ vias itemsToRemove)
                         (BI_NetSegment.getVias netsegment)))
    (filter (λ l, traceUuid l ∉ netlines itemsToRemove)
            (BI_NetSegment.getNetLines netsegment)).
Proof.
  unfold splitterFor, Splitter.addNetPoint, Splitter.addVia.
  rewrite foldl_addTrace.
  rewrite (foldl_addAnchor ViaAnchor).
  rewrite (foldl_addAnchor
             (λ np, JunctionAnchor (NetPoint.create (NetPoint.getUuid np)
                                      (NetPoint.getPosition np)))).
  simpl. by rewrite <- list_fmap_compose.
Qed.

(** X5: the net lines on the pads of a device that is removed are removed with
    it: each is in the set of net lines to remove, and the entry of its
    net segment lists it. *)
Theorem device_netlines_removed self device pad n :
  device ∈ mDeviceInstances self →
  pad ∈ BI_Device.getPads device →
  n ∈ BI_FootprintPad.getNetLines pad →
  n ∈ netLinesToRemove self ∧
  ∃ items,
    (BI_NetLine.getNetSegment n, items) ∈ netSegmentItemsToRemove self ∧
    BI_NetLine.getUuid n ∈ netlines items.
Proof.
  intros Hd Hp Hn.
  assert (n ∈ netLinesToRemove self) as Hin.
  { unfold netLinesToRemove. apply elem_of_remove_dups, elem_of_app. right.
    apply list_elem_of_bind. exists device. split; [|done].
    apply list_elem_of_bind. by exists pad. }
  split; [done|].
  exists (mkItems (selectedVias self (BI_NetLine.getNetSegment n)) ∅
            (selectedNetLines self (BI_NetLine.getNetSegment n))).
  split.
  - apply elem_of_netSegmentItemsToRemove. split; [|done]. right. by exists n.
  - simpl. unfold selectedNetLines. apply elem_of_list_to_set, list_elem_of_fmap.
    exists n. split; [done|]. by apply list_elem_of_filter.
Qed.

Lemma device_netlines_removed_witness :
  BI_NetLine.mk exampleLine1 exampleSegment ∈ netLinesToRemove exampleRemoveDevice ∧
  ∃ items,
    (exampleSegment, items) ∈ netSegmentItemsToRemove exampleRemoveDevice ∧
    10 ∈ netlines items.
Proof.
  apply (device_netlines_removed exampleRemoveDevice exampleDevice examplePad
           (BI_NetLine.mk exampleLine1 exampleSegment)).
  - simpl. by left.
  - simpl. by left.
  - simpl. by left.
Defined.

(** X6: no net point is ever put on the list of items to remove.  So when a
    net segment is split, the splitter is handed every net point of the
    segment, as a copy with its uuid and position, then the vias that are
    not removed, and the net lines that are not removed, those ending in a
    removed via included. *)
Theorem splitter_receives_rest self segment items :
  (segment, items) ∈ netSegmentItemsToRemove self →
  netpoints items = ∅ ∧
  Splitter.mAnchors (splitterFor segment items) =
    (JunctionAnchor
       <$> ((λ np, NetPoint.create (NetPoint.getUuid np) (NetPoint.getPosition np))
              <$> BI_NetSegment.getNetPoints segment))
    ++ (ViaAnchor <$> filter (λ v, viaUuid v ∉ selectedVias self segment)
                        (BI_NetSegment.getVias segment)) ∧
  Splitter.mTraces (splitterFor segment items) =
    filter (λ l, traceUuid l ∉ selectedNetLines self segment)
           (BI_NetSegment.getNetLines segment).
Proof.
  intros [_ ->]%elem_of_netSegmentItemsToRemove.
  rewrite splitterFor_items. simpl. split_and!; try done.
  do 3 f_equal. apply filter_all. intros np _. apply not_elem_of_empty.
Qed.

Lemma splitter_receives_rest_witness :
  ∃ items,
    (exampleSegment, items) ∈ netSegmentItemsToRemove exampleRemoveVia ∧
    Splitter.mAnchors (splitterFor exampleSegment items) =
      [JunctionAnchor exampleNetPoint; ViaAnchor exampleVia2] ∧
    Splitter.mTraces (splitterFor exampleSegment items) =
      [exampleLine1; exampleLine2].
Proof.
  exists (mkItems {[1]} ∅ ∅).
  assert ((exampleSegment, mkItems {[1]} ∅ ∅)
            ∈ netSegmentItemsToRemove exampleRemoveVia) as Hin
    by (vm_compute; by left).
  destruct (splitter_receives_rest exampleRemoveVia exampleSegment _ Hin)
    as (_ & Ha & Ht).
  split; [exact Hin|]. split.
  - rewrite Ha. reflexivity.
  - rewrite Ht. reflexivity.
Defined.

(** *** The commands of a run *)

Section Run.

Variable cmdExecute : Command → Project.t → ExecResult Project.t Command.
Variable cmdUndo : Command → Project.t → Project.t.
Variable createRandom : nat → Uuid.

Local Abbreviation run' := (@run Project.t Command cmdExecute createRandom).
Local Abbreviation requested' :=
  (@requested Project.t Command cmdExecute createRandom).

Lemma bind_singleton {X Y} (f : X → Y) (l : list X) : l ≫= (λ x, [f x]) = f <$> l.
Proof. induction l as [|x l IH]; [done|]. by rewrite fmap_cons, <- IH. Qed.

Lemma requested_exec_one c s :
  requested' (do! execNewChildCmd c in Ret tt) s = [c].
Proof. simpl. by destruct (cmdExecute c (model s)). Qed.

Lemma requested_foreach_exec {X} (l : list X) (f : X → Command) s s' :
  run' (foreach l (λ x, do! execNewChildCmd (f x) in Ret tt)) s = Ok tt s' →
  requested' (foreach l (λ x, do! execNewChildCmd (f x) in Ret tt)) s = f <$> l.
Proof.
  intros Hrun. rewrite <- (bind_singleton f l).
  apply (requested_foreach _ _ cmdExecute createRandom l _ _ s s' Hrun).
  intros x s1 s2 _ _. apply requested_exec_one.
Qed.

Lemma requested_foreach_elem {X} (l : list X) (body : X → Prog unit) : ∀ s s',
  run' (foreach l body) s = Ok tt s' →
  ∀ x, x ∈ l → ∃ s1, requested' (body x) s1 ⊆ requested' (foreach l body) s.
Proof.
  induction l as [|x l IH]; intros s s' Hrun y Hy; simpl in *.
  - by apply elem_of_nil in Hy.
  - rewrite requested_bind.
    apply run_bind_Ok in Hrun as ([] & s1 & H1 & H2). rewrite H1.
    apply elem_of_cons in Hy as [->|Hy].
    + exists s. intros c Hc. apply elem_of_app. by left.
    + destruct (IH s1 s' H2 y Hy) as (sa & Hsub).
      exists sa. intros c Hc. apply elem_of_app. right. by apply Hsub.
Qed.

Lemma removeNetSegmentItems_requested entry s :
  CmdBoardNetSegmentRemove entry.1 ∈ requested' (removeNetSegmentItems entry) s.
Proof.
  unfold removeNetSegmentItems, splitUpNetSegment.
  destruct (removeAllVias entry && removeAllNetLines entry); simpl; by left.
Qed.

Ltac execs_only :=
  repeat first
    [ apply ExecsOnly_bind
    | apply ExecsOnly_foreach
    | apply ExecsOnly_foreachWith
    | apply ExecsOnly_deref
    | progress intros
    | constructor
    | done
    | match goal with
      | |- ExecsOnly _ (match ?x with _ => _ end) => destruct x
      | |- ExecsOnly _ (if ?x then _ else _) => destruct x
      end ].

Lemma removeNetSegmentItems_execs entry :
  ExecsOnly (λ c, isNetSegmentCommand c = true) (removeNetSegmentItems entry).
Proof.
  unfold removeNetSegmentItems, splitUpNetSegment, createSubNetSegment.
  execs_only.
Qed.

(** The commands of a run of the body that returns: those for the net
    segments, then one removal for each device, plane and polygon, those
    for the stroke texts, one removal for each hole, and the removal of
    unused library elements when there is a child by then. *)
Lemma body_requested self s s' :
  run' (body self) s = Ok tt s' →
  ∃ forSegments,
    requested' (body self) s =
      forSegments
      ++ (CmdDeviceInstanceRemove <$> mDeviceInstances self)
      ++ (CmdBoardPlaneRemove <$> mPlanes self)
      ++ (CmdBoardPolygonRemove <$> mPolygons self)
      ++ (mStrokeTexts self ≫= λ text,
            match BI_StrokeText.getFootprint text with
            | Some footprint =>
                if decide (footprint ∈ BI_Device.getComponentInstanceUuid
                                         <$> mDeviceInstances self)
                then []
                else [CmdFootprintStrokeTextRemove footprint text None]
            | None => [CmdBoardStrokeTextRemove text]
            end)
      ++ (CmdBoardHoleRemove <$> mHoles self)
      ++ (if bool_decide (0 < length (mChilds s'))
          then [CmdRemoveUnusedLibraryElements ∅ ∅] else []) ∧
    Forall (λ c, isNetSegmentCommand c = true) forSegments ∧
    (∀ entry, entry ∈ netSegmentItemsToRemove self →
              CmdBoardNetSegmentRemove entry.1 ∈ forSegments).
Proof.
  intros Hrun. unfold body in *.
  exists (requested' (foreach (netSegmentItemsToRemove self) removeNetSegmentItems) s).
  split_and!.
  - apply run_bind_Ok in Hrun as ([] & s1 & H1 & Hrun).
    rewrite requested_bind, H1. f_equal.
    apply run_bind_Ok in Hrun as ([] & s2 & H2 & Hrun).
    rewrite requested_bind, H2, (requested_foreach_exec _ _ _ _ H2). f_equal.
    apply run_bind_Ok in Hrun as ([] & s3 & H3 & Hrun).
    rewrite requested_bind, H3, (requested_foreach_exec _ _ _ _ H3). f_equal.
    apply run_bind_Ok in Hrun as ([] & s4 & H4 & Hrun).
    rewrite requested_bind, H4, (requested_foreach_exec _ _ _ _ H4). f_equal.
    apply run_bind_Ok in Hrun as ([] & s5 & H5 & Hrun).
    rewrite requested_bind, H5. f_equal.
    { apply (requested_foreach _ _ cmdExecute createRandom _ _ _ s4 s5 H5).
      intros text sa sb _ _. unfold removeStrokeText.
      destruct (BI_StrokeText.getFootprint text) as [footprint|];
        [case_decide|]; try done; apply requested_exec_one. }
    apply run_bind_Ok in Hrun as ([] & s6 & H6 & Hrun).
    rewrite requested_bind, H6, (requested_foreach_exec _ _ _ _ H6). f_equal.
    simpl in *.
    destruct (bool_decide (0 < length (mChilds s6))) eqn:Hcount.
    + simpl in *.
      destruct (cmdExecute (CmdRemoveUnusedLibraryElements ∅ ∅) (model s6))
        as [c' m'|e m']; [|done].
      simpl in Hrun. injection Hrun as <-. simpl.
      rewrite bool_decide_eq_true_2; [done|]. rewrite length_app. simpl. lia.
    + simpl in Hrun. injection Hrun as <-. by rewrite Hcount.
  - apply ExecsOnly_requested, ExecsOnly_foreach.
    intros entry _. apply removeNetSegmentItems_execs.
  - intros entry Hin.
    apply run_bind_Ok in Hrun as ([] & s1 & H1 & _).
    destruct (requested_foreach_elem _ _ _ _ H1 entry Hin) as (sa & Hsub).
    apply Hsub, removeNetSegmentItems_requested.
Qed.

End Run.

Lemma netSegmentItemsToRemove_nil self :
  netSegmentItemsToRemove self = [] → mVias self = [] ∧ mNetLines self = [].
Proof.
  intros Hnil.
  assert (∀ segment, ¬ affected self segment) as Hnone.
  { intros segment Ha.
    assert ((segment, mkItems (selectedVias self segment) ∅
                        (selectedNetLines self segment))
              ∈ netSegmentItemsToRemove self) as Hin
      by (by apply elem_of_netSegmentItemsToRemove).
    rewrite Hnil in Hin. by apply elem_of_nil in Hin. }
  split.
  - destruct (mVias self) as [|v l] eqn:Hv; [done|].
    destruct (Hnone (BI_Via.getNetSegment v)). left. exists v.
    split; [|done]. rewrite Hv. by left.
  - destruct (mNetLines self) as [|n l] eqn:Hn; [done|].
    destruct (Hnone (BI_NetLine.getNetSegment n)). right. exists n.
    split; [|done]. unfold netLinesToRemove.
    apply elem_of_remove_dups, elem_of_app. left. rewrite Hn. by left.
Qed.

(** X7: when [performExecute] returns, the commands it handed to
    [execNewChildCmd] are, in this order: commands on net segments, among
    them the removal of every net segment with an item to remove, whether
    it is split or not; the removal of every device, plane and polygon to
    remove; the removal of every stroke text to remove, but for the texts
    of the footprint of a device that is removed itself; the removal of
    every hole; and, exactly when the value returned is true, the removal
    of the unused library elements, last.  This holds whatever the child
    commands do. *)
Theorem performExecute_requests cmdExecute cmdUndo createRandom self s b s' :
  CmdRemoveBoardItems.performExecute cmdExecute cmdUndo createRandom self s
    = Ok b s' →
  ∃ forSegments,
    requested cmdExecute createRandom (body self) s =
      forSegments
      ++ (CmdDeviceInstanceRemove <$> mDeviceInstances self)
      ++ (CmdBoardPlaneRemove <$> mPlanes self)
      ++ (CmdBoardPolygonRemove <$> mPolygons self)
      ++ (mStrokeTexts self ≫= λ text,
            match BI_StrokeText.getFootprint text with
            | Some footprint =>
                if decide (footprint ∈ BI_Device.getComponentInstanceUuid
                                         <$> mDeviceInstances self)
                then []
                else [CmdFootprintStrokeTextRemove footprint text None]
            | None => [CmdBoardStrokeTextRemove text]
            end)
      ++ (CmdBoardHoleRemove <$> mHoles self)
      ++ (if b then [CmdRemoveUnusedLibraryElements ∅ ∅] else []) ∧
    Forall (λ c, isNetSegmentCommand c = true) forSegments ∧
    (∀ entry, entry ∈ netSegmentItemsToRemove self →
              CmdBoardNetSegmentRemove entry.1 ∈ forSegments) ∧
    length (mChilds s') =
      length (mChilds s) + length (requested cmdExecute createRandom (body self) s).
Proof.
  unfold CmdRemoveBoardItems.performExecute, UndoCommandGroup.performExecute.
  destruct (run cmdExecute createRandom (body self) s) as [[] s1|e s1] eqn:Hrun;
    [|done].
  unfold leaveScope. intros [= <- <-].
  destruct (body_requested cmdExecute createRandom self s s1 Hrun)
    as (forSegments & Hreq & Hseg & Hall).
  exists forSegments. split_and!; try done.
  by apply (run_Ok_childs _ _ cmdExecute createRandom _ _ tt).
Qed.

Lemma performExecute_requests_witness :
  ∃ s',
    CmdRemoveBoardItems.performExecute Semantics.cmdExecute Semantics.cmdUndo
      exampleRandom exampleRemoveAll (created exampleProject 0) = Ok true s' ∧
    requested Semantics.cmdExecute exampleRandom (body exampleRemoveAll)
      (created exampleProject 0) =
    [CmdBoardNetSegmentRemove exampleSegment; CmdRemoveUnusedLibraryElements ∅ ∅] ∧
    length (mChilds s') = 2.
Proof.
  destruct (CmdRemoveBoardItems.performExecute Semantics.cmdExecute
              Semantics.cmdUndo exampleRandom exampleRemoveAll
              (created exampleProject 0)) as [b s'|e s'] eqn:Hrun.
  - destruct (performExecute_requests _ _ _ _ _ _ _ Hrun)
      as (forSegments & _ & _ & _ & Hlen).
    exists s'. split; [|split].
    + f_equal. vm_compute in Hrun. by injection Hrun as <- _.
    + reflexivity.
    + rewrite Hlen. reflexivity.
  - vm_compute in Hrun. discriminate Hrun.
Defined.

(** X8: [performExecute] of a new command returns false only when there is
    nothing at all to remove, and then it has done nothing: no child, no
    call of the splitter, no change of the model. *)
Theorem performExecute_false_iff cmdExecute cmdUndo createRandom self m seed s' :
  CmdRemoveBoardItems.performExecute cmdExecute cmdUndo createRandom self
    (created m seed) = Ok false s' ↔
  self = CmdRemoveBoardItems.mk [] [] [] [] [] [] [] ∧ s' = created m seed.
Proof.
  split; [|by intros [-> ->]].
  unfold CmdRemoveBoardItems.performExecute, UndoCommandGroup.performExecute.
  destruct (run cmdExecute createRandom (body self) (created m seed))
    as [[] s1|e s1] eqn:Hrun; [|done].
  unfold leaveScope. intros [= Hb <-].
  apply bool_decide_eq_false in Hb.
  pose proof (run_Ok_childs _ _ cmdExecute createRandom _ _ tt _ Hrun) as Hlen.
  simpl in Hlen.
  destruct (body_requested cmdExecute createRandom self _ s1 Hrun)
    as (forSegments & Hreq & _ & Hall).
  destruct (requested cmdExecute createRandom (body self) (created m seed))
    as [|c cs]; [|simpl in Hlen; lia].
  symmetry in Hreq.
  repeat match type of Hreq with
         | _ ++ _ = [] => apply app_eq_nil in Hreq as [? Hreq]
         end.
  repeat match goal with
         | H : _ <$> _ = [] |- _ => apply fmap_nil_inv in H
         end.
  subst forSegments.
  assert (netSegmentItemsToRemove self = []) as Hnil.
  { destruct (netSegmentItemsToRemove self) as [|entry l]; [done|].
    assert (CmdBoardNetSegmentRemove entry.1 ∈ []) as Hbad
      by (apply Hall; by left).
    by apply elem_of_nil in Hbad. }
  apply netSegmentItemsToRemove_nil in Hnil as [Hv Hn].
  destruct self as [devices vs ns planes polygons texts holes]. simpl in *.
  subst.
  assert (texts = []) as ->.
  { destruct texts as [|text l]; [done|]. exfalso. simpl in *.
    destruct (BI_StrokeText.getFootprint text); simpl in *; done. }
  split; [done|].
  vm_compute in Hrun. by injection Hrun as <-.
Qed.

(** *** Creating a sub-segment anew *)

Section CreateSubNetSegment.

Variable cmdExecute : Command → Project.t → ExecResult Project.t Command.
Variable createRandom : nat → Uuid.

Local Abbreviation run' := (@run Project.t Command cmdExecute createRandom).
Local Abbreviation Elements := CmdBoardNetSegmentAddElements.t.
Local Abbreviation St := (State Project.t Command).

Lemma run_addNetPoints (nps : list NetPoint.t) :
  ∀ (cmd : Elements) (npm : gmap Uuid BI_NetLineAnchor) (s : St),
  ∃ cmd' npm' new,
    run' (foreachWith nps (cmd, npm)
            (λ acc np,
               let! uuid := createRandomUuid in
               let added := CmdBoardNetSegmentAddElements.addNetPoint
                              (NetPoint.getPosition np) uuid acc.1 in
               Ret (added.1, <[NetPoint.getUuid np:=added.2]> acc.2))) s
    = Ok (cmd', npm')
         (mkState (model s) (mChilds s) (drawn s + length nps) (log s)) ∧
    CmdBoardNetSegmentAddElements.mNetSegment cmd'
      = CmdBoardNetSegmentAddElements.mNetSegment cmd ∧
    CmdBoardNetSegmentAddElements.mVias cmd'
      = CmdBoardNetSegmentAddElements.mVias cmd ∧
    CmdBoardNetSegmentAddElements.mNetLines cmd'
      = CmdBoardNetSegmentAddElements.mNetLines cmd ∧
    CmdBoardNetSegmentAddElements.mNetPoints cmd'
      = CmdBoardNetSegmentAddElements.mNetPoints cmd ++ new ∧
    NetPoint.getPosition <$> new = NetPoint.getPosition <$> nps ∧
    NetPoint.getUuid <$> new = createRandom <$> seq (drawn s) (length nps) ∧
    (∀ u, u ∈ NetPoint.getUuid <$> nps →
          ∃ a u', npm' !! u = Some a ∧ toTraceAnchor a = netPoint u' ∧
                  u' ∈ createRandom <$> seq (drawn s) (length nps)) ∧
    (∀ u, u ∉ NetPoint.getUuid <$> nps → npm' !! u = npm !! u).
Proof.
  induction nps as [|np nps IH]; intros cmd npm s.
  - exists cmd, npm, []. simpl. rewrite Nat.add_0_r, app_nil_r.
    split_and!; try done.
    + by destruct s.
    + intros u Hu. by apply elem_of_nil in Hu.
  - cbn [foreachWith]. rewrite run_bind. simpl.
    destruct (IH (CmdBoardNetSegmentAddElements.addNetPoint
                    (NetPoint.getPosition np) (createRandom (drawn s)) cmd).1
                 (<[NetPoint.getUuid np :=
                      mkNetLineAnchor (netPoint (createRandom (drawn s)))
                        (NetPoint.getPosition np)]> npm)
                 (mkState (model s) (mChilds s) (S (drawn s)) (log s)))
      as (cmd' & npm' & new & Hrun & H1 & H2 & H3 & H4 & H5 & H6 & H7 & H8).
    simpl in *.
    exists cmd', npm',
      (NetPoint.create (createRandom (drawn s)) (NetPoint.getPosition np) :: new).
    split_and!; try done.
    + rewrite Hrun. do 2 f_equal. lia.
    + by rewrite H4, <- (assoc (++)).
    + rewrite fmap_cons. simpl. by f_equal.
    + rewrite fmap_cons. simpl. by f_equal.
    + intros u Hu.
      destruct (decide (u ∈ NetPoint.getUuid <$> nps)) as [Hin|Hnin].
      * destruct (H7 u Hin) as (a & u' & ? & ? & ?).
        exists a, u'. split_and!; try done. by right.
      * rewrite (H8 u Hnin).
        apply elem_of_cons in Hu as [->|?]; [|done].
        rewrite lookup_insert_eq. eexists _, _. split_and!; try done.
        by left.
    + intros u Hu.
      apply not_elem_of_cons in Hu as [Hne Hnin].
      rewrite (H8 u Hnin). by rewrite lookup_insert_ne.
Qed.

Lemma run_addVias (vs : list Via) :
  ∀ (cmd : Elements) (vm : gmap Uuid BI_NetLineAnchor) (s : St),
  ∃ cmd' vm',
    run' (foreachWith vs (cmd, vm)
            (λ acc v,
               let added := CmdBoardNetSegmentAddElements.addVia v acc.1 in
               Ret (added.1, <[viaUuid v:=added.2]> acc.2))) s
    = Ok (cmd', vm') s ∧
    CmdBoardNetSegmentAddElements.mNetSegment cmd'
      = CmdBoardNetSegmentAddElements.mNetSegment cmd ∧
    CmdBoardNetSegmentAddElements.mVias cmd'
      = CmdBoardNetSegmentAddElements.mVias cmd ++ vs ∧
    CmdBoardNetSegmentAddElements.mNetPoints cmd'
      = CmdBoardNetSegmentAddElements.mNetPoints cmd ∧
    CmdBoardNetSegmentAddElements.mNetLines cmd'
      = CmdBoardNetSegmentAddElements.mNetLines cmd ∧
    (∀ u, u ∈ viaUuid <$> vs →
          ∃ a, vm' !! u = Some a ∧ toTraceAnchor a = via u) ∧
    (∀ u, u ∉ viaUuid <$> vs → vm' !! u = vm !! u).
Proof.
  induction vs as [|v vs IH]; intros cmd vm s.
  - exists cmd, vm. simpl. rewrite app_nil_r. split_and!; try done.
    intros u Hu. by apply elem_of_nil in Hu.
  - cbn [foreachWith]. rewrite run_bind. simpl.
    destruct (IH (CmdBoardNetSegmentAddElements.addVia v cmd).1
                 (<[viaUuid v :=
                      mkNetLineAnchor (via (viaUuid v)) (viaPosition v)]> vm) s)
      as (cmd' & vm' & Hrun & H1 & H2 & H3 & H4 & H5 & H6).
    simpl in *. exists cmd', vm'. split_and!; try done.
    + by rewrite H2, <- (assoc (++)).
    + intros u Hu.
      destruct (decide (u ∈ viaUuid <$> vs)) as [Hin|Hnin]; [by apply H5|].
      rewrite (H6 u Hnin).
      apply elem_of_cons in Hu as [->|?]; [|done].
      rewrite lookup_insert_eq. by eexists.
    + intros u Hu.
      apply not_elem_of_cons in Hu as [Hne Hnin].
      rewrite (H6 u Hnin). by rewrite lookup_insert_ne.
Qed.

Section Maps.

(** The two maps of [splitUpNetSegment] when the loop over the traces
    starts: every net point of the sub-segment is mapped to one of the
    new net points [points], every via to itself, and nothing else is
    mapped. *)
Variable subsegment : Splitter.Segment.
Variable points : list NetPoint.t.
Variables netPointMap viaMap : gmap Uuid BI_NetLineAnchor.

Hypothesis netPointMap_in : ∀ u,
  u ∈ NetPoint.getUuid <$> segmentNetPoints subsegment →
  ∃ a u', netPointMap !! u = Some a ∧ toTraceAnchor a = netPoint u' ∧
          u' ∈ NetPoint.getUuid <$> points.
Hypothesis netPointMap_out : ∀ u,
  u ∉ NetPoint.getUuid <$> segmentNetPoints subsegment → netPointMap !! u = None.
Hypothesis viaMap_in : ∀ u,
  u ∈ viaUuid <$> segmentVias subsegment →
  ∃ a, viaMap !! u = Some a ∧ toTraceAnchor a = via u.
Hypothesis viaMap_out : ∀ u,
  u ∉ viaUuid <$> segmentVias subsegment → viaMap !! u = None.

Lemma convertAnchor_resolvable mBoard r :
  resolvable subsegment mBoard r →
  ∃ a, convertAnchor r netPointMap viaMap mBoard = Some a ∧
       reconnected points r (toTraceAnchor a).
Proof.
  destruct r as [u|u|d p]; simpl.
  - intros Hu. destruct (netPointMap_in u Hu) as (a & u' & Ha & Hr & Hin).
    exists a. split; [done|]. by exists u'.
  - intros Hu. destruct (viaMap_in u Hu) as (a & Ha & Hr). by exists a.
  - intros [x Hx]. unfold convertAnchor. simpl.
    destruct (Board.getDeviceInstanceByComponentUuid d mBoard) as [device|];
      [|done].
    simpl in Hx. rewrite Hx. simpl. by eexists.
Qed.

Lemma convertAnchor_unresolvable mBoard r :
  ¬ resolvable subsegment mBoard r →
  convertAnchor r netPointMap viaMap mBoard = None.
Proof.
  destruct r as [u|u|d p]; simpl; intros Hr.
  - by apply netPointMap_out.
  - by apply viaMap_out.
  - unfold convertAnchor. simpl.
    destruct (Board.getDeviceInstanceByComponentUuid d mBoard) as [device|];
      [|done].
    simpl in Hr. destruct (BI_Device.getPad p device); [|done].
    destruct Hr. by eexists.
Qed.

Local Abbreviation traceBody :=
  (λ (cmd : Elements) (trace : Trace),
     let! project := getModel in
     let mBoard := Project.getBoard project in
     let startPoint :=
       convertAnchor (getStartPoint trace) netPointMap viaMap mBoard in
     let endPoint :=
       convertAnchor (getEndPoint trace) netPointMap viaMap mBoard in
     let layer := Board.getLayer (getLayer trace) mBoard in
     match startPoint, endPoint, layer with
     | Some s, Some e, Some l =>
         let! uuid := createRandomUuid in
         Ret (CmdBoardNetSegmentAddElements.addNetLine
                s e l (getWidth trace) uuid cmd).1
     | _, _, _ => Throw (LogicError "cmdremoveboarditems.cpp" 233)
     end).

Lemma run_traceBody_Ok cmd trace (s : St) :
  traceResolvable subsegment (Project.getBoard (model s)) trace →
  ∃ line,
    run' (traceBody cmd trace) s =
      Ok (CmdBoardNetSegmentAddElements.mk
            (CmdBoardNetSegmentAddElements.mNetSegment cmd)
            (CmdBoardNetSegmentAddElements.mVias cmd)
            (CmdBoardNetSegmentAddElements.mNetPoints cmd)
            (CmdBoardNetSegmentAddElements.mNetLines cmd ++ [line]))
         (mkState (model s) (mChilds s) (S (drawn s)) (log s)) ∧
    recreated points trace line.
Proof.
  intros (Hs & He & Hl). simpl.
  destruct (convertAnchor_resolvable _ _ Hs) as (a & -> & Ha).
  destruct (convertAnchor_resolvable _ _ He) as (b & -> & Hb).
  unfold Board.getLayer. rewrite decide_True by done. simpl.
  eexists. split; [done|]. by split_and!.
Qed.

Lemma run_traceBody_Err cmd trace (s : St) :
  ¬ traceResolvable subsegment (Project.getBoard (model s)) trace →
  run' (traceBody cmd trace) s = Err (LogicError "cmdremoveboarditems.cpp" 233) s.
Proof.
  intros Hnot. simpl.
  destruct (decide (resolvable subsegment (Project.getBoard (model s))
                      (getStartPoint trace))) as [Hs|Hs];
    [|by rewrite (convertAnchor_unresolvable _ _ Hs)].
  destruct (convertAnchor_resolvable _ _ Hs) as (a & -> & _).
  destruct (decide (resolvable subsegment (Project.getBoard (model s))
                      (getEndPoint trace))) as [He|He];
    [|by rewrite (convertAnchor_unresolvable _ _ He)].
  destruct (convertAnchor_resolvable _ _ He) as (b & -> & _).
  unfold Board.getLayer. case_decide as Hl; [|done].
  destruct Hnot. by split_and!.
Qed.

Lemma run_addTraces_Ok (traces : list Trace) : ∀ (cmd : Elements) (s : St),
  (∀ t, t ∈ traces → traceResolvable subsegment (Project.getBoard (model s)) t) →
  ∃ lines,
    run' (foreachWith traces cmd traceBody) s =
      Ok (CmdBoardNetSegmentAddElements.mk
            (CmdBoardNetSegmentAddElements.mNetSegment cmd)
            (CmdBoardNetSegmentAddElements.mVias cmd)
            (CmdBoardNetSegmentAddElements.mNetPoints cmd)
            (CmdBoardNetSegmentAddElements.mNetLines cmd ++ lines))
         (mkState (model s) (mChilds s) (drawn s + length traces) (log s)) ∧
    Forall2 (recreated points) traces lines.
Proof.
  induction traces as [|t traces IH]; intros cmd s Hall.
  - exists []. simpl. rewrite Nat.add_0_r, app_nil_r. split; [|constructor].
    by destruct cmd, s.
  - rewrite run_foreachWith_cons. cbv beta.
    destruct (run_traceBody_Ok cmd t s) as (line & Hr & Hline);
      [apply Hall; by left|].
    rewrite Hr. clear Hr.
    destruct (IH (CmdBoardNetSegmentAddElements.mk
                    (CmdBoardNetSegmentAddElements.mNetSegment cmd)
                    (CmdBoardNetSegmentAddElements.mVias cmd)
                    (CmdBoardNetSegmentAddElements.mNetPoints cmd)
                    (CmdBoardNetSegmentAddElements.mNetLines cmd ++ [line]))
                 (mkState (model s) (mChilds s) (S (drawn s)) (log s)))
      as (lines & -> & Hlines).
    { intros t' Ht'. apply Hall. by right. }
    exists (line :: lines). simpl. rewrite <- (assoc (++)). simpl.
    split; [|by constructor]. do 2 f_equal. lia.
Qed.

Lemma run_addTraces_Err (traces : list Trace) : ∀ (cmd : Elements) (s : St) t,
  t ∈ traces →
  ¬ traceResolvable subsegment (Project.getBoard (model s)) t →
  ∃ d,
    run' (foreachWith traces cmd traceBody) s =
      Err (LogicError "cmdremoveboarditems.cpp" 233)
          (mkState (model s) (mChilds s) d (log s)).
Proof.
  induction traces as [|t0 traces IH]; intros cmd s t Ht Hnot.
  - by apply elem_of_nil in Ht.
  - rewrite run_foreachWith_cons. cbv beta.
    destruct (decide (traceResolvable subsegment (Project.getBoard (model s)) t0))
      as [Hyes|Hno].
    + destruct (run_traceBody_Ok cmd t0 s Hyes) as (line & Hr & _).
      rewrite Hr. clear Hr.
      apply elem_of_cons in Ht as [->|Ht]; [done|].
      destruct (IH (CmdBoardNetSegmentAddElements.mk
                      (CmdBoardNetSegmentAddElements.mNetSegment cmd)
                      (CmdBoardNetSegmentAddElements.mVias cmd)
                      (CmdBoardNetSegmentAddElements.mNetPoints cmd)
                      (CmdBoardNetSegmentAddElements.mNetLines cmd ++ [line]))
                   (mkState (model s) (mChilds s) (S (drawn s)) (log s)) t Ht Hnot)
        as (d & ->).
      by exists d.
    + pose proof (run_traceBody_Err cmd t0 s Hno) as Hr.
      rewrite Hr. exists (drawn s). by destruct s.
Qed.

End Maps.


(** X10: the other way round: a trace with an end point that is not found, or
    on a layer the board does not have, stops the creation with
    [LogicError] at line 233, after the new net segment was added and
    before its elements are. *)
Theorem createSubNetSegment_dangling netsegment subsegment (s : St)
    newNetSegment m1 trace :
  cmdExecute
    (CmdBoardNetSegmentAdd
       (BI_NetSegment.mk (createRandom (drawn s))
          (BI_NetSegment.getNetSignal netsegment) [] [] [] false))
    (model s) = Executed (CmdBoardNetSegmentAdd newNetSegment) m1 →
  trace ∈ Splitter.traces subsegment →
  ¬ traceResolvable subsegment (Project.getBoard m1) trace →
  ∃ s',
    run' (createSubNetSegment netsegment subsegment) s =
    Err (LogicError "cmdremoveboarditems.cpp" 233) s' ∧
    model s' = m1 ∧
    mChilds s' = mChilds s ++ [CmdBoardNetSegmentAdd newNetSegment] ∧
    log s' = log s ++ [EvExecute (CmdBoardNetSegmentAdd newNetSegment)].
Proof.
  intros Hadd Htrace Hnot. unfold createSubNetSegment.
  rewrite run_bind. cbn [run createRandomUuid].
  rewrite run_bind. cbn [run execNewChildCmd model]. rewrite Hadd.
  rewrite run_bind. cbn [run deref getNetSegment].
  rewrite run_bind. cbn [model mChilds drawn log].
  destruct (run_addNetPoints (segmentNetPoints subsegment)
              (CmdBoardNetSegmentAddElements.create newNetSegment) ∅
              (mkState m1 (mChilds s ++ [CmdBoardNetSegmentAdd newNetSegment])
                 (S (drawn s))
                 (log s ++ [EvExecute (CmdBoardNetSegmentAdd newNetSegment)])))
    as (cmd1 & npm & new & Hrun1 & Hs1 & Hv1 & Hl1 & Hp1 & Hpos & Huuid
        & Hin1 & Hout1).
  cbv beta zeta in Hrun1. cbv beta zeta. rewrite Hrun1. clear Hrun1.
  cbn [model mChilds drawn log fst snd] in *.
  rewrite run_bind.
  destruct (run_addVias (segmentVias subsegment) cmd1 ∅
              (mkState m1 (mChilds s ++ [CmdBoardNetSegmentAdd newNetSegment])
                 (S (drawn s) + length (segmentNetPoints subsegment))
                 (log s ++ [EvExecute (CmdBoardNetSegmentAdd newNetSegment)])))
    as (cmd2 & vm & Hrun2 & Hs2 & Hv2 & Hp2 & Hl2 & Hin2 & Hout2).
  cbv beta zeta in Hrun2. cbv beta zeta. rewrite Hrun2. clear Hrun2.
  cbn [model mChilds drawn log fst snd] in *.
  rewrite run_bind.
  rewrite <- Huuid in Hin1.
  destruct (run_addTraces_Err subsegment new npm vm Hin1 Hout1 Hin2 Hout2
              (Splitter.traces subsegment) cmd2
              (mkState m1 (mChilds s ++ [CmdBoardNetSegmentAdd newNetSegment])
                 (S (drawn s) + length (segmentNetPoints subsegment))
                 (log s ++ [EvExecute (CmdBoardNetSegmentAdd newNetSegment)]))
              trace Htrace Hnot) as (d & Hrun3).
  cbv beta zeta in Hrun3. rewrite Hrun3. clear Hrun3.
  by eexists.
Qed.

(** *** Splitting a net segment up *)

Local Abbreviation requested' :=
  (@requested Project.t Command cmdExecute createRandom).

Lemma requested_nil {A} (p : Prog A) (s : St) :
  ExecsOnly (λ _, False) p → requested' p s = [].
Proof.
  intros Hp. pose proof (ExecsOnly_requested _ _ cmdExecute createRandom _ _ Hp s) as Hall.
  destruct (requested' p s) as [|c cs]; [done|].
  by apply Forall_cons in Hall as [[] _].
Qed.

Lemma run_addTraces_inv (netPointMap viaMap : gmap Uuid BI_NetLineAnchor)
    (traces : list Trace) : ∀ (cmd : Elements) (s : St) r s',
  run' (foreachWith traces cmd
          (λ cmd trace,
             let! project := getModel in
             let mBoard := Project.getBoard project in
             let startPoint :=
               convertAnchor (getStartPoint trace) netPointMap viaMap mBoard in
             let endPoint :=
               convertAnchor (getEndPoint trace) netPointMap viaMap mBoard in
             let layer := Board.getLayer (getLayer trace) mBoard in
             match startPoint, endPoint, layer with
             | Some s, Some e, Some l =>
                 let! uuid := createRandomUuid in
                 Ret (CmdBoardNetSegmentAddElements.addNetLine
                        s e l (getWidth trace) uuid cmd).1
             | _, _, _ => Throw (LogicError "cmdremoveboarditems.cpp" 233)
             end)) s = Ok r s' →
  CmdBoardNetSegmentAddElements.mVias r
    = CmdBoardNetSegmentAddElements.mVias cmd ∧
  CmdBoardNetSegmentAddElements.mNetPoints r
    = CmdBoardNetSegmentAddElements.mNetPoints cmd ∧
  length (CmdBoardNetSegmentAddElements.mNetLines r)
    = length (CmdBoardNetSegmentAddElements.mNetLines cmd) + length traces.
Proof.
  induction traces as [|t traces IH]; intros cmd s r s' Hrun.
  - simpl in Hrun. injection Hrun as <- _. simpl. split_and!; try done.
  - rewrite run_foreachWith_cons in Hrun. cbv beta zeta in Hrun.
    cbn [run bind getModel] in Hrun.
    destruct (convertAnchor (getStartPoint t) _ _ _) as [a|]; [|done].
    destruct (convertAnchor (getEndPoint t) _ _ _) as [b|]; [|done].
    destruct (Board.getLayer _ _) as [l|]; [|done].
    cbn [run bind createRandomUuid] in Hrun.
    apply IH in Hrun as (H1 & H2 & H3).
    cbn [CmdBoardNetSegmentAddElements.addNetLine fst
         CmdBoardNetSegmentAddElements.mVias
         CmdBoardNetSegmentAddElements.mNetPoints
         CmdBoardNetSegmentAddElements.mNetLines] in *.
    rewrite length_app in H3. simpl in *. split_and!; try done. lia.
Qed.

Lemma createSubNetSegment_requested netsegment subsegment (s s' : St) :
  run' (createSubNetSegment netsegment subsegment) s = Ok tt s' →
  recreatedBy netsegment subsegment
    (requested' (createSubNetSegment netsegment subsegment) s).
Proof.
  unfold createSubNetSegment. intros Hrun.
  rewrite run_bind in Hrun. cbn [run createRandomUuid] in Hrun.
  rewrite requested_bind. cbn [requested run createRandomUuid app].
  rewrite run_bind in Hrun. cbn [run execNewChildCmd model] in Hrun.
  rewrite requested_bind. cbn [requested run execNewChildCmd model app].
  destruct (cmdExecute _ (model s)) as [c1 m1|e m1]; [|done].
  rewrite run_bind in Hrun. rewrite requested_bind.
  destruct (getNetSegment c1) as [newNetSegment|]; [|done].
  cbn [run requested deref app model mChilds drawn log] in *.
  rewrite run_bind in Hrun. rewrite requested_bind.
  rewrite requested_nil
    by (apply ExecsOnly_foreachWith; intros; repeat constructor).
  destruct (run_addNetPoints (segmentNetPoints subsegment)
              (CmdBoardNetSegmentAddElements.create newNetSegment) ∅
              (mkState m1 (mChilds s ++ [c1]) (S (drawn s))
                 (log s ++ [EvExecute c1])))
    as (cmd1 & npm & new & Hrun1 & Hs1 & Hv1 & Hl1 & Hp1 & Hpos & Huuid & _).
  cbv beta zeta in Hrun1, Hrun. cbv beta zeta.
  rewrite Hrun1 in Hrun. rewrite Hrun1. clear Hrun1.
  cbn [model mChilds drawn log fst snd app] in *.
  rewrite run_bind in Hrun. rewrite requested_bind.
  rewrite requested_nil
    by (apply ExecsOnly_foreachWith; intros; repeat constructor).
  destruct (run_addVias (segmentVias subsegment) cmd1 ∅
              (mkState m1 (mChilds s ++ [c1])
                 (S (drawn s) + length (segmentNetPoints subsegment))
                 (log s ++ [EvExecute c1])))
    as (cmd2 & vm & Hrun2 & Hs2 & Hv2 & Hp2 & Hl2 & _).
  cbv beta zeta in Hrun2. rewrite Hrun2 in Hrun. rewrite Hrun2. clear Hrun2.
  cbn [model mChilds drawn log fst snd app] in *.
  rewrite run_bind in Hrun. rewrite requested_bind.
  rewrite requested_nil.
  2:{ apply ExecsOnly_foreachWith. intros a t _. constructor. intros m.
      cbv zeta. repeat case_match; repeat constructor. }
  match type of Hrun with
  | match ?r with _ => _ end = _ => destruct r as [cmd3 s3|e3 s3] eqn:Hrun3
  end; [|done].
  apply run_addTraces_inv in Hrun3 as (Hv3 & Hp3 & Hl3).
  cbn [requested execNewChildCmd app].
  exists (createRandom (drawn s)), cmd3. split.
  - f_equal. cbn [run requested bind execNewChildCmd] in *.
    by destruct (cmdExecute _ (model s3)).
  - rewrite Hv3, Hp3, Hl3, Hv2, Hp2, Hl2, Hv1, Hp1, Hl1.
    cbn [CmdBoardNetSegmentAddElements.create
         CmdBoardNetSegmentAddElements.mVias
         CmdBoardNetSegmentAddElements.mNetPoints
         CmdBoardNetSegmentAddElements.mNetLines app length].
    split; [done|]. split; [|done].
    by rewrite <- (length_fmap NetPoint.getPosition new), Hpos, length_fmap.
Qed.

Lemma requested_foreach_each {X} (P : X → list Command → Prop)
    (body : X → Prog unit) (l : list X) : ∀ (s s' : St),
  run' (foreach l body) s = Ok tt s' →
  (∀ x s1 s2, x ∈ l → run' (body x) s1 = Ok tt s2 → P x (requested' (body x) s1)) →
  ∃ css, requested' (foreach l body) s = concat css ∧ Forall2 P l css.
Proof.
  induction l as [|x l IH]; intros s s' Hrun Hb.
  - exists []. split; [done|constructor].
  - rewrite run_foreach_cons in Hrun.
    destruct (run' (body x) s) as [[] s1|e s1] eqn:Hx; [|done].
    destruct (IH s1 s' Hrun) as (css & Hcss & Hall).
    { intros y sa sb Hy. apply Hb. by right. }
    exists (requested' (body x) s :: css). split.
    + cbn [foreach]. rewrite requested_bind, Hx, Hcss. done.
    + constructor; [|done]. apply (Hb x s s1); [by left|done].
Qed.

(** X11: a split-up that returns has handed over, first, the removal of the
    whole net segment, and then, for each sub-segment the splitter
    answered, in order, the addition of a new, empty, unselected net
    segment of the same net signal followed by the addition of its
    elements: the vias of the sub-segment, as many net points as the
    sub-segment has, and as many net lines as it has traces. *)
Theorem splitUpNetSegment_requests netsegment itemsToRemove (s s' : St) :
  run' (splitUpNetSegment netsegment itemsToRemove) s = Ok tt s' →
  ∃ css,
    requested' (splitUpNetSegment netsegment itemsToRemove) s
      = CmdBoardNetSegmentRemove netsegment :: concat css ∧
    Forall2 (recreatedBy netsegment)
      (Splitter.split (splitterFor netsegment itemsToRemove)) css.
Proof.
  unfold splitUpNetSegment. intros Hrun.
  cbn [run requested bind callSplitter execNewChildCmd model] in *.
  destruct (cmdExecute _ (model s)) as [c1 m1|e m1]; [|done].
  cbn [run requested bind] in *.
  destruct (requested_foreach_each (recreatedBy netsegment)
              (createSubNetSegment netsegment)
              (Splitter.split (splitterFor netsegment itemsToRemove)) _ _ Hrun)
    as (css & -> & Hall).
  { intros sub s1 s2 _. apply createSubNetSegment_requested. }
  by exists css.
Qed.

End CreateSubNetSegment.

Lemma splitUpNetSegment_requests_witness :
  ∃ s' css,
    run Semantics.cmdExecute exampleRandom
      (splitUpNetSegment exampleSegment (mkItems {[1]} ∅ {[10]}))
      (created exampleProject 0) = Ok tt s' ∧
    requested Semantics.cmdExecute exampleRandom
      (splitUpNetSegment exampleSegment (mkItems {[1]} ∅ {[10]}))
      (created exampleProject 0)
      = CmdBoardNetSegmentRemove exampleSegment :: concat css ∧
    length css = 1.
Proof.
  destruct (run Semantics.cmdExecute exampleRandom
              (splitUpNetSegment exampleSegment (mkItems {[1]} ∅ {[10]}))
              (created exampleProject 0)) as [[] s'|e s'] eqn:Hrun.
  - destruct (splitUpNetSegment_requests _ _ _ _ _ _ Hrun) as (css & Hreq & Hall).
    exists s', css. split; [done|]. split; [exact Hreq|].
    apply Forall2_length in Hall. rewrite <- Hall. vm_compute. reflexivity.
  - vm_compute in Hrun. discriminate Hrun.
Defined.


Lemma createSubNetSegment_dangling_witness :
  ∃ s',
    run Semantics.cmdExecute exampleRandom
      (createSubNetSegment exampleSegment exampleSubsegmentDangling)
      (created exampleProject 0) =
    Err (LogicError "cmdremoveboarditems.cpp" 233) s' ∧
    length (mChilds s') = 1.
Proof.
  edestruct (createSubNetSegment_dangling Semantics.cmdExecute exampleRandom
               exampleSegment exampleSubsegmentDangling (created exampleProject 0))
    with (trace := exampleLine1) as (s' & Hrun & _ & Hc & _).
  - reflexivity.
  - by left.
  - compute_done.
  - exists s'. split; [done|]. by rewrite Hc.
Defined.

(** *** With the child commands as modelled *)

Section Modelled.

Import Semantics SemanticsFacts.

Variable createRandom : nat → Uuid.

Local Abbreviation run' :=
  (@run Project.t Command Semantics.cmdExecute createRandom).
Local Abbreviation St := (State Project.t Command).

(** A program whose commands leave a table alone leaves it alone. *)
Lemma run_frame {A V} (tbl : Project.t → V) (Q : Command → Prop) (prog : Prog A) :
  (∀ c p c' p', Q c → Semantics.cmdExecute c p = Executed c' p' → tbl p' = tbl p) →
  ExecsOnly Q prog →
  ∀ (s : St) a s', run' prog s = Ok a s' → tbl (model s') = tbl (model s).
Proof.
  intros Hcmd Hp.
  induction Hp as [a|e|c k HQ Hk IH|k Hk IH|k Hk IH|k Hk IH|sp k Hk IH];
    intros s b s' Hrun; simpl in Hrun.
  - by injection Hrun as _ <-.
  - done.
  - destruct (Semantics.cmdExecute c (model s)) as [c' m'|e m'] eqn:Hc; [|done].
    apply IH in Hrun. simpl in Hrun. rewrite Hrun. by eapply Hcmd.
  - by apply IH in Hrun.
  - by apply IH in Hrun.
  - by apply IH in Hrun.
  - by apply IH in Hrun.
Qed.

(** Removing the elements of a list from a table, one command each. *)
Lemma run_removeAll {X V} (mkCmd : X → Command) (key : X → Uuid) (val : X → V)
    (tbl : Project.t → gmap Uuid V) :
  (∀ x p c' p', Semantics.cmdExecute (mkCmd x) p = Executed c' p' →
                tbl p !! key x = Some (val x) ∧ tbl p' = delete (key x) (tbl p)) →
  ∀ l (s s' : St),
    run' (foreach l (λ x, do! execNewChildCmd (mkCmd x) in Ret tt)) s = Ok tt s' →
    (∀ k, tbl (model s') !! k =
          if decide (k ∈ key <$> l) then None else tbl (model s) !! k) ∧
    (∀ x, x ∈ l → tbl (model s) !! key x = Some (val x)).
Proof.
  intros Hcmd. induction l as [|x l IH]; intros s s' Hrun.
  - simpl in Hrun. injection Hrun as <-. split; [done|].
    intros x Hx. by apply elem_of_nil in Hx.
  - rewrite run_foreach_cons in Hrun. simpl in Hrun.
    destruct (Semantics.cmdExecute (mkCmd x) (model s)) as [c' m'|e m'] eqn:Hc;
      [|done].
    simpl in Hrun. destruct (Hcmd _ _ _ _ Hc) as [Hx Hm'].
    destruct (IH _ _ Hrun) as [Hk Hl]. simpl in Hk, Hl. split.
    + intros k. rewrite Hk, Hm', fmap_cons.
      destruct (decide (k = key x)) as [->|Hne].
      * rewrite lookup_delete_eq. rewrite (decide_True (P := key x ∈ key x :: _));
          [|by left]. by case_decide.
      * rewrite lookup_delete_ne by done.
        destruct (decide (k ∈ key <$> l)) as [Hin|Hnin].
        -- rewrite decide_True; [done|]. by right.
        -- rewrite decide_False; [done|]. apply not_elem_of_cons. by split.
    + intros y [->|Hy]%elem_of_cons; [done|].
      specialize (Hl y Hy). rewrite Hm' in Hl.
      by apply lookup_delete_Some in Hl as [_ ?].
Qed.

Lemma run_frames {A} (Q : Command → Prop) (prog : Prog A) :
  ExecsOnly Q prog →
  ∀ (s : St) a s', run' prog s = Ok a s' →
  ((∀ c, Q c → tableOf c ≠ Planes) →
   Board.planes (Project.getBoard (model s'))
     = Board.planes (Project.getBoard (model s))) ∧
  ((∀ c, Q c → tableOf c ≠ Polygons) →
   Board.polygons (Project.getBoard (model s'))
     = Board.polygons (Project.getBoard (model s))) ∧
  ((∀ c, Q c → tableOf c ≠ Holes) →
   Board.holes (Project.getBoard (model s'))
     = Board.holes (Project.getBoard (model s))).
Proof.
  intros Hp s a s' Hrun. split_and!; intros HQ.
  - refine (run_frame (λ p, Board.planes (Project.getBoard p)) Q prog _ Hp
              s a s' Hrun).
    intros c p c' p' Hc Hex. by apply (cmdExecute_frame c p c' p' Hex), HQ.
  - refine (run_frame (λ p, Board.polygons (Project.getBoard p)) Q prog _ Hp
              s a s' Hrun).
    intros c p c' p' Hc Hex. by apply (cmdExecute_frame c p c' p' Hex), HQ.
  - refine (run_frame (λ p, Board.holes (Project.getBoard p)) Q prog _ Hp
              s a s' Hrun).
    intros c p c' p' Hc Hex. by apply (cmdExecute_frame c p c' p' Hex), HQ.
Qed.

Ltac side :=
  let c := fresh "c" in
  let Hc := fresh "Hc" in
  let Heq := fresh "Heq" in
  intros c Hc Heq; try (destruct Hc as [Hc|Hc]); congruence.

Lemma removeNetSegmentItems_table entry :
  ExecsOnly (λ c, tableOf c = NetSegments) (removeNetSegmentItems entry).
Proof.
  eapply ExecsOnly_mono; [|apply removeNetSegmentItems_execs].
  intros c. by destruct c.
Qed.

Lemma foreach_exec_table {X} (mkCmd : X → Command) (l : list X) (tbl : Table) :
  (∀ x, tableOf (mkCmd x) = tbl) →
  ExecsOnly (λ c, tableOf c = tbl)
    (foreach l (λ x, do! execNewChildCmd (mkCmd x) in Ret tt) : Prog unit).
Proof.
  intros Hc. apply ExecsOnly_foreach. intros x _. simpl.
  constructor; [done|]. intros. constructor.
Qed.

(** X12: with the child commands as modelled: when [performExecute] returns,
    every plane, polygon and hole to remove was on the board, under its
    uuid, and is not any more; the other planes, polygons and holes of the
    board are as they were, and none was added. *)
Theorem remove_postcondition self (s : St) b s' :
  CmdRemoveBoardItems.performExecute Semantics.cmdExecute Semantics.cmdUndo
    createRandom self s = Ok b s' →
  let before := Project.getBoard (model s) in
  let after := Project.getBoard (model s') in
  (∀ k, Board.planes after !! k =
        if decide (k ∈ BI_Plane.getUuid <$> mPlanes self) then None
        else Board.planes before !! k) ∧
  (∀ plane, plane ∈ mPlanes self →
            Board.planes before !! BI_Plane.getUuid plane = Some plane) ∧
  (∀ k, Board.polygons after !! k =
        if decide (k ∈ (λ x, polygonUuid (BI_Polygon.getPolygon x))
                         <$> mPolygons self) then None
        else Board.polygons before !! k) ∧
  (∀ polygon, polygon ∈ mPolygons self →
              Board.polygons before !! polygonUuid (BI_Polygon.getPolygon polygon)
                = Some polygon) ∧
  (∀ k, Board.holes after !! k =
        if decide (k ∈ (λ x, holeUuid (BI_Hole.getHole x)) <$> mHoles self)
        then None
        else Board.holes before !! k) ∧
  (∀ hole, hole ∈ mHoles self →
           Board.holes before !! holeUuid (BI_Hole.getHole hole) = Some hole).
Proof.
  unfold CmdRemoveBoardItems.performExecute, UndoCommandGroup.performExecute.
  destruct (run' (body self) s) as [[] s8|e s8] eqn:Hrun; [|done].
  unfold leaveScope. intros [= <- <-]. cbv zeta.
  unfold body in Hrun.
  apply run_bind_Ok in Hrun as ([] & s1 & H1 & Hrun).
  apply run_bind_Ok in Hrun as ([] & s2 & H2 & Hrun).
  apply run_bind_Ok in Hrun as ([] & s3 & H3 & Hrun).
  apply run_bind_Ok in Hrun as ([] & s4 & H4 & Hrun).
  apply run_bind_Ok in Hrun as ([] & s5 & H5 & Hrun).
  apply run_bind_Ok in Hrun as ([] & s6 & H6 & H7).
  (* the net segments *)
  destruct (run_frames (λ c, tableOf c = NetSegments)
              (foreach (netSegmentItemsToRemove self) removeNetSegmentItems))
    with (2 := H1) as (Fp1 & Fg1 & Fh1).
  { apply ExecsOnly_foreach. intros entry _.
    apply removeNetSegmentItems_table. }
  (* the devices *)
  destruct (run_frames _ _ (foreach_exec_table CmdDeviceInstanceRemove
                              (mDeviceInstances self) Devices (λ _, eq_refl))
              _ _ _ H2) as (Fp2 & Fg2 & Fh2).
  (* the planes *)
  destruct (run_frames _ _ (foreach_exec_table CmdBoardPlaneRemove
                              (mPlanes self) Planes (λ _, eq_refl))
              _ _ _ H3) as (_ & Fg3 & Fh3).
  destruct (run_removeAll CmdBoardPlaneRemove BI_Plane.getUuid id
              (λ p, Board.planes (Project.getBoard p))) with (2 := H3)
    as [Rp Ip].
  { intros x p c' p' [-> Hafter]%outcome_Executed.
    apply fmap_Some in Hafter as (tbl & Htbl & ->).
    by apply removed_inv in Htbl as [? ->]. }
  (* the polygons *)
  destruct (run_frames _ _ (foreach_exec_table CmdBoardPolygonRemove
                              (mPolygons self) Polygons (λ _, eq_refl))
              _ _ _ H4) as (Fp4 & _ & Fh4).
  destruct (run_removeAll CmdBoardPolygonRemove
              (λ x, polygonUuid (BI_Polygon.getPolygon x)) id
              (λ p, Board.polygons (Project.getBoard p))) with (2 := H4)
    as [Rg Ig].
  { intros x p c' p' [-> Hafter]%outcome_Executed.
    apply fmap_Some in Hafter as (tbl & Htbl & ->).
    by apply removed_inv in Htbl as [? ->]. }
  (* the stroke texts *)
  destruct (run_frames (λ c, tableOf c = StrokeTexts ∨ tableOf c = Devices)
              (foreach (mStrokeTexts self) (removeStrokeText self))) with (2 := H5)
    as (Fp5 & Fg5 & Fh5).
  { apply ExecsOnly_foreach. intros text _. unfold removeStrokeText.
    destruct (BI_StrokeText.getFootprint text); [case_decide|];
      repeat (constructor || intros); by (left + right). }
  (* the holes *)
  destruct (run_frames _ _ (foreach_exec_table CmdBoardHoleRemove
                              (mHoles self) Holes (λ _, eq_refl))
              _ _ _ H6) as (Fp6 & Fg6 & _).
  destruct (run_removeAll CmdBoardHoleRemove
              (λ x, holeUuid (BI_Hole.getHole x)) id
              (λ p, Board.holes (Project.getBoard p))) with (2 := H6)
    as [Rh Ih].
  { intros x p c' p' [-> Hafter]%outcome_Executed.
    apply fmap_Some in Hafter as (tbl & Htbl & ->).
    by apply removed_inv in Htbl as [? ->]. }
  (* the library *)
  destruct (run_frames (λ c, tableOf c = Library)
              (let! count := getChildCount in
               if bool_decide (0 < count)
               then do! execNewChildCmd (CmdRemoveUnusedLibraryElements ∅ ∅) in
                    Ret tt
               else Ret tt)) with (2 := H7) as (Fp7 & Fg7 & Fh7).
  { constructor. intros n. destruct (bool_decide (0 < n));
      repeat (constructor || intros); done. }
  split_and!.
  - intros k. rewrite Fp7, Fp6, Fp5, Fp4, Rp, Fp2, Fp1 by side.
    done.
  - intros plane Hin. specialize (Ip plane Hin). simpl in Ip.
    by rewrite Fp2, Fp1 in Ip by side.
  - intros k. rewrite Fg7, Fg6, Fg5, Rg, Fg3, Fg2, Fg1 by side.
    done.
  - intros polygon Hin. specialize (Ig polygon Hin). simpl in Ig.
    by rewrite Fg3, Fg2, Fg1 in Ig by side.
  - intros k. rewrite Fh7, Rh, Fh5, Fh4, Fh3, Fh2, Fh1 by side.
    done.
  - intros hole Hin. specialize (Ih hole Hin). simpl in Ih.
    by rewrite Fh5, Fh4, Fh3, Fh2, Fh1 in Ih by side.
Qed.

End Modelled.

Lemma remove_postcondition_witness :
  ∃ s',
    CmdRemoveBoardItems.performExecute Semantics.cmdExecute Semantics.cmdUndo
      exampleRandom exampleRemoveShapes (created exampleProjectShapes 0)
    = Ok true s' ∧
    Board.polygons (Project.getBoard (model s')) !! 5 = None ∧
    Board.holes (Project.getBoard (model s')) !! 6 = None.
Proof.
  destruct (CmdRemoveBoardItems.performExecute Semantics.cmdExecute
              Semantics.cmdUndo exampleRandom exampleRemoveShapes
              (created exampleProjectShapes 0)) as [b s'|e s'] eqn:Hrun.
  - destruct (remove_postcondition _ _ _ _ _ Hrun)
      as (_ & _ & Hg & _ & Hh & _).
    exists s'. split; [|split].
    + f_equal. vm_compute in Hrun. by injection Hrun as <- _.
    + exact (Hg 5).
    + exact (Hh 6).
  - vm_compute in Hrun. discriminate Hrun.
Defined.

End CmdRemoveBoardItemsRuns.

(** ** More on [CmdPasteBoardItems] *)

Module CmdPasteBoardItemsRuns.
Import UndoCommandGroup UndoCommandGroupFacts.
Import CmdPasteBoardItems Examples.
Local Open Scope group_scope.

Ltac execs_only :=
  repeat first
    [ apply ExecsOnly_bind
    | apply ExecsOnly_foreach
    | apply ExecsOnly_foreachWith
    | apply ExecsOnly_deref
    | progress intros
    | constructor
    | done
    | match goal with
      | |- ExecsOnly _ (match ?x with _ => _ end) => destruct x
      | |- ExecsOnly _ (if ?x then _ else _) => destruct x
      end ].

Section Run.

Variable cmdExecute : Command → Project.t → ExecResult Project.t Command.
Variable cmdUndo : Command → Project.t → Project.t.
Variable createRandom : nat → Uuid.

Local Abbreviation run' := (@run Project.t Command cmdExecute createRandom).
Local Abbreviation requested' :=
  (@requested Project.t Command cmdExecute createRandom).
Local Abbreviation St := (State Project.t Command).

(** X13: the name asked for is only looked up: when the circuit has no net
    signal of that name, what [getOrCreateNetSignal] does and returns is
    the same for every such name, the commands it hands over included. *)
Theorem getOrCreateNetSignal_ignores_name name name' (s : St) :
  Circuit.getNetSignalByName name (Project.getCircuit (model s)) = None →
  Circuit.getNetSignalByName name' (Project.getCircuit (model s)) = None →
  run' (getOrCreateNetSignal name) s = run' (getOrCreateNetSignal name') s ∧
  requested' (getOrCreateNetSignal name) s
    = requested' (getOrCreateNetSignal name') s.
Proof.
  intros Hn Hn'. unfold getOrCreateNetSignal. simpl. by rewrite Hn, Hn'.
Qed.

(** *** Devices *)

Lemma run_pasteDevice_passedOver self pasted dev (s : St) :
  passedOver (model s) dev → run' (pasteDevice self pasted dev) s = Ok pasted s.
Proof.
  unfold passedOver, pasteDevice. simpl. intros [->|[d ->]]; [done|].
  by destruct (Circuit.getComponentInstanceByUuid _ _).
Qed.

Lemma run_pasteDevices_passedOver self devs : ∀ pasted (s : St),
  (∀ dev, dev ∈ devs → passedOver (model s) dev) →
  run' (foreachWith devs pasted (pasteDevice self)) s = Ok pasted s.
Proof.
  induction devs as [|dev devs IH]; intros pasted s Hall; [done|].
  rewrite run_foreachWith_cons, run_pasteDevice_passedOver by (apply Hall; by left).
  apply IH. intros d Hd. apply Hall. by right.
Qed.

(** X14: a device of the clipboard whose component is not in the circuit, or
    has a device on the board already, is passed over: no command, no
    error, nothing changed.  So pasting a clipboard that holds nothing but
    such devices returns false and does nothing. *)
Theorem paste_passes_over_devices self :
  (∀ pasted dev (s : St),
     passedOver (model s) dev →
     run' (pasteDevice self pasted dev) s = Ok pasted s) ∧
  (∀ m seed,
     (∀ dev, dev ∈ BoardClipboardData.getDevices (mData self) → passedOver m dev) →
     BoardClipboardData.getNetSegments (mData self) = [] →
     BoardClipboardData.getPlanes (mData self) = [] →
     BoardClipboardData.getPolygons (mData self) = [] →
     BoardClipboardData.getStrokeTexts (mData self) = [] →
     BoardClipboardData.getHoles (mData self) = [] →
     CmdPasteBoardItems.performExecute cmdExecute cmdUndo createRandom self
       (created m seed) = Ok false (created m seed)).
Proof.
  split; [intros; by apply run_pasteDevice_passedOver|].
  intros m seed Hdevs Hs Hp Hg Ht Hh.
  unfold CmdPasteBoardItems.performExecute, UndoCommandGroup.performExecute, body.
  rewrite run_bind, run_pasteDevices_passedOver by done.
  by rewrite Hs, Hp, Hg, Ht, Hh.
Qed.

Lemma run_pasteDeviceTexts self componentUuid (texts : list StrokeText) :
  ∀ (items : list BI_StrokeText.t) (s : St),
  run' (foreachWith texts items
          (λ items text,
             let! uuid := createRandomUuid in
             let copy :=
               mkStrokeText uuid
                 (Point_add (strokeTextPosition text) (mPosOffset self))
                 (strokeTextValue text) in
             Ret (items ++ [BI_StrokeText.mk copy (Some componentUuid) true]))) s
  = Ok (items ++
        zip_with (λ uuid text,
                    BI_StrokeText.mk
                      (mkStrokeText uuid
                         (Point_add (strokeTextPosition text) (mPosOffset self))
                         (strokeTextValue text))
                      (Some componentUuid) true)
          (createRandom <$> seq (drawn s) (length texts)) texts)
       (mkState (model s) (mChilds s) (drawn s + length texts) (log s)).
Proof.
  induction texts as [|text texts IH]; intros items s.
  - simpl. rewrite app_nil_r, Nat.add_0_r. by destruct s.
  - cbv beta zeta in IH. rewrite run_foreachWith_cons, run_bind.
    cbn [run createRandomUuid]. cbv beta zeta. rewrite IH.
    cbn [model mChilds drawn log length seq fmap list_fmap zip_with].
    rewrite <- (assoc (++)). do 2 f_equal. lia.
Qed.

(** X15: pasting a device whose component is in the circuit and has no device
    on the board, with its library device and package in the project
    library already, comes down to one [CmdDeviceInstanceAdd]: of a
    device of that component, moved by the paste offset, with rotation and
    mirroring as copied, selected, and whose stroke texts are the copied
    ones, each under a newly drawn uuid, moved by the offset, selected and
    owned by the footprint.  No library command is issued. *)
Theorem pasteDevice_adds_device self pasted dev (s : St) cmpInst libDev libPgk :
  Circuit.getComponentInstanceByUuid (BoardClipboardData.Device.componentUuid dev)
    (Project.getCircuit (model s)) = Some cmpInst →
  Board.getDeviceInstanceByComponentUuid
    (BoardClipboardData.Device.componentUuid dev) (Project.getBoard (model s))
    = None →
  ProjectLibrary.getDevice (BoardClipboardData.Device.libDeviceUuid dev)
    (Project.getLibrary (model s)) = Some libDev →
  ProjectLibrary.getPackage (library.getPackageUuid libDev)
    (Project.getLibrary (model s)) = Some libPgk →
  ∃ device,
    run' (pasteDevice self pasted dev) s =
    run' (do! execNewChildCmd (CmdDeviceInstanceAdd device) in
          Ret ({[BoardClipboardData.Device.componentUuid dev]} ∪ pasted))
         (mkState (model s) (mChilds s)
            (drawn s + length (BoardClipboardData.Device.strokeTexts dev))
            (log s)) ∧
    BI_Device.getComponentInstanceUuid device = cmpInst ∧
    BI_Device.getLibDevice device = libDev ∧
    BI_Device.getLibPackage device = libPgk ∧
    BI_Device.getLibFootprintUuid device
      = BoardClipboardData.Device.libFootprintUuid dev ∧
    BI_Device.getPosition device
      = Point_add (BoardClipboardData.Device.position dev) (mPosOffset self) ∧
    BI_Device.getRotation device = BoardClipboardData.Device.rotation dev ∧
    BI_Device.getIsMirrored device = BoardClipboardData.Device.mirrored dev ∧
    BI_Device.isSelected device = true ∧
    BI_Device.getStrokeTexts device =
      zip_with (λ uuid text,
                  BI_StrokeText.mk
                    (mkStrokeText uuid
                       (Point_add (strokeTextPosition text) (mPosOffset self))
                       (strokeTextValue text))
                    (Some (BoardClipboardData.Device.componentUuid dev)) true)
        (createRandom
           <$> seq (drawn s) (length (BoardClipboardData.Device.strokeTexts dev)))
        (BoardClipboardData.Device.strokeTexts dev).
Proof.
  intros Hc Hb Hd Hp. unfold pasteDevice.
  rewrite run_bind. cbn [run getModel]. rewrite Hc, Hb, Hd.
  rewrite run_bind. cbn [run].
  rewrite run_bind. cbn [run getModel]. rewrite Hp.
  rewrite run_bind. cbn [run].
  rewrite run_bind.
  pose proof (run_pasteDeviceTexts self
                (BoardClipboardData.Device.componentUuid dev)
                (BoardClipboardData.Device.strokeTexts dev) [] s) as Htexts.
  cbv beta zeta in Htexts. cbv beta zeta. rewrite Htexts.
  eexists. split; [reflexivity|]. by split_and!.
Qed.

(** X16: pasting a device whose library device the project library does not
    have: when the clipboard has the directory of that library device,
    the first command handed over adds the library device found there to
    the project library; when the clipboard has not, the paste raises before
    any command is handed over. *)
Theorem pasteDevice_copies_library self pasted dev (s : St) cmpInst :
  Circuit.getComponentInstanceByUuid (BoardClipboardData.Device.componentUuid dev)
    (Project.getCircuit (model s)) = Some cmpInst →
  Board.getDeviceInstanceByComponentUuid
    (BoardClipboardData.Device.componentUuid dev) (Project.getBoard (model s))
    = None →
  ProjectLibrary.getDevice (BoardClipboardData.Device.libDeviceUuid dev)
    (Project.getLibrary (model s)) = None →
  (∀ newLibDev,
     BoardClipboardData.devDirectories (mData self)
       !! BoardClipboardData.Device.libDeviceUuid dev = Some newLibDev →
     ∃ rest,
       requested' (pasteDevice self pasted dev) s
         = CmdProjectLibraryAddDevice newLibDev :: rest) ∧
  (BoardClipboardData.devDirectories (mData self)
     !! BoardClipboardData.Device.libDeviceUuid dev = None →
   ∃ e, run' (pasteDevice self pasted dev) s = Err e s ∧
        requested' (pasteDevice self pasted dev) s = []).
Proof.
  intros Hc Hb Hd. unfold pasteDevice, loadDevice. split.
  - intros newLibDev Hdir. cbn [requested bind getModel]. rewrite Hc, Hb, Hd, Hdir.
    cbn [requested bind execNewChildCmd]. by eexists.
  - intros Hdir. cbn [requested run bind getModel]. rewrite Hc, Hb, Hd, Hdir.
    cbn [requested run bind]. by eexists.
Qed.

(** *** Planes and net segments *)

(** X17: pasting a plane whose net signal name the circuit knows comes down to
    one [CmdBoardPlaneAdd], of a plane under a newly drawn uuid that is
    connected to the net signal of that name, has the outline of the
    copied plane moved by the paste offset, is selected, and is otherwise
    as copied. *)
Theorem pastePlane_existing_signal self plane (s : St) netSignal :
  Circuit.getNetSignalByName (BoardClipboardData.Plane.netSignalName plane)
    (Project.getCircuit (model s)) = Some netSignal →
  run' (pastePlane self plane) s =
  run' (do! execNewChildCmd
              (CmdBoardPlaneAdd
                 (BI_Plane.mk (createRandom (drawn s))
                    (BoardClipboardData.Plane.layer plane) netSignal
                    (translated (mPosOffset self)
                       (BoardClipboardData.Plane.outline plane))
                    (BoardClipboardData.Plane.minWidth plane)
                    (BoardClipboardData.Plane.minClearance plane)
                    (BoardClipboardData.Plane.keepOrphans plane)
                    (BoardClipboardData.Plane.priority plane)
                    (BoardClipboardData.Plane.connectStyle plane) true)) in
        Ret tt)
       (mkState (model s) (mChilds s) (S (drawn s)) (log s)) ∧
  netSignalName netSignal = BoardClipboardData.Plane.netSignalName plane.
Proof.
  intros Hsig. split.
  - unfold pastePlane, getOrCreateNetSignal.
    cbn [run bind getModel]. rewrite Hsig. done.
  - unfold Circuit.getNetSignalByName in Hsig.
    apply fmap_Some in Hsig as (netclass & _ & ->). done.
Qed.

Lemma run_pasteVias self (vs : list Via) :
  ∀ (cmd : CmdBoardNetSegmentAddElements.t)
    (vm : gmap Uuid BI_NetLineAnchor) (s : St),
  ∃ vm',
    run' (foreachWith vs (cmd, vm)
            (λ acc v,
               let! uuid := createRandomUuid in
               let added :=
                 CmdBoardNetSegmentAddElements.addVia
                   (mkVia uuid (Point_add (viaPosition v) (mPosOffset self))
                      (viaShape v) (viaSize v) (viaDrillDiameter v)) acc.1 in
               Ret (added.1, <[viaUuid v:=added.2]> acc.2))) s
    = Ok (CmdBoardNetSegmentAddElements.mk
            (CmdBoardNetSegmentAddElements.mNetSegment cmd)
            (CmdBoardNetSegmentAddElements.mVias cmd ++
             zip_with (λ uuid v,
                         mkVia uuid (Point_add (viaPosition v) (mPosOffset self))
                           (viaShape v) (viaSize v) (viaDrillDiameter v))
               (createRandom <$> seq (drawn s) (length vs)) vs)
            (CmdBoardNetSegmentAddElements.mNetPoints cmd)
            (CmdBoardNetSegmentAddElements.mNetLines cmd), vm')
         (mkState (model s) (mChilds s) (drawn s + length vs) (log s)).
Proof.
  induction vs as [|v vs IH]; intros cmd vm s.
  - exists vm. simpl. rewrite app_nil_r, Nat.add_0_r. by destruct cmd, s.
  - cbv beta zeta in IH. rewrite run_foreachWith_cons, run_bind.
    cbn [run createRandomUuid]. cbv beta zeta.
    edestruct IH as (vm' & ->). exists vm'.
    cbn [model mChilds drawn log length seq fmap list_fmap zip_with fst snd
         CmdBoardNetSegmentAddElements.addVia
         CmdBoardNetSegmentAddElements.mNetSegment
         CmdBoardNetSegmentAddElements.mVias
         CmdBoardNetSegmentAddElements.mNetPoints
         CmdBoardNetSegmentAddElements.mNetLines].
    rewrite <- (assoc (++)). do 2 f_equal. lia.
Qed.

Lemma run_pasteNetPoints self (nps : list NetPoint.t) :
  ∀ (cmd : CmdBoardNetSegmentAddElements.t)
    (npm : gmap Uuid BI_NetLineAnchor) (s : St),
  ∃ npm',
    run' (foreachWith nps (cmd, npm)
            (λ acc np,
               let! uuid := createRandomUuid in
               let added :=
                 CmdBoardNetSegmentAddElements.addNetPoint
                   (Point_add (NetPoint.getPosition np) (mPosOffset self))
                   uuid acc.1 in
               Ret (added.1, <[NetPoint.getUuid np:=added.2]> acc.2))) s
    = Ok (CmdBoardNetSegmentAddElements.mk
            (CmdBoardNetSegmentAddElements.mNetSegment cmd)
            (CmdBoardNetSegmentAddElements.mVias cmd)
            (CmdBoardNetSegmentAddElements.mNetPoints cmd ++
             zip_with (λ uuid np,
                         NetPoint.create uuid
                           (Point_add (NetPoint.getPosition np) (mPosOffset self)))
               (createRandom <$> seq (drawn s) (length nps)) nps)
            (CmdBoardNetSegmentAddElements.mNetLines cmd), npm')
         (mkState (model s) (mChilds s) (drawn s + length nps) (log s)).
Proof.
  induction nps as [|np nps IH]; intros cmd npm s.
  - exists npm. simpl. rewrite app_nil_r, Nat.add_0_r. by destruct cmd, s.
  - cbv beta zeta in IH. rewrite run_foreachWith_cons, run_bind.
    cbn [run createRandomUuid]. cbv beta zeta.
    edestruct IH as (npm' & ->). exists npm'.
    cbn [model mChilds drawn log length seq fmap list_fmap zip_with fst snd
         CmdBoardNetSegmentAddElements.addNetPoint
         CmdBoardNetSegmentAddElements.mNetSegment
         CmdBoardNetSegmentAddElements.mVias
         CmdBoardNetSegmentAddElements.mNetPoints
         CmdBoardNetSegmentAddElements.mNetLines].
    rewrite <- (assoc (++)). do 2 f_equal. lia.
Qed.

(** X18: pasting a net segment without traces whose net signal name the
    circuit knows: a new, selected net segment of that net signal is
    added, and what is left to do is one
    [CmdBoardNetSegmentAddElements] with a copy of each via, under a newly
    drawn uuid and moved by the paste offset, a net point for each copied
    net point, moved by the offset, and no net line. *)
Theorem pasteNetSegment_without_traces self seg (s : St) netSignal c1 m1 :
  BoardClipboardData.NetSegment.traces seg = [] →
  Circuit.getNetSignalByName (BoardClipboardData.NetSegment.netName seg)
    (Project.getCircuit (model s)) = Some netSignal →
  cmdExecute
    (CmdBoardNetSegmentAdd
       (BI_NetSegment.mk (createRandom (drawn s)) netSignal [] [] [] true))
    (model s) = Executed c1 m1 →
  let vias := BoardClipboardData.NetSegment.vias seg in
  let points := BoardClipboardData.NetSegment.points seg in
  run' (pasteNetSegment self seg) s =
  run' (do! execNewChildCmd
              (CmdBoardNetSegmentAddElements
                 (CmdBoardNetSegmentAddElements.mk
                    (BI_NetSegment.mk (createRandom (drawn s)) netSignal
                       [] [] [] true)
                    (zip_with
                       (λ uuid v,
                          mkVia uuid
                            (Point_add (viaPosition v) (mPosOffset self))
                            (viaShape v) (viaSize v) (viaDrillDiameter v))
                       (createRandom <$> seq (S (drawn s)) (length vias)) vias)
                    (zip_with
                       (λ uuid np,
                          NetPoint.create uuid
                            (Point_add (NetPoint.getPosition np)
                               (mPosOffset self)))
                       (createRandom
                          <$> seq (S (drawn s) + length vias) (length points))
                       points)
                    [])) in
        Ret tt)
       (mkState m1 (mChilds s ++ [c1]) (S (drawn s) + length vias + length points)
          (log s ++ [EvExecute c1])).
Proof.
  intros Htraces Hsig Hadd vias points. unfold pasteNetSegment.
  rewrite run_bind. unfold getOrCreateNetSignal at 1.
  cbn [run bind getModel]. rewrite Hsig. cbn [run].
  rewrite run_bind. cbn [run deref].
  rewrite run_bind. cbn [run createRandomUuid].
  rewrite run_bind. cbn [run execNewChildCmd model]. rewrite Hadd.
  rewrite run_bind. cbn [model mChilds drawn log].
  edestruct (run_pasteVias self vias) as (vm & Hv).
  cbv beta zeta in Hv. cbv beta zeta. fold vias. rewrite Hv. clear Hv.
  rewrite run_bind. cbn [fst snd model mChilds drawn log].
  edestruct (run_pasteNetPoints self points) as (npm & Hp).
  cbv beta zeta in Hp. fold points. rewrite Hp. clear Hp.
  rewrite run_bind, Htraces. cbn [foreachWith run fst snd model mChilds drawn log].
  done.
Qed.

(** *** The commands of a run *)

Lemma requested_foreach_fresh {X} (mkCmd : Uuid → X → Command) (l : list X) :
  ∀ (s s' : St),
  run' (foreach l (λ x, let! uuid := createRandomUuid in
                        do! execNewChildCmd (mkCmd uuid x) in Ret tt)) s
    = Ok tt s' →
  requested' (foreach l (λ x, let! uuid := createRandomUuid in
                              do! execNewChildCmd (mkCmd uuid x) in Ret tt)) s
    = zip_with mkCmd (createRandom <$> seq (drawn s) (length l)) l ∧
  drawn s' = drawn s + length l.
Proof.
  induction l as [|x l IH]; intros s s' Hrun.
  - simpl in *. injection Hrun as <-. split; [done|lia].
  - rewrite run_foreach_cons in Hrun. cbn [foreach]. rewrite requested_bind.
    simpl in Hrun |- *.
    destruct (cmdExecute (mkCmd (createRandom (drawn s)) x) (model s))
      as [c' m'|e m']; [|done].
    simpl in Hrun |- *.
    destruct (IH _ _ Hrun) as [Hreq ->]. split; [|simpl; lia].
    f_equal. exact Hreq.
Qed.

(** Every command the paste hands over adds something. *)
Lemma body_execs self : ExecsOnly (λ c, isAddCommand c = true) (body self).
Proof.
  unfold body, pasteDevice, pasteNetSegment, pastePlane, pastePolygon,
    pasteStrokeText, pasteHole, pasteTrace, getOrCreateNetSignal, loadDevice,
    loadPackage.
  execs_only.
Qed.

(** X19: when [performExecute] returns, the commands it handed to
    [execNewChildCmd] all add something, none removes; the last ones are
    one [CmdBoardPolygonAdd] for each polygon of the clipboard, then one
    [CmdBoardStrokeTextAdd] for each stroke text, then one
    [CmdBoardHoleAdd] for each hole, in the order of the clipboard.  Each
    of these adds a copy under a uuid drawn for it, the uuids drawn one
    after the other, moved by the paste offset and selected; a stroke
    text added this way belongs to no footprint.  This holds whatever the
    child commands do. *)
Theorem paste_requests self (s : St) b s' :
  CmdPasteBoardItems.performExecute cmdExecute cmdUndo createRandom self s
    = Ok b s' →
  let polygons := BoardClipboardData.getPolygons (mData self) in
  let texts := BoardClipboardData.getStrokeTexts (mData self) in
  let holes := BoardClipboardData.getHoles (mData self) in
  ∃ before d,
    requested' (body self) s =
      before
      ++ zip_with (λ uuid polygon,
                     CmdBoardPolygonAdd
                       (BI_Polygon.mk
                          (mkPolygon uuid
                             (translated (mPosOffset self) (polygonPath polygon)))
                          true))
           (createRandom <$> seq d (length polygons)) polygons
      ++ zip_with (λ uuid text,
                     CmdBoardStrokeTextAdd
                       (BI_StrokeText.mk
                          (mkStrokeText uuid
                             (Point_add (strokeTextPosition text) (mPosOffset self))
                             (strokeTextValue text))
                          None true))
           (createRandom <$> seq (d + length polygons) (length texts)) texts
      ++ zip_with (λ uuid hole,
                     CmdBoardHoleAdd
                       (BI_Hole.mk
                          (mkHole uuid
                             (Point_add (holePosition hole) (mPosOffset self))
                             (holeDiameter hole))
                          true))
           (createRandom
              <$> seq (d + length polygons + length texts) (length holes)) holes ∧
    Forall (λ c, isAddCommand c = true) (requested' (body self) s) ∧
    drawn s' = d + length polygons + length texts + length holes ∧
    length (mChilds s') = length (mChilds s) + length (requested' (body self) s).
Proof.
  unfold CmdPasteBoardItems.performExecute, UndoCommandGroup.performExecute.
  destruct (run' (body self) s) as [[] s6|e s6] eqn:Hrun; [|done].
  unfold leaveScope. intros [= <- <-]. cbv zeta.
  pose proof (run_Ok_childs _ _ cmdExecute createRandom _ _ tt _ Hrun) as Hlen.
  pose proof (ExecsOnly_requested _ _ cmdExecute createRandom _ _
                (body_execs self) s) as Hadd.
  set (polygons := BoardClipboardData.getPolygons (mData self)) in *.
  set (texts := BoardClipboardData.getStrokeTexts (mData self)) in *.
  set (holes := BoardClipboardData.getHoles (mData self)) in *.
  unfold body in Hrun |- *. fold polygons texts holes in Hrun |- *.
  apply run_bind_Ok in Hrun as (pasted & s1 & H1 & Hrun).
  apply run_bind_Ok in Hrun as ([] & s2 & H2 & Hrun).
  apply run_bind_Ok in Hrun as ([] & s3 & H3 & Hrun).
  apply run_bind_Ok in Hrun as ([] & s4 & H4 & Hrun).
  apply run_bind_Ok in Hrun as ([] & s5 & H5 & H6).
  destruct (requested_foreach_fresh
              (λ uuid polygon,
                 CmdBoardPolygonAdd
                   (BI_Polygon.mk
                      (mkPolygon uuid
                         (translated (mPosOffset self) (polygonPath polygon)))
                      true)) polygons s3 s4 H4) as [R4 D4].
  destruct (requested_foreach_fresh
              (λ uuid text,
                 CmdBoardStrokeTextAdd
                   (BI_StrokeText.mk
                      (mkStrokeText uuid
                         (Point_add (strokeTextPosition text) (mPosOffset self))
                         (strokeTextValue text))
                      None true)) texts s4 s5 H5) as [R5 D5].
  destruct (requested_foreach_fresh
              (λ uuid hole,
                 CmdBoardHoleAdd
                   (BI_Hole.mk
                      (mkHole uuid
                         (Point_add (holePosition hole) (mPosOffset self))
                         (holeDiameter hole))
                      true)) holes s5 s6 H6) as [R6 D6].
  exists (requested' (foreachWith (BoardClipboardData.getDevices (mData self)) ∅
                        (pasteDevice self)) s
          ++ requested' (foreach (BoardClipboardData.getNetSegments (mData self))
                           (pasteNetSegment self)) s1
          ++ requested' (foreach (BoardClipboardData.getPlanes (mData self))
                           (pastePlane self)) s2),
         (drawn s3).
  split; [|split; [exact Hadd|split; [lia|exact Hlen]]].
  rewrite requested_bind, H1, <- !(assoc (++)). f_equal.
  rewrite requested_bind, H2. f_equal.
  rewrite requested_bind, H3. f_equal.
  rewrite requested_bind, H4. rewrite <- D4. f_equal; [exact R4|].
  rewrite requested_bind, H5. rewrite <- D5. f_equal; [exact R5|exact R6].
Qed.

End Run.

(** *** With the child commands as modelled *)

Section Modelled.

Import Semantics SemanticsFacts.

Variable createRandom : nat → Uuid.

Local Abbreviation run' :=
  (@run Project.t Command Semantics.cmdExecute createRandom).
Local Abbreviation St := (State Project.t Command).

(** A program that only adds leaves a project that has grown. *)
Lemma run_grows {A} (prog : Prog A) :
  ExecsOnly (λ c, isAddCommand c = true) prog →
  ∀ s : St, Grows (model s) (model (stateOf (run' prog s))).
Proof.
  intros Hp.
  apply (ExecsOnly_run _ _ Semantics.cmdExecute createRandom _ Grows prog Hp).
  - intros c m c' m' Hc Hex. by eapply cmdExecute_grows.
  - intros c m e m' _ ->%execute_failed. done.
Qed.

(** Adding an element for each member of a list, each under a newly drawn
    uuid. *)
Lemma run_addAll {X V} (mkCmd : Uuid → X → Command) (val : Uuid → X → V)
    (tbl : Project.t → gmap Uuid V) :
  (∀ u x p c' p', Semantics.cmdExecute (mkCmd u x) p = Executed c' p' →
                  tbl p !! u = None ∧ tbl p' = <[u:=val u x]> (tbl p)) →
  ∀ l (s s' : St),
    run' (foreach l (λ x, let! uuid := createRandomUuid in
                          do! execNewChildCmd (mkCmd uuid x) in Ret tt)) s
      = Ok tt s' →
    tbl (model s) ⊆ tbl (model s') ∧
    ∀ x, x ∈ l →
         ∃ u, tbl (model s') !! u = Some (val u x) ∧ tbl (model s) !! u = None.
Proof.
  intros Hcmd. induction l as [|x l IH]; intros s s' Hrun.
  - simpl in Hrun. injection Hrun as <-. split; [done|].
    intros x Hx. by apply elem_of_nil in Hx.
  - rewrite run_foreach_cons in Hrun. simpl in Hrun.
    destruct (Semantics.cmdExecute (mkCmd (createRandom (drawn s)) x) (model s))
      as [c' m'|e m'] eqn:Hc; [|done].
    simpl in Hrun. destruct (Hcmd _ _ _ _ _ Hc) as [Hnone Hm'].
    destruct (IH _ _ Hrun) as [Hsub Hl]. simpl in Hsub, Hl.
    rewrite Hm' in Hsub, Hl.
    assert (tbl (model s) ⊆ tbl (model s')) as Hsub'.
    { etrans; [|exact Hsub]. by apply insert_subseteq. }
    split; [done|].
    intros y [->|Hy]%elem_of_cons.
    + exists (createRandom (drawn s)). split; [|done].
      eapply lookup_weaken; [|exact Hsub]. by rewrite lookup_insert_eq.
    + destruct (Hl y Hy) as (u & Hu & Hnew). exists u. split; [done|].
      eapply lookup_weaken_None; [exact Hnew|]. by apply insert_subseteq.
Qed.

Lemma paste_shapes self (s : St) b s' :
  CmdPasteBoardItems.performExecute Semantics.cmdExecute Semantics.cmdUndo
    createRandom self s = Ok b s' →
  Grows (model s) (model s') ∧
  (∀ polygon, polygon ∈ BoardClipboardData.getPolygons (mData self) →
     ∃ uuid,
       Board.polygons (Project.getBoard (model s')) !! uuid =
         Some (BI_Polygon.mk
                 (mkPolygon uuid
                    (translated (mPosOffset self) (polygonPath polygon))) true) ∧
       Board.polygons (Project.getBoard (model s)) !! uuid = None) ∧
  (∀ text, text ∈ BoardClipboardData.getStrokeTexts (mData self) →
     ∃ uuid,
       Board.strokeTexts (Project.getBoard (model s')) !! uuid =
         Some (BI_StrokeText.mk
                 (mkStrokeText uuid
                    (Point_add (strokeTextPosition text) (mPosOffset self))
                    (strokeTextValue text)) None true) ∧
       Board.strokeTexts (Project.getBoard (model s)) !! uuid = None) ∧
  (∀ hole, hole ∈ BoardClipboardData.getHoles (mData self) →
     ∃ uuid,
       Board.holes (Project.getBoard (model s')) !! uuid =
         Some (BI_Hole.mk
                 (mkHole uuid (Point_add (holePosition hole) (mPosOffset self))
                    (holeDiameter hole)) true) ∧
       Board.holes (Project.getBoard (model s)) !! uuid = None).
Proof.
  unfold CmdPasteBoardItems.performExecute, UndoCommandGroup.performExecute.
  destruct (run' (body self) s) as [[] s6|e s6] eqn:Hrun; [|done].
  unfold leaveScope. intros [= <- <-].
  pose proof (run_grows _ (body_execs self) s) as Hgrows.
  rewrite Hrun in Hgrows. simpl in Hgrows. split; [done|].
  unfold body in Hrun.
  apply run_bind_Ok in Hrun as (pasted & s1 & H1 & Hrun).
  apply run_bind_Ok in Hrun as ([] & s2 & H2 & Hrun).
  apply run_bind_Ok in Hrun as ([] & s3 & H3 & Hrun).
  apply run_bind_Ok in Hrun as ([] & s4 & H4 & Hrun).
  apply run_bind_Ok in Hrun as ([] & s5 & H5 & H6).
  assert (Grows (model s) (model s3)) as G03.
  { etrans; [|etrans].
    - pose proof (run_grows (foreachWith (BoardClipboardData.getDevices (mData self))
                               ∅ (pasteDevice self))) as G.
      specialize (G ltac:(unfold pasteDevice, loadDevice, loadPackage; execs_only) s).
      rewrite H1 in G. exact G.
    - pose proof (run_grows (foreach (BoardClipboardData.getNetSegments (mData self))
                               (pasteNetSegment self))) as G.
      specialize (G ltac:(unfold pasteNetSegment, pasteTrace, getOrCreateNetSignal;
                          execs_only) s1).
      rewrite H2 in G. exact G.
    - pose proof (run_grows (foreach (BoardClipboardData.getPlanes (mData self))
                               (pastePlane self))) as G.
      specialize (G ltac:(unfold pastePlane, getOrCreateNetSignal; execs_only) s2).
      rewrite H3 in G. exact G. }
  assert (Grows (model s4) (model s5)) as G45.
  { pose proof (run_grows (foreach (BoardClipboardData.getStrokeTexts (mData self))
                             (pasteStrokeText self))) as G.
    specialize (G ltac:(unfold pasteStrokeText; execs_only) s4).
    rewrite H5 in G. exact G. }
  assert (Grows (model s5) (model s6)) as G56.
  { pose proof (run_grows (foreach (BoardClipboardData.getHoles (mData self))
                             (pasteHole self))) as G.
    specialize (G ltac:(unfold pasteHole; execs_only) s5).
    rewrite H6 in G. exact G. }
  assert (Grows (model s3) (model s4)) as G34.
  { pose proof (run_grows (foreach (BoardClipboardData.getPolygons (mData self))
                             (pastePolygon self))) as G.
    specialize (G ltac:(unfold pastePolygon; execs_only) s3).
    rewrite H4 in G. exact G. }
  split_and!.
  - intros polygon Hin.
    destruct (run_addAll
                (λ uuid polygon,
                   CmdBoardPolygonAdd
                     (BI_Polygon.mk
                        (mkPolygon uuid
                           (translated (mPosOffset self) (polygonPath polygon)))
                        true))
                (λ uuid polygon,
                   BI_Polygon.mk
                     (mkPolygon uuid
                        (translated (mPosOffset self) (polygonPath polygon)))
                     true)
                (λ p, Board.polygons (Project.getBoard p))) with (2 := H4)
      as [_ Hall].
    { intros u x p c' p' [-> Hafter]%outcome_Executed.
      apply fmap_Some in Hafter as (tbl & Htbl & ->).
      by apply added_subseteq in Htbl as [? ->]. }
    destruct (Hall polygon Hin) as (u & Hu & Hnew). exists u. split.
    + eapply lookup_weaken; [exact Hu|]. etrans; [apply G45|apply G56].
    + eapply lookup_weaken_None; [exact Hnew|apply G03].
  - intros text Hin.
    destruct (run_addAll
                (λ uuid text,
                   CmdBoardStrokeTextAdd
                     (BI_StrokeText.mk
                        (mkStrokeText uuid
                           (Point_add (strokeTextPosition text) (mPosOffset self))
                           (strokeTextValue text))
                        None true))
                (λ uuid text,
                   BI_StrokeText.mk
                     (mkStrokeText uuid
                        (Point_add (strokeTextPosition text) (mPosOffset self))
                        (strokeTextValue text))
                     None true)
                (λ p, Board.strokeTexts (Project.getBoard p))) with (2 := H5)
      as [_ Hall].
    { intros u x p c' p' [-> Hafter]%outcome_Executed.
      apply fmap_Some in Hafter as (tbl & Htbl & ->).
      by apply added_subseteq in Htbl as [? ->]. }
    destruct (Hall text Hin) as (u & Hu & Hnew). exists u. split.
    + eapply lookup_weaken; [exact Hu|]. apply G56.
    + eapply lookup_weaken_None; [exact Hnew|]. etrans; [apply G03|apply G34].
  - intros hole Hin.
    destruct (run_addAll
                (λ uuid hole,
                   CmdBoardHoleAdd
                     (BI_Hole.mk
                        (mkHole uuid
                           (Point_add (holePosition hole) (mPosOffset self))
                           (holeDiameter hole))
                        true))
                (λ uuid hole,
                   BI_Hole.mk
                     (mkHole uuid
                        (Point_add (holePosition hole) (mPosOffset self))
                        (holeDiameter hole))
                     true)
                (λ p, Board.holes (Project.getBoard p))) with (2 := H6)
      as [_ Hall].
    { intros u x p c' p' [-> Hafter]%outcome_Executed.
      apply fmap_Some in Hafter as (tbl & Htbl & ->).
      by apply added_subseteq in Htbl as [? ->]. }
    destruct (Hall hole Hin) as (u & Hu & Hnew). exists u. split; [done|].
    eapply lookup_weaken_None; [exact Hnew|].
    etrans; [apply G03|]. etrans; [apply G34|apply G45].
Qed.


End Modelled.


Lemma paste_requests_witness :
  ∃ s',
    CmdPasteBoardItems.performExecute Semantics.cmdExecute Semantics.cmdUndo
      exampleRandom examplePasteShapes (created exampleProject 0) = Ok true s' ∧
    requested Semantics.cmdExecute exampleRandom (body examplePasteShapes)
      (created exampleProject 0) =
    [CmdBoardPolygonAdd (BI_Polygon.mk (mkPolygon 1000 [mkPoint 100 100]) true);
     CmdBoardHoleAdd (BI_Hole.mk (mkHole 1001 (mkPoint 101 101) 100) true)] ∧
    drawn s' = 2.
Proof.
  destruct (CmdPasteBoardItems.performExecute Semantics.cmdExecute
              Semantics.cmdUndo exampleRandom examplePasteShapes
              (created exampleProject 0)) as [b s'|e s'] eqn:Hrun.
  - destruct (paste_requests _ _ _ _ _ _ _ Hrun) as (before & d & _ & _ & Hd & _).
    exists s'. split; [|split].
    + f_equal. vm_compute in Hrun. by injection Hrun as <- _.
    + reflexivity.
    + vm_compute in Hrun. by injection Hrun as _ <-.
  - vm_compute in Hrun. discriminate Hrun.
Defined.

Lemma pasteDevice_adds_device_witness :
  ∃ device,
    run Semantics.cmdExecute exampleRandom
      (pasteDevice examplePasteMissing ∅ exampleClipboardDevice)
      (created exampleProjectWithComponent 0) =
    run Semantics.cmdExecute exampleRandom
      (do! execNewChildCmd (CmdDeviceInstanceAdd device) in Ret ({[20]} ∪ ∅))
      (mkState exampleProjectWithComponent [] 1 []) ∧
    BI_Device.getPosition device = mkPoint 100 100 ∧
    BI_StrokeText.getText <$> BI_Device.getStrokeTexts device
      = [mkStrokeText 1000 (mkPoint 101 101) "NAME"].
Proof.
  destruct (pasteDevice_adds_device Semantics.cmdExecute exampleRandom
              examplePasteMissing ∅ exampleClipboardDevice
              (created exampleProjectWithComponent 0) 20
              (BI_Device.getLibDevice exampleDevice)
              (BI_Device.getLibPackage exampleDevice))
    as (device & Hrun & _ & _ & _ & _ & Hpos & _ & _ & _ & Htexts);
    try reflexivity.
  exists device. split; [exact Hrun|]. split.
  - rewrite Hpos. reflexivity.
  - rewrite Htexts. reflexivity.
Defined.

Lemma pasteDevice_copies_library_witness :
  ∃ rest,
    requested Semantics.cmdExecute exampleRandom
      (pasteDevice examplePasteWithDirectory ∅ exampleClipboardDevice)
      (created exampleProjectNoLibrary 0)
    = CmdProjectLibraryAddDevice (BI_Device.getLibDevice exampleDevice) :: rest.
Proof.
  apply (proj1 (pasteDevice_copies_library Semantics.cmdExecute exampleRandom
                  examplePasteWithDirectory ∅ exampleClipboardDevice
                  (created exampleProjectNoLibrary 0) 20
                  eq_refl eq_refl eq_refl)).
  reflexivity.
Defined.

Lemma pastePlane_existing_signal_witness :
  ∃ plane,
    run Semantics.cmdExecute exampleRandom
      (pastePlane examplePasteShapes exampleClipboardPlane)
      (created exampleProject 0) =
    run Semantics.cmdExecute exampleRandom
      (do! execNewChildCmd (CmdBoardPlaneAdd plane) in Ret tt)
      (mkState exampleProject [] 1 []) ∧
    BI_Plane.getNetSignal plane = exampleSignal ∧
    BI_Plane.getOutline plane = [mkPoint 100 100; mkPoint 101 100].
Proof.
  eexists. split.
  - apply (pastePlane_existing_signal Semantics.cmdExecute exampleRandom
             examplePasteShapes exampleClipboardPlane (created exampleProject 0)
             exampleSignal).
    reflexivity.
  - split; reflexivity.
Defined.

Lemma pasteNetSegment_without_traces_witness :
  ∃ s1,
    run Semantics.cmdExecute exampleRandom
      (pasteNetSegment examplePasteShapes exampleClipboardPoints)
      (created exampleProject 0) =
    run Semantics.cmdExecute exampleRandom
      (do! execNewChildCmd
             (CmdBoardNetSegmentAddElements
                (CmdBoardNetSegmentAddElements.mk
                   (BI_NetSegment.mk 1000 exampleSignal [] [] [] true)
                   [mkVia 1001 (mkPoint 100 100) 0 800000 300000]
                   [NetPoint.create 1002 (mkPoint 105 100)] [])) in
       Ret tt) s1 ∧
    drawn s1 = 3.
Proof.
  eexists. split.
  - eapply (pasteNetSegment_without_traces Semantics.cmdExecute exampleRandom
              examplePasteShapes exampleClipboardPoints (created exampleProject 0)
              exampleSignal); reflexivity.
  - reflexivity.
Defined.

Lemma paste_passes_over_devices_witness :
  CmdPasteBoardItems.performExecute Semantics.cmdExecute Semantics.cmdUndo
    exampleRandom examplePasteMissing (created exampleProject 0)
  = Ok false (created exampleProject 0).
Proof.
  apply (proj2 (paste_passes_over_devices Semantics.cmdExecute Semantics.cmdUndo
                  exampleRandom examplePasteMissing)); try reflexivity.
  intros dev ->%list_elem_of_singleton. by left.
Defined.

Lemma getOrCreateNetSignal_ignores_name_witness :
  run Semantics.cmdExecute exampleRandom (getOrCreateNetSignal "VCC")
    (created exampleProject 0) =
  run Semantics.cmdExecute exampleRandom (getOrCreateNetSignal "VDD")
    (created exampleProject 0).
Proof.
  apply (getOrCreateNetSignal_ignores_name Semantics.cmdExecute exampleRandom
           "VCC" "VDD" (created exampleProject 0)); reflexivity.
Defined.

End CmdPasteBoardItemsRuns.

(** ** More on [BoardClipboardDataBuilder] *)

Module BoardClipboardDataBuilderFacts.
Import BoardClipboardData BoardClipboardDataBuilder Examples.

Lemma foldl_keeps_directories {X} (add : BoardClipboardData.t → X → BoardClipboardData.t)
    (l : list X) :
  (∀ data x, devDirectories (add data x) = devDirectories data ∧
             pkgDirectories (add data x) = pkgDirectories data ∧
             getDevices (add data x) = getDevices data ∧
             getBoardUuid (add data x) = getBoardUuid data ∧
             getCursorPos (add data x) = getCursorPos data) →
  ∀ data, devDirectories (foldl add data l) = devDirectories data ∧
          pkgDirectories (foldl add data l) = pkgDirectories data ∧
          getDevices (foldl add data l) = getDevices data ∧
          getBoardUuid (foldl add data l) = getBoardUuid data ∧
          getCursorPos (foldl add data l) = getCursorPos data.
Proof.
  intros Hadd. induction l as [|x l IH]; intros data; simpl; [done|].
  destruct (IH (add data x)) as (-> & -> & -> & -> & ->). apply Hadd.
Qed.

(** The first device of a list with library device [u], and with library
    package [u]. *)
Local Abbreviation firstWithDevice u l :=
  (head (filter (λ d, library.deviceUuid (BI_Device.getLibDevice d) = u) l)).
Local Abbreviation firstWithPackage u l :=
  (head (filter (λ d, library.packageUuid (BI_Device.getLibPackage d) = u) l)).

Lemma foldl_addDevice_directories (l : list BI_Device.t) : ∀ data,
  (∀ u, devDirectories (foldl addDevice data l) !! u =
        match devDirectories data !! u with
        | Some d => Some d
        | None => BI_Device.getLibDevice <$> firstWithDevice u l
        end) ∧
  (∀ u, pkgDirectories (foldl addDevice data l) !! u =
        match pkgDirectories data !! u with
        | Some p => Some p
        | None => BI_Device.getLibPackage <$> firstWithPackage u l
        end) ∧
  getDevices (foldl addDevice data l) = getDevices data ++ (exportDevice <$> l) ∧
  getBoardUuid (foldl addDevice data l) = getBoardUuid data ∧
  getCursorPos (foldl addDevice data l) = getCursorPos data.
Proof.
  induction l as [|x l IH]; intros data; simpl.
  - rewrite app_nil_r. split_and!; try done; intros u; by destruct (_ !! u).
  - destruct (IH (addDevice data x)) as (Hd & Hp & -> & -> & ->).
    split_and!; try done.
    + intros u. rewrite Hd. simpl. rewrite filter_cons.
      destruct (devDirectories data !! library.deviceUuid (BI_Device.getLibDevice x))
        as [d0|] eqn:Hx.
      * destruct (devDirectories data !! u) as [d|] eqn:Hu; [done|].
        rewrite decide_False; [done|]. intros <-. congruence.
      * destruct (decide (library.deviceUuid (BI_Device.getLibDevice x) = u)) as [<-|Hne].
        -- by rewrite lookup_insert_eq, Hx.
        -- rewrite lookup_insert_ne by done. by destruct (devDirectories data !! u).
    + intros u. rewrite Hp. simpl. rewrite filter_cons.
      destruct (pkgDirectories data !! library.packageUuid (BI_Device.getLibPackage x))
        as [d0|] eqn:Hx.
      * destruct (pkgDirectories data !! u) as [d|] eqn:Hu; [done|].
        rewrite decide_False; [done|]. intros <-. congruence.
      * destruct (decide (library.packageUuid (BI_Device.getLibPackage x) = u)) as [<-|Hne].
        -- by rewrite lookup_insert_eq, Hx.
        -- rewrite lookup_insert_ne by done. by destruct (pkgDirectories data !! u).
    + simpl. by rewrite <- (assoc (++)).
Qed.

Lemma generate_header mBoard query cursorPos :
  let data := generate mBoard query cursorPos in
  let devices := BoardSelectionQuery.getDeviceInstances query in
  (∀ u, devDirectories data !! u = BI_Device.getLibDevice <$> firstWithDevice u devices) ∧
  (∀ u, pkgDirectories data !! u = BI_Device.getLibPackage <$> firstWithPackage u devices) ∧
  getDevices data = exportDevice <$> devices ∧
  getBoardUuid data = Board.getUuid mBoard ∧
  getCursorPos data = cursorPos.
Proof.
  intros data devices. unfold data, devices, generate. cbv zeta.
  repeat match goal with
         | |- context [foldl ?add ?d ?l] =>
             lazymatch add with
             | addDevice => fail
             | _ => destruct (foldl_keeps_directories add l ltac:(done) d)
                      as (-> & -> & -> & -> & ->)
             end
         end.
  destruct (foldl_addDevice_directories
              (BoardSelectionQuery.getDeviceInstances query)
              (create (Board.getUuid mBoard) cursorPos))
    as (Hd & Hp & -> & -> & ->).
  split_and!; try done.
Qed.

(** X21: the payload holds a directory for exactly the library devices, and
    one for exactly the library packages, of the selected devices; a
    library element used by several of them is copied once, from the first
    device that has it.  The payload carries the uuid of the board and the
    cursor position. *)
Theorem generate_directories mBoard query cursorPos :
  let data := generate mBoard query cursorPos in
  let devices := BoardSelectionQuery.getDeviceInstances query in
  (∀ u, devDirectories data !! u =
        BI_Device.getLibDevice
          <$> head (filter (λ d, library.deviceUuid (BI_Device.getLibDevice d) = u)
                           devices)) ∧
  (∀ u, pkgDirectories data !! u =
        BI_Device.getLibPackage
          <$> head (filter (λ d, library.packageUuid (BI_Device.getLibPackage d) = u)
                           devices)) ∧
  getBoardUuid data = Board.getUuid mBoard ∧
  getCursorPos data = cursorPos.
Proof.
  intros data devices.
  destruct (generate_header mBoard query cursorPos) as (Hd & Hp & _ & Hb & Hc).
  by split_and!.
Qed.

Lemma head_filter_Some {X} (P : X → Prop) `{∀ x, Decision (P x)} (l : list X) x :
  x ∈ l → P x → ∃ y, head (filter P l) = Some y ∧ P y ∧ y ∈ l.
Proof.
  intros Hx HP.
  assert (x ∈ filter P l) as Hin by (by apply list_elem_of_filter).
  destruct (filter P l) as [|y k] eqn:Hf; [by apply elem_of_nil in Hin|].
  assert (y ∈ filter P l) as Hy by (rewrite Hf; by left).
  apply list_elem_of_filter in Hy as [? ?]. by exists y.
Qed.

(** X22: what is copied can be pasted: for every device of the payload that
    [generate] returns, the directory [CmdPasteBoardItems] loads the
    library device from is in the payload and holds a device with the
    uuid asked for; and when the library device of each selected device
    names the package of that device, the directory of the package that
    the loaded library device names is in the payload as well. *)
Theorem generate_then_load mBoard query cursorPos dev :
  let data := generate mBoard query cursorPos in
  dev ∈ getDevices data →
  ∃ libDev,
    CmdPasteBoardItems.loadDevice data (Device.libDeviceUuid dev)
      = UndoCommandGroup.Ret libDev ∧
    library.deviceUuid libDev = Device.libDeviceUuid dev ∧
    ((∀ d, d ∈ BoardSelectionQuery.getDeviceInstances query →
           library.getPackageUuid (BI_Device.getLibDevice d)
             = library.packageUuid (BI_Device.getLibPackage d)) →
     ∃ libPgk,
       CmdPasteBoardItems.loadPackage data (library.getPackageUuid libDev)
         = UndoCommandGroup.Ret libPgk ∧
       library.packageUuid libPgk = library.getPackageUuid libDev).
Proof.
  intros data Hdev.
  destruct (generate_header mBoard query cursorPos) as (Hd & Hp & Hdevs & _ & _).
  fold data in Hd, Hp, Hdevs. rewrite Hdevs in Hdev.
  apply list_elem_of_fmap in Hdev as (d & -> & Hin). simpl.
  destruct (head_filter_Some
              (λ x, library.deviceUuid (BI_Device.getLibDevice x)
                    = library.deviceUuid (BI_Device.getLibDevice d))
              _ d Hin eq_refl) as (d0 & Hhead & Huuid & Hin0).
  exists (BI_Device.getLibDevice d0).
  unfold CmdPasteBoardItems.loadDevice, CmdPasteBoardItems.loadPackage.
  rewrite Hd, Hhead. simpl. split_and!; try done.
  intros Hpkg.
  destruct (head_filter_Some
              (λ x, library.packageUuid (BI_Device.getLibPackage x)
                    = library.getPackageUuid (BI_Device.getLibDevice d0))
              _ d0 Hin0 (eq_sym (Hpkg d0 Hin0))) as (d1 & Hhead1 & Huuid1 & _).
  exists (BI_Device.getLibPackage d1). rewrite Hp, Hhead1. by simpl.
Qed.

Lemma generate_then_load_witness :
  ∃ libDev libPgk,
    CmdPasteBoardItems.loadDevice
      (generate (Project.getBoard exampleProject) exampleQuery (mkPoint 0 0)) 30
      = UndoCommandGroup.Ret libDev ∧
    CmdPasteBoardItems.loadPackage
      (generate (Project.getBoard exampleProject) exampleQuery (mkPoint 0 0))
      (library.getPackageUuid libDev) = UndoCommandGroup.Ret libPgk.
Proof.
  destruct (generate_then_load (Project.getBoard exampleProject) exampleQuery
              (mkPoint 0 0) (exportDevice exampleDevice))
    as (libDev & Hdev & _ & Hpkg).
  - simpl. by left.
  - destruct Hpkg as (libPgk & Hload & _).
    + intros d ->%list_elem_of_singleton. reflexivity.
    + by exists libDev, libPgk.
Defined.

Lemma generate_shapes mBoard query cursorPos :
  let data := generate mBoard query cursorPos in
  getPolygons data
    = BI_Polygon.getPolygon <$> BoardSelectionQuery.getPolygons query ∧
  getStrokeTexts data
    = BI_StrokeText.getText <$> BoardSelectionQuery.getStrokeTexts query ∧
  getHoles data = BI_Hole.getHole <$> BoardSelectionQuery.getHoles query.
Proof.
  intros data.
  assert (elementsOf data =
          (exportDevice <$> BoardSelectionQuery.getDeviceInstances query, [],
           exportPlane <$> BoardSelectionQuery.getPlanes query,
           BI_Polygon.getPolygon <$> BoardSelectionQuery.getPolygons query,
           BI_StrokeText.getText <$> BoardSelectionQuery.getStrokeTexts query,
           BI_Hole.getHole <$> BoardSelectionQuery.getHoles query)) as Hel.
  { unfold data, generate.
    rewrite Claims.foldl_addHole.
    pose proof (Claims.foldl_addStrokeText
                  (BoardSelectionQuery.getStrokeTexts query)) as H4.
    pose proof (Claims.foldl_addPolygon (BoardSelectionQuery.getPolygons query))
      as H3.
    pose proof (Claims.foldl_addPlane (BoardSelectionQuery.getPlanes query)) as H2.
    pose proof (Claims.foldl_addDevice
                  (BoardSelectionQuery.getDeviceInstances query)
                  (create (Board.getUuid mBoard) cursorPos)) as H1.
    unfold elementsOf in *.
    repeat match goal with
           | |- context [foldl addStrokeText ?d _] =>
               let H := fresh in
               pose proof (H4 d) as H; injection H as -> -> -> -> -> ->; clear H4
           | |- context [foldl addPolygon ?d _] =>
               let H := fresh in
               pose proof (H3 d) as H; injection H as -> -> -> -> -> ->; clear H3
           | |- context [foldl addPlane ?d _] =>
               let H := fresh in
               pose proof (H2 d) as H; injection H as -> -> -> -> -> ->; clear H2
           end.
    injection H1 as -> -> -> -> -> ->. done. }
  unfold elementsOf in Hel. by injection Hel as _ _ _ -> -> ->.
Qed.



End BoardClipboardDataBuilderFacts.
